(** * LearningPlatform: progress tracking, access policies and profile bootstrap

    A shallow embedding of the parts of the e-learning application that carry
    logic:

    - the migration (tables, constraints, row level security policies and the
      [handle_new_user] trigger),
    - [lib/supabase.ts] (client initialisation from the environment),
    - [pages/CourseDetail.tsx] (the derived completion flags, the completion
      percentage, [toggleLessonCompletion] and [markCourseCompleted]).

    JavaScript numbers are IEEE 754 binary64 values, embedded with the
    Standard Library's [SpecFloat]; a [timestamptz] (and the ISO string
    [new Date().toISOString()] that denotes it) is the number of milliseconds
    since the epoch; a [uuid] is its text.

    The store is a record of tables, a table a list of rows that a query
    returns in table order. A statement either changes the store or is
    refused with an error; the requests of one page run one after the
    other, and a request always reaches the store. What an action reads
    from outside (the clock of the client, [now()] and [gen_random_uuid()]
    of the store) is an argument of the action. *)

From Stdlib Require Import ZArith List String Ascii Bool Lia SpecFloat.
From Stdlib Require Import Sorted Permutation.
From stdpp Require Import gmap strings.
Import ListNotations.

(* ===================================================================== *)
(** * JavaScript numbers *)
(* ===================================================================== *)

Module JSNumber.

Definition prec : Z := 53.
Definition emax : Z := 1024.

Definition number : Type := spec_float.

(** An integer literal, or an integer-valued property such as [length]. *)
Definition of_Z (z : Z) : number := binary_normalize prec emax z 0 false.
Definition of_nat (n : nat) : number := of_Z (Z.of_nat n).

(** [x / y] and [x * y]. *)
Definition div (x y : number) : number := SFdiv prec emax x y.
Definition mul (x y : number) : number := SFmul prec emax x y.

(** [Math.round(x)]: the integer nearest to [x], ties going up; the sign of
    a zero result is that of [x]; NaN and the infinities are returned as
    they are. For a finite [x = n * 2^e] this is [floor (x + 1/2)]. *)
Definition Math_round (x : number) : number :=
  match x with
  | S754_finite s m e =>
      let n := if s then Z.neg m else Z.pos m in
      let r :=
        match e with
        | Z.neg k => ((2 * n + 2 ^ Z.pos k) / 2 ^ (Z.pos k + 1))%Z
        | _ => (n * 2 ^ e)%Z
        end in
      if (r =? 0)%Z then S754_zero s else of_Z r
  | _ => x
  end.

(** The same number, bit for bit (so [+0] and [-0] differ). *)
Definition number_eqb (x y : number) : bool :=
  match x, y with
  | S754_zero a, S754_zero b => Bool.eqb a b
  | S754_infinity a, S754_infinity b => Bool.eqb a b
  | S754_nan, S754_nan => true
  | S754_finite a m e, S754_finite b n f =>
      Bool.eqb a b && Pos.eqb m n && Z.eqb e f
  | _, _ => false
  end.

End JSNumber.

(* ===================================================================== *)
(** * The schema: rows of the five tables *)
(* ===================================================================== *)

Definition uuid : Type := string.
Definition timestamptz : Type := Z.

(** [a === b] on values of type [string | null]. *)
Definition strict_eq (a b : option string) : bool :=
  match a, b with
  | Some x, Some y => String.eqb x y
  | None, None => true
  | _, _ => false
  end.

(** A member of a [jsonb] object: [null], a string, or any other value, kept
    as the text that the [->>] operator yields for it. *)
Inductive json_member : Type :=
  | JNull
  | JString (s : string)
  | JOther (text : string).

Inductive jsonb : Type :=
  | JObject (members : gmap string json_member)
  | JNonObject.

(** [j ->> key]: the member as text; NULL when [j] is NULL or no object, when
    the key is missing and when the member is a JSON null. *)
Definition json_get_text (j : option jsonb) (key : string) : option string :=
  match j with
  | Some (JObject members) =>
      match members !! key with
      | Some (JString s) => Some s
      | Some (JOther text) => Some text
      | Some JNull | None => None
      end
  | Some JNonObject | None => None
  end.

Definition COALESCE (a : option string) (b : string) : string :=
  match a with Some s => s | None => b end.

(** [auth.users] belongs to the hosted store; the migration reads three of
    its columns. *)
Module AuthUser.
Record t : Type := Build {
  id : uuid;
  email : option string;
  raw_user_meta_data : option jsonb
}.
End AuthUser.

Module Profile.
Record t : Type := Build {
  id : uuid;
  email : string;
  full_name : string;
  created_at : timestamptz;
  updated_at : timestamptz
}.
End Profile.

Module Course.
Record t : Type := Build {
  id : uuid;
  title : string;
  description : string;
  thumbnail_url : string;
  category : string;
  difficulty : string;
  duration_minutes : Z;
  created_at : timestamptz;
  updated_at : timestamptz
}.
End Course.

Module Lesson.
Record t : Type := Build {
  id : uuid;
  course_id : uuid;
  title : string;
  content : string;
  order_number : Z;
  duration_minutes : Z;
  created_at : timestamptz
}.
End Lesson.

Module UserProgress.
Record t : Type := Build {
  id : uuid;
  user_id : uuid;
  course_id : uuid;
  lesson_id : option uuid;
  completed : bool;
  completed_at : option timestamptz;
  created_at : timestamptz;
  updated_at : timestamptz
}.

(** The (account, course, lesson-or-null) tuple of a record. *)
Definition tuple (p : t) : uuid * uuid * option uuid :=
  (user_id p, course_id p, lesson_id p).
End UserProgress.

(** At most one Progress Record per (account, course, lesson) tuple. *)
Definition at_most_one_per_tuple (rows : list UserProgress.t) : Prop :=
  List.NoDup (map UserProgress.tuple rows).

(* ===================================================================== *)
(** * Row level security *)
(* ===================================================================== *)

Module RLS.

Inductive command : Type := SELECT | INSERT | UPDATE | DELETE.
Inductive role : Type := anon | authenticated.

Definition command_eqb (a b : command) : bool :=
  match a, b with
  | SELECT, SELECT | INSERT, INSERT | UPDATE, UPDATE | DELETE, DELETE => true
  | _, _ => false
  end.

Definition role_eqb (a b : role) : bool :=
  match a, b with
  | anon, anon | authenticated, authenticated => true
  | _, _ => false
  end.

(** A request carries the identity of its session: [None] is a request
    without a signed-in account. *)
Definition session : Type := option uuid.

Definition role_of (s : session) : role :=
  match s with Some _ => authenticated | None => anon end.

(** [auth.uid() = column]: a comparison with NULL is not true. *)
Definition uid_is (auth_uid : session) (column : uuid) : bool :=
  match auth_uid with Some u => String.eqb u column | None => false end.

(** [CREATE POLICY name ON table FOR cmd TO role USING (..) WITH CHECK (..)];
    the expressions read [auth.uid()] and the row. *)
Record policy (Row : Type) : Type := Policy {
  pol_name : string;
  pol_for : command;
  pol_to : role;
  pol_using : option (session -> Row -> bool);
  pol_with_check : option (session -> Row -> bool)
}.
Arguments Policy {Row} _ _ _ _ _.
Arguments pol_name {Row} _.
Arguments pol_for {Row} _.
Arguments pol_to {Row} _.
Arguments pol_using {Row} _.
Arguments pol_with_check {Row} _.

Section Evaluation.
Context {Row : Type}.
Variable policies : list (policy Row).

Definition applies (cmd : command) (s : session) (p : policy Row) : bool :=
  command_eqb (pol_for p) cmd && role_eqb (pol_to p) (role_of s).

(** Row level security is enabled on every table: an existing row is
    within reach of a command when some permissive policy for that
    command and role accepts it; with no such policy, no row is. *)
Definition permits_using (cmd : command) (s : session) (r : Row) : bool :=
  existsb (fun p =>
             applies cmd s p &&
             match pol_using p with Some e => e s r | None => true end)
          policies.

(** A new row (inserted, or the result of an update) must pass WITH
    CHECK, which defaults to the USING expression. *)
Definition permits_check (cmd : command) (s : session) (r : Row) : bool :=
  existsb (fun p =>
             applies cmd s p &&
             match pol_with_check p, pol_using p with
             | Some e, _ => e s r
             | None, Some e => e s r
             | None, None => true
             end)
          policies.
End Evaluation.

Definition profiles_own : session -> Profile.t -> bool :=
  fun auth_uid r => uid_is auth_uid (Profile.id r).

Definition user_progress_own : session -> UserProgress.t -> bool :=
  fun auth_uid r => uid_is auth_uid (UserProgress.user_id r).

Definition profiles_policies : list (policy Profile.t) :=
  [ Policy "Users can view own profile" SELECT authenticated
      (Some profiles_own) None;
    Policy "Users can update own profile" UPDATE authenticated
      (Some profiles_own) (Some profiles_own);
    Policy "Users can insert own profile" INSERT authenticated
      None (Some profiles_own) ].

Definition courses_policies : list (policy Course.t) :=
  [ Policy "Anyone can view courses" SELECT authenticated
      (Some (fun _ _ => true)) None ].

Definition lessons_policies : list (policy Lesson.t) :=
  [ Policy "Anyone can view lessons" SELECT authenticated
      (Some (fun _ _ => true)) None ].

Definition user_progress_policies : list (policy UserProgress.t) :=
  [ Policy "Users can view own progress" SELECT authenticated
      (Some user_progress_own) None;
    Policy "Users can insert own progress" INSERT authenticated
      None (Some user_progress_own);
    Policy "Users can update own progress" UPDATE authenticated
      (Some user_progress_own) (Some user_progress_own) ].

End RLS.

(* ===================================================================== *)
(** * The store *)
(* ===================================================================== *)

Module Store.

Import RLS.

Record t : Type := Build {
  auth_users : list AuthUser.t;
  profiles : list Profile.t;
  courses : list Course.t;
  lessons : list Lesson.t;
  user_progress : list UserProgress.t
}.

Definition with_auth_users (db : t) (rows : list AuthUser.t) : t :=
  Build rows (profiles db) (courses db) (lessons db) (user_progress db).
Definition with_profiles (db : t) (rows : list Profile.t) : t :=
  Build (auth_users db) rows (courses db) (lessons db) (user_progress db).
Definition with_user_progress (db : t) (rows : list UserProgress.t) : t :=
  Build (auth_users db) (profiles db) (courses db) (lessons db) rows.

(** What a statement can be refused for. *)
Inductive pg_error : Type :=
  | unique_violation
  | foreign_key_violation
  | not_null_violation
  | insufficient_privilege
  | multiple_rows.

(** The [{ data, error }] pair of a query. *)
Inductive response (A : Type) : Type :=
  | Data (data : A)
  | Error (error : pg_error).
Arguments Data {A} _.
Arguments Error {A} _.

(** The values the store supplies while it runs one statement: [now()]
    and [gen_random_uuid()]. *)
Record defaults : Type := Defaults {
  now : timestamptz;
  gen_random_uuid : uuid
}.

Definition has_id (ids : list uuid) (x : uuid) : bool :=
  existsb (String.eqb x) ids.

(** The primary keys of the tables that the client writes or reads by
    identifier. *)
Definition primary_keys (db : t) : Prop :=
  List.NoDup (map Course.id (courses db)) /\
  List.NoDup (map UserProgress.id (user_progress db)).

(** [profiles.id REFERENCES auth.users(id)]. *)
Definition profiles_fkey (db : t) : Prop :=
  forall p, In p (profiles db) ->
            In (Profile.id p) (map AuthUser.id (auth_users db)).

(** [from(table).select('*')] with its [eq] filters as [where_]. *)
Definition select {Row : Type} (policies : list (policy Row)) (s : session)
    (rows : list Row) (where_ : Row -> bool) : list Row :=
  List.filter (fun r => permits_using policies SELECT s r && where_ r) rows.

(** [.order(column)], ascending: a stable insertion sort. *)
Fixpoint insert_by {Row : Type} (key : Row -> Z) (x : Row) (l : list Row)
    : list Row :=
  match l with
  | [] => [x]
  | y :: l' =>
      if (key x <=? key y)%Z then x :: l else y :: insert_by key x l'
  end.

Definition order {Row : Type} (key : Row -> Z) (l : list Row) : list Row :=
  fold_right (insert_by key) [] l.

(** [.maybeSingle()]: no row is [null], one row is that row, more is an
    error. *)
Definition maybeSingle {Row : Type} (rows : list Row)
    : response (option Row) :=
  match rows with
  | [] => Data None
  | [r] => Data (Some r)
  | _ => Error multiple_rows
  end.

(** [DELETE FROM table WHERE where_]: the rows within reach of the session
    that match are removed. *)
Definition delete {Row : Type} (policies : list (policy Row)) (s : session)
    (rows : list Row) (where_ : Row -> bool) : list Row :=
  List.filter
    (fun r => negb (permits_using policies SELECT s r &&
                    permits_using policies DELETE s r && where_ r))
    rows.

(** The object given to [from('user_progress').insert(..)]. *)
Record user_progress_values : Type := Values {
  v_user_id : uuid;
  v_course_id : uuid;
  v_lesson_id : option uuid;
  v_completed : bool;
  v_completed_at : option timestamptz
}.

(** The object given to [from('user_progress').update(..)]. *)
Record user_progress_changes : Type := Changes {
  c_completed : bool;
  c_completed_at : option timestamptz;
  c_updated_at : timestamptz
}.

Definition new_user_progress (d : defaults) (v : user_progress_values)
    : UserProgress.t :=
  UserProgress.Build (gen_random_uuid d) (v_user_id v) (v_course_id v)
    (v_lesson_id v) (v_completed v) (v_completed_at v) (now d) (now d).

Definition apply_changes (c : user_progress_changes) (r : UserProgress.t)
    : UserProgress.t :=
  UserProgress.Build (UserProgress.id r) (UserProgress.user_id r)
    (UserProgress.course_id r) (UserProgress.lesson_id r)
    (c_completed c) (c_completed_at c)
    (UserProgress.created_at r) (c_updated_at c).

(** [INSERT INTO user_progress]: the row gets its defaults, must pass the
    insert policy, must have a fresh primary key and must refer to an
    existing account, course and (when given) lesson. *)
Definition insert_user_progress (db : t) (s : session) (d : defaults)
    (v : user_progress_values) : response t :=
  let row := new_user_progress d v in
  if negb (permits_check user_progress_policies INSERT s row) then
    Error insufficient_privilege
  else if has_id (map UserProgress.id (user_progress db))
                 (UserProgress.id row) then
    Error unique_violation
  else if negb (has_id (map AuthUser.id (auth_users db)) (v_user_id v) &&
                has_id (map Course.id (courses db)) (v_course_id v) &&
                match v_lesson_id v with
                | Some l => has_id (map Lesson.id (lessons db)) l
                | None => true
                end) then
    Error foreign_key_violation
  else
    Data (with_user_progress db (user_progress db ++ [row])).

(** [UPDATE user_progress SET .. WHERE where_]: the rows within reach of
    the session that match are changed; a changed row must pass WITH
    CHECK. The changes touch neither keys nor references. A changed row
    keeps its place in the list. The store itself promises no order for a
    query without ORDER BY, and usually returns a changed row after the
    others; the order reaches the page through [find] alone, and only when
    several fetched records have the same lesson reference. *)
Definition update_user_progress (db : t) (s : session)
    (c : user_progress_changes) (where_ : UserProgress.t -> bool)
    : response t :=
  let target r :=
    permits_using user_progress_policies SELECT s r &&
    permits_using user_progress_policies UPDATE s r && where_ r in
  if forallb (fun r => negb (target r) ||
                       permits_check user_progress_policies UPDATE s
                         (apply_changes c r))
             (user_progress db) then
    Data (with_user_progress db
            (map (fun r => if target r then apply_changes c r else r)
                 (user_progress db)))
  else
    Error insufficient_privilege.

(** [public.handle_new_user()], SECURITY DEFINER: the insert into
    [profiles] is not subject to the policies, only to the constraints of
    the table ([email] NOT NULL, primary key, reference to [auth.users]). *)
Definition handle_new_user (db : t) (d : defaults) (new : AuthUser.t)
    : response t :=
  match AuthUser.email new with
  | None => Error not_null_violation
  | Some email =>
      let row :=
        Profile.Build (AuthUser.id new) email
          (COALESCE
             (json_get_text (AuthUser.raw_user_meta_data new) "full_name")
             "")
          (now d) (now d) in
      if has_id (map Profile.id (profiles db)) (Profile.id row) then
        Error unique_violation
      else if negb (has_id (map AuthUser.id (auth_users db))
                           (Profile.id row)) then
        Error foreign_key_violation
      else
        Data (with_profiles db (profiles db ++ [row]))
  end.

(** [INSERT INTO auth.users] of one row, with the trigger
    [on_auth_user_created AFTER INSERT .. FOR EACH ROW]: an error of the
    trigger aborts the statement, and the store stays as it was. *)
Definition on_auth_user_created (db : t) (d : defaults) (new : AuthUser.t)
    : response t :=
  if has_id (map AuthUser.id (auth_users db)) (AuthUser.id new) then
    Error unique_violation
  else
    handle_new_user (with_auth_users db (auth_users db ++ [new])) d new.

End Store.

(* ===================================================================== *)
(** * lib/supabase.ts *)
(* ===================================================================== *)

Module Supabase.

(** [createClient] belongs to the client library, which is not part of the
    repository: a call with the two values returns a client, of whatever
    type, or throws. *)
Inductive call (Client : Type) : Type :=
  | Returns (client : Client)
  | Throws (error : string).

Arguments Returns {Client} client.
Arguments Throws {Client} error.

(** Evaluating the module ends in the [throw] of line 7, in an exception of
    the call of [createClient] at line 10, which nothing catches, or in the
    export of the client. *)
Inductive module_result (Client : Type) : Type :=
  | Throw (message : string)
  | createClient_throws (error : string)
  | Export (supabase : Client).

Arguments Throw {Client} message.
Arguments createClient_throws {Client} error.
Arguments Export {Client} supabase.

(** [!s] for a string: only the empty string is falsy. *)
Definition not_string (s : string) : bool := String.eqb s "".

(** [import.meta.env] is an object of strings; a variable that is not set
    reads as [undefined], and [!undefined] is true. *)
Definition load {Client : Type}
    (createClient : string -> string -> call Client)
    (env : gmap string string) : module_result Client :=
  let supabaseUrl := env !! "VITE_SUPABASE_URL"%string in
  let supabaseAnonKey := env !! "VITE_SUPABASE_ANON_KEY"%string in
  match supabaseUrl, supabaseAnonKey with
  | Some url, Some key =>
      if not_string url || not_string key then
        Throw "Missing Supabase environment variables"
      else
        match createClient url key with
        | Returns client => Export client
        | Throws error => createClient_throws error
        end
  | _, _ => Throw "Missing Supabase environment variables"
  end.

End Supabase.


(* ===================================================================== *)
(** * pages/CourseDetail.tsx *)
(* ===================================================================== *)

Module CourseDetail.

Import JSNumber.

(** The signed-in account of [useAuth()] (which is also the session of the
    requests), the [courseId] property and the state variables of the
    component. *)
Record State : Type := Build {
  user : option uuid;
  courseId : uuid;
  course : option Course.t;
  lessons : list Lesson.t;
  progress : list UserProgress.t;
  loading : bool;
  error : string
}.

(** The store together with the component that displays it. *)
Definition world : Type := (Store.t * State)%type.

(** What one user action reads from outside: the two [new Date()] of the
    client (for [completed_at] and for [updated_at]) and the defaults of
    the store. *)
Record env : Type := Env {
  completed_at_date : timestamptz;
  updated_at_date : timestamptz;
  store_defaults : Store.defaults
}.

(** [.eq('user_id', u).eq('course_id', c)]. *)
Definition eq_user_course (u c : uuid) (p : UserProgress.t) : bool :=
  String.eqb (UserProgress.user_id p) u &&
  String.eqb (UserProgress.course_id p) c.

(** The caller's Progress Records of one course, as the store returns
    them. *)
Definition fetch_progress (db : Store.t) (u : uuid) (c : uuid)
    : list UserProgress.t :=
  Store.select RLS.user_progress_policies (Some u) (Store.user_progress db)
    (eq_user_course u c).

Definition loadCourseData (db : Store.t) (st : State) : State :=
  let courseResult :=
    Store.maybeSingle
      (Store.select RLS.courses_policies (user st) (Store.courses db)
         (fun c => String.eqb (Course.id c) (courseId st))) in
  let lessonsResult :=
    Store.order Lesson.order_number
      (Store.select RLS.lessons_policies (user st) (Store.lessons db)
         (fun l => String.eqb (Lesson.course_id l) (courseId st))) in
  let progressResult :=
    match user st with
    | Some u => fetch_progress db u (courseId st)
    | None => []
    end in
  match courseResult with
  | Store.Error _ =>
      Build (user st) (courseId st) (course st) (lessons st) (progress st)
        false "Failed to load course details"
  | Store.Data c =>
      Build (user st) (courseId st) c lessonsResult progressResult
        false (error st)
  end.

(** [p.lesson_id === lessonId], with [None] for [null]. *)
Definition for_lesson (lessonId : option uuid) (p : UserProgress.t) : bool :=
  strict_eq (UserProgress.lesson_id p) lessonId.

Definition isLessonCompleted (st : State) (lessonId : uuid) : bool :=
  existsb (fun p => for_lesson (Some lessonId) p && UserProgress.completed p)
          (progress st).

Definition isCourseCompleted (st : State) : bool :=
  existsb (fun p => for_lesson None p && UserProgress.completed p)
          (progress st).

Definition calculateProgress (st : State) : number :=
  if Nat.eqb (length (lessons st)) 0 then of_Z 0
  else
    let completedLessons :=
      length (List.filter
                (fun lesson => isLessonCompleted st (Lesson.id lesson))
                (lessons st)) in
    Math_round
      (mul (div (of_nat completedLessons) (of_nat (length (lessons st))))
           (of_Z 100)).

(** A failed write is logged and the state stays as it was; after a
    successful one the data is loaded again. *)
Definition after_write (st : State) (db : Store.t)
    (r : Store.response Store.t) : world :=
  match r with
  | Store.Data db' => (db', loadCourseData db' st)
  | Store.Error _ => (db, st)
  end.

(** [.eq('id', existing.id)]. *)
Definition eq_id (existing : UserProgress.t) (r : UserProgress.t) : bool :=
  String.eqb (UserProgress.id r) (UserProgress.id existing).

Definition toggleLessonCompletion (e : env) (lessonId : uuid) (w : world)
    : world :=
  let '(db, st) := w in
  match user st with
  | None => w
  | Some u =>
      let isCompleted := isLessonCompleted st lessonId in
      let existingProgress :=
        List.find (for_lesson (Some lessonId)) (progress st) in
      match existingProgress with
      | Some existing =>
          after_write st db
            (Store.update_user_progress db (user st)
               (Store.Changes
                  (negb isCompleted)
                  (if negb isCompleted then Some (completed_at_date e)
                   else None)
                  (updated_at_date e))
               (eq_id existing))
      | None =>
          after_write st db
            (Store.insert_user_progress db (user st) (store_defaults e)
               (Store.Values u (courseId st) (Some lessonId) true
                  (Some (completed_at_date e))))
      end
  end.

Definition markCourseCompleted (e : env) (w : world) : world :=
  let '(db, st) := w in
  match user st with
  | None => w
  | Some u =>
      let courseProgress :=
        List.find (for_lesson None) (progress st) in
      match courseProgress with
      | Some existing =>
          after_write st db
            (Store.update_user_progress db (user st)
               (Store.Changes true (Some (completed_at_date e))
                  (updated_at_date e))
               (eq_id existing))
      | None =>
          after_write st db
            (Store.insert_user_progress db (user st) (store_defaults e)
               (Store.Values u (courseId st) None true
                  (Some (completed_at_date e))))
      end
  end.

(** The actions of the page on the progress of the course. *)
Inductive action : Type :=
  | ToggleLesson (lessonId : uuid)
  | MarkCourse.

Definition act (ea : env * action) (w : world) : world :=
  match snd ea with
  | ToggleLesson lessonId => toggleLessonCompletion (fst ea) lessonId w
  | MarkCourse => markCourseCompleted (fst ea) w
  end.

Definition run (eas : list (env * action)) (w : world) : world :=
  fold_left (fun w ea => act ea w) eas w.

(** The component shows what the store holds for its account and course. *)
Definition in_sync (w : world) : Prop :=
  match user (snd w) with
  | Some u => progress (snd w) = fetch_progress (fst w) u (courseId (snd w))
  | None => progress (snd w) = []
  end.

(** What the actions maintain: the component is in sync with a store whose
    primary keys hold. *)
Definition consistent (w : world) : Prop :=
  in_sync w /\ Store.primary_keys (fst w).

End CourseDetail.

(* ===================================================================== *)
(** * The completion percentage in the words of the specification *)
(* ===================================================================== *)

(** round(100 * completed / total) over the rationals, a tie going up as
    with [Math.round], and 0 for a course without lessons: the floor of
    [100 * completed / total + 1/2]. *)
Definition spec_completion_percentage (completed total : nat) : Z :=
  if Nat.eqb total 0 then 0%Z
  else ((200 * Z.of_nat completed + Z.of_nat total) / (2 * Z.of_nat total))%Z.

(* ===================================================================== *)
(** * Vocabulary for the bounds on numbers *)
(* ===================================================================== *)

(** [b] is [a] shifted right by [k] bits: the mantissa is divided, and the
    round and sticky bits stay clear when nothing was lost. *)
Definition shifted (k : Z) (a b : shr_record) : Prop :=
  shr_m b = (shr_m a / 2 ^ k)%Z /\
  ((shr_m a mod 2 ^ k)%Z = 0%Z -> shr_r a = false -> shr_s a = false ->
   shr_r b = false /\ shr_s b = false).

(** [x] is zero, or a positive number [m * 2^e] that is at most the
    integer [N]. *)
Definition at_most (N : Z) (x : JSNumber.number) : Prop :=
  x = S754_zero false \/
  exists m e, x = S754_finite false m e /\ (e <= 0)%Z /\
              (Z.pos m <= N * 2 ^ (- e))%Z.

(* ===================================================================== *)
(** * Sample data *)
(* ===================================================================== *)

Module Sample.

Import CourseDetail.
Local Open Scope Z_scope.

Definition alice : uuid := "alice".
Definition bob : uuid := "bob".

Definition rocq_course : Course.t :=
  Course.Build "C" "Proofs" "An introduction" "" "Development" "beginner"
    90 0 0.

(** Lessons are named by one letter: [A], [B], ... *)
Definition lesson_name (i : nat) : uuid :=
  String (ascii_of_nat (65 + i)%nat) EmptyString.

Definition lesson (i : nat) : Lesson.t :=
  Lesson.Build (lesson_name i) "C" "Lesson" "" (Z.of_nat i) 10 0.

Definition completed_record (i : nat) : UserProgress.t :=
  UserProgress.Build (String "p" (lesson_name i)) alice "C"
    (Some (lesson_name i)) true (Some 1000) 1000 1000.

Definition accounts : list AuthUser.t :=
  [ AuthUser.Build alice (Some "alice@example.org")
      (Some (JObject {[ "full_name"%string := JString "Alice" ]}));
    AuthUser.Build bob (Some "bob@example.org") None ].

Definition account_profiles : list Profile.t :=
  [ Profile.Build alice "alice@example.org" "Alice" 0 0;
    Profile.Build bob "bob@example.org" "" 0 0 ].

(** A course of [n] lessons of which alice completed the first [k]; bob
    completed the course. *)
Definition store (n k : nat) : Store.t :=
  Store.Build accounts account_profiles [rocq_course]
    (map lesson (seq 0%nat n))
    (UserProgress.Build "q" bob "C" None true (Some 500) 500 500
       :: map completed_record (seq 0%nat k)).

(** The page of alice on that course, once loaded. *)
Definition page (n k : nat) : State :=
  loadCourseData (store n k)
    (Build (Some alice) "C" None [] [] true "").

(** The same page when the store returned the record of lesson [A] three
    times. *)
Definition page_with_duplicates : State :=
  Build (Some alice) "C" (Some rocq_course) [lesson 0; lesson 1]
    [completed_record 0; completed_record 0; completed_record 0] false "".

Definition at_time (t : Z) (fresh : uuid) : env :=
  Env t (t + 1) (Store.Defaults (t + 2) fresh).

(** A new account that signs up with a display name, and one without
    metadata. *)
Definition carol : AuthUser.t :=
  AuthUser.Build "carol" (Some "carol@example.org")
    (Some (JObject {[ "full_name"%string := JString "Carol" ]})).

Definition dave : AuthUser.t :=
  AuthUser.Build "dave" (Some "dave@example.org") None.

(** An environment with both settings, and one whose location is set but
    empty. *)
Definition configured : gmap string string :=
  {[ "VITE_SUPABASE_URL"%string := "https://store.example.org"%string;
     "VITE_SUPABASE_ANON_KEY"%string := "anon-key"%string ]}.

Definition empty_location : gmap string string :=
  {[ "VITE_SUPABASE_URL"%string := ""%string;
     "VITE_SUPABASE_ANON_KEY"%string := "anon-key"%string ]}.

(** An environment whose location is set, but is no URL. *)
Definition malformed_location : gmap string string :=
  {[ "VITE_SUPABASE_URL"%string := "store.example.org"%string;
     "VITE_SUPABASE_ANON_KEY"%string := "anon-key"%string ]}.

(** Two stand-ins for the client library: one accepts any two values, the
    other one refuses a location that does not start with [http]. *)
Record client : Type := Client {
  client_url : string;
  client_key : string
}.

Definition accepting (url key : string) : Supabase.call client :=
  Supabase.Returns (Client url key).

Definition validating (url key : string) : Supabase.call client :=
  if String.prefix "http" url then Supabase.Returns (Client url key)
  else Supabase.Throws "Invalid supabaseUrl".

(** A new account that signs up with metadata that has no display name. *)
Definition frank : AuthUser.t :=
  AuthUser.Build "frank" (Some "frank@example.org")
    (Some (JObject {[ "locale"%string := JString "en" ]})).

End Sample.

(* ===================================================================== *)
(** * The constraints of the schema and the statements that run on it *)
(* ===================================================================== *)

Module Schema.

(** Every PRIMARY KEY of the migration, and that of [auth.users]. *)
Definition all_primary_keys (db : Store.t) : Prop :=
  List.NoDup (map AuthUser.id (Store.auth_users db)) /\
  List.NoDup (map Profile.id (Store.profiles db)) /\
  List.NoDup (map Course.id (Store.courses db)) /\
  List.NoDup (map Lesson.id (Store.lessons db)) /\
  List.NoDup (map UserProgress.id (Store.user_progress db)).

(** Every REFERENCES of the migration. *)
Definition foreign_keys (db : Store.t) : Prop :=
  (forall p, In p (Store.profiles db) ->
             In (Profile.id p) (map AuthUser.id (Store.auth_users db))) /\
  (forall l, In l (Store.lessons db) ->
             In (Lesson.course_id l) (map Course.id (Store.courses db))) /\
  (forall r, In r (Store.user_progress db) ->
             In (UserProgress.user_id r)
                (map AuthUser.id (Store.auth_users db)) /\
             In (UserProgress.course_id r)
                (map Course.id (Store.courses db)) /\
             match UserProgress.lesson_id r with
             | Some l => In l (map Lesson.id (Store.lessons db))
             | None => True
             end).

Definition integrity (db : Store.t) : Prop :=
  all_primary_keys db /\ foreign_keys db.

(** [DELETE FROM lessons WHERE id = ..] by the owner of the tables:
    [user_progress.lesson_id REFERENCES lessons(id) ON DELETE CASCADE]. *)
Definition delete_lesson (db : Store.t) (id : uuid) : Store.t :=
  Store.Build (Store.auth_users db) (Store.profiles db) (Store.courses db)
    (List.filter (fun l => negb (String.eqb (Lesson.id l) id))
                 (Store.lessons db))
    (List.filter
       (fun r => negb (strict_eq (UserProgress.lesson_id r) (Some id)))
       (Store.user_progress db)).

(** [DELETE FROM courses WHERE id = ..]: the delete cascades to the lessons
    of the course, to the Progress Records of the course and, through the
    deleted lessons, to the Progress Records that refer to them. *)
Definition delete_course (db : Store.t) (id : uuid) : Store.t :=
  let of_course l := String.eqb (Lesson.course_id l) id in
  let deleted_lessons :=
    map Lesson.id (List.filter of_course (Store.lessons db)) in
  Store.Build (Store.auth_users db) (Store.profiles db)
    (List.filter (fun c => negb (String.eqb (Course.id c) id))
                 (Store.courses db))
    (List.filter (fun l => negb (of_course l)) (Store.lessons db))
    (List.filter
       (fun r =>
          negb (String.eqb (UserProgress.course_id r) id) &&
          negb match UserProgress.lesson_id r with
               | Some l => Store.has_id deleted_lessons l
               | None => false
               end)
       (Store.user_progress db)).

(** [DELETE FROM auth.users WHERE id = ..]: the delete cascades to the
    profile and to the Progress Records of the account. *)
Definition delete_auth_user (db : Store.t) (id : uuid) : Store.t :=
  Store.Build
    (List.filter (fun a => negb (String.eqb (AuthUser.id a) id))
                 (Store.auth_users db))
    (List.filter (fun p => negb (String.eqb (Profile.id p) id))
                 (Store.profiles db))
    (Store.courses db) (Store.lessons db)
    (List.filter (fun r => negb (String.eqb (UserProgress.user_id r) id))
                 (Store.user_progress db)).

(** The statements that reach the store: those of a session, which the
    policies restrict, the registration of an identity with its trigger,
    and the deletes of the owner of the tables. *)
Inductive statement : Type :=
  | InsertProgress (s : RLS.session) (d : Store.defaults)
      (v : Store.user_progress_values)
  | UpdateProgress (s : RLS.session) (c : Store.user_progress_changes)
      (where_ : UserProgress.t -> bool)
  | DeleteProgress (s : RLS.session) (where_ : UserProgress.t -> bool)
  | SignUp (d : Store.defaults) (new : AuthUser.t)
  | DeleteLesson (id : uuid)
  | DeleteCourse (id : uuid)
  | DeleteAuthUser (id : uuid).

Definition execute (q : statement) (db : Store.t) : Store.response Store.t :=
  match q with
  | InsertProgress s d v => Store.insert_user_progress db s d v
  | UpdateProgress s c where_ => Store.update_user_progress db s c where_
  | DeleteProgress s where_ =>
      Store.Data
        (Store.with_user_progress db
           (Store.delete RLS.user_progress_policies s
              (Store.user_progress db) where_))
  | SignUp d new => Store.on_auth_user_created db d new
  | DeleteLesson id => Store.Data (delete_lesson db id)
  | DeleteCourse id => Store.Data (delete_course db id)
  | DeleteAuthUser id => Store.Data (delete_auth_user db id)
  end.

(** A refused statement leaves the store as it was. *)
Definition execute_all (qs : list statement) (db : Store.t) : Store.t :=
  fold_left
    (fun db q =>
       match execute q db with
       | Store.Data db' => db'
       | Store.Error _ => db
       end)
    qs db.

End Schema.

(* ===================================================================== *)
(** * pages/Home.tsx *)
(* ===================================================================== *)

Module Home.

Record State : Type := Build {
  courses : list Course.t;
  loading : bool;
  error : string
}.

(** [.order(column, { ascending: false })]. *)
Definition order_descending {Row : Type} (key : Row -> Z) (l : list Row)
    : list Row :=
  Store.order (fun r => (- key r)%Z) l.

Definition loadCourses (db : Store.t) (s : RLS.session) (st : State)
    : State :=
  let data :=
    order_descending Course.created_at
      (Store.select RLS.courses_policies s (Store.courses db)
         (fun _ => true)) in
  Build data false (error st).

(** What the page shows below its heading. *)
Inductive view : Type :=
  | Spinner
  | ErrorBox (message : string)
  | NoCourses
  | Grid (cards : list Course.t).

Definition render (st : State) : view :=
  if loading st then Spinner
  else if negb (String.eqb (error st) "") then ErrorBox (error st)
  else if Nat.eqb (length (courses st)) 0 then NoCourses
  else Grid (courses st).

End Home.

(* ===================================================================== *)
(** * App.tsx *)
(* ===================================================================== *)

Module App.

(** [useAuth()] and the two [useState] of [AppContent]. *)
Record State : Type := Build {
  user : option uuid;
  loading : bool;
  showLogin : bool;
  selectedCourseId : option string
}.

Inductive screen : Type :=
  | LoadingScreen
  | LoginScreen
  | SignupScreen
  | CourseDetailScreen (user : uuid) (courseId : string)
  | HomeScreen (user : uuid).

(** [if (selectedCourseId)]: [null] and the empty string are falsy. *)
Definition AppContent (st : State) : screen :=
  if loading st then LoadingScreen
  else
    match user st with
    | None => if showLogin st then LoginScreen else SignupScreen
    | Some u =>
        match selectedCourseId st with
        | Some courseId =>
            if String.eqb courseId "" then HomeScreen u
            else CourseDetailScreen u courseId
        | None => HomeScreen u
        end
    end.

Definition setSelectedCourseId (id : option string) (st : State) : State :=
  Build (user st) (loading st) (showLogin st) id.

(** [onClick={() => onSelectCourse(course.id)}] of a card of [Home], with
    [onSelectCourse={setSelectedCourseId}]. *)
Definition onClick (course : Course.t) (st : State) : State :=
  setSelectedCourseId (Some (Course.id course)) st.

(** [onBack={() => setSelectedCourseId(null)}]. *)
Definition onBack (st : State) : State := setSelectedCourseId None st.

(** The state in which the component [CourseDetail] is mounted: the initial
    values of its [useState]. *)
Definition mount (u : uuid) (courseId : string) : CourseDetail.State :=
  CourseDetail.Build (Some u) courseId None [] [] true "".

End App.

(* ===================================================================== *)
(** * pages/CourseDetail.tsx: what the component returns *)
(* ===================================================================== *)

Module CourseDetailView.

Import CourseDetail.

Inductive view : Type :=
  | Spinner
  | ErrorBox (message : string)
  | Page (course : Course.t) (courseCompleted : bool)
      (progressPercentage : JSNumber.number)
      (rows : list (Lesson.t * bool)).

(** [if (loading) ..; if (error || !course) .. {error || 'Course not
    found'} ..]. *)
Definition returns (st : State) : view :=
  if loading st then Spinner
  else if negb (String.eqb (error st) "") then ErrorBox (error st)
  else
    match course st with
    | None => ErrorBox "Course not found"
    | Some c =>
        Page c (isCourseCompleted st) (calculateProgress st)
          (map (fun lesson =>
                  (lesson, isLessonCompleted st (Lesson.id lesson)))
               (lessons st))
    end.

End CourseDetailView.

(* ===================================================================== *)
(** * components/CourseCard.tsx *)
(* ===================================================================== *)

Module CourseCard.

(** What reading a property of an object literal of strings gives: an own
    property, a member inherited from [Object.prototype], or
    [undefined]. *)
Inductive property : Type :=
  | undefined
  | own (value : string)
  | inherited (name : string).

(** The names that every object inherits from [Object.prototype]. *)
Definition Object_prototype : list string :=
  [ "constructor"; "hasOwnProperty"; "isPrototypeOf";
    "propertyIsEnumerable"; "toLocaleString"; "toString"; "valueOf";
    "__proto__"; "__defineGetter__"; "__defineSetter__";
    "__lookupGetter__"; "__lookupSetter__" ]%string.

(** [o[key]]. *)
Definition get (o : gmap string string) (key : string) : property :=
  match o !! key with
  | Some value => own value
  | None =>
      if existsb (String.eqb key) Object_prototype then inherited key
      else undefined
  end.

(** [a || b]: [undefined] and the empty string are falsy, functions and
    objects are truthy. *)
Definition truthy (a : property) : bool :=
  match a with
  | undefined => false
  | own value => negb (String.eqb value "")
  | inherited _ => true
  end.

Definition or_else (a b : property) : property :=
  if truthy a then a else b.

Definition difficultyColors : gmap string string :=
  {[ "beginner"%string := "bg-green-100 text-green-700"%string;
     "intermediate"%string := "bg-yellow-100 text-yellow-700"%string;
     "advanced"%string := "bg-red-100 text-red-700"%string ]}.

Definition difficultyColor (course : Course.t) : property :=
  or_else (get difficultyColors (Course.difficulty course))
          (get difficultyColors "beginner").

End CourseCard.

(* ===================================================================== *)
(** * The order of the rows *)
(* ===================================================================== *)

Module RowOrder.

Import CourseDetail.

(** The store promises no order for the rows of a query without ORDER BY:
    two stores with the same Progress Records hold them in any two orders,
    and so do two pages. *)
Definition same_rows (db db' : Store.t) : Prop :=
  Store.auth_users db' = Store.auth_users db /\
  Store.profiles db' = Store.profiles db /\
  Store.courses db' = Store.courses db /\
  Store.lessons db' = Store.lessons db /\
  Permutation (Store.user_progress db) (Store.user_progress db').

Definition same_page (st st' : State) : Prop :=
  user st' = user st /\ courseId st' = courseId st /\
  course st' = course st /\ lessons st' = lessons st /\
  loading st' = loading st /\ error st' = error st /\
  Permutation (progress st) (progress st').

Definition same_world (w w' : world) : Prop :=
  same_rows (fst w) (fst w') /\ same_page (snd w) (snd w').

(** A run of the actions in which the store is free to return its rows in
    another order before the first action and after every action. *)
Inductive runs_to : list (env * action) -> world -> world -> Prop :=
  | runs_nil (w w' : world) :
      same_world w w' -> runs_to [] w w'
  | runs_cons (ea : env * action) (eas : list (env * action))
      (w w0 w1 w' : world) :
      same_world w w0 -> same_world (act ea w0) w1 -> runs_to eas w1 w' ->
      runs_to (ea :: eas) w w'.

End RowOrder.

(* ===================================================================== *)
(** * More sample data *)
(* ===================================================================== *)

Module Sample2.

Import CourseDetail.
Local Open Scope Z_scope.

(** A store in which lesson [A] has two records of alice: the first not
    completed, the second completed. *)
Definition doubled_store : Store.t :=
  Store.Build Sample.accounts Sample.account_profiles [Sample.rocq_course]
    [Sample.lesson 0; Sample.lesson 1]
    [ UserProgress.Build "p1" Sample.alice "C" (Some "A"%string)
        false None 100 100;
      UserProgress.Build "p2" Sample.alice "C" (Some "A"%string)
        true (Some 200) 200 200 ].

Definition doubled_page : State :=
  loadCourseData doubled_store
    (Build (Some Sample.alice) "C" None [] [] true "").

(** A catalogue of three courses, created at different times. *)
Definition course_at (id : uuid) (level : string) (t : Z) : Course.t :=
  Course.Build id "Title" "Description" "" "General" level 60 t t.

Definition catalogue : Store.t :=
  Store.Build Sample.accounts Sample.account_profiles
    [ course_at "c1" "beginner" 10; course_at "c3" "Advanced" 30;
      course_at "c2" "advanced" 20 ]
    [ Lesson.Build "l2" "c1" "Second" "" 2 5 0;
      Lesson.Build "l1" "c1" "First" "" 1 5 0;
      Lesson.Build "l3" "c2" "Other" "" 1 5 0 ]
    [ UserProgress.Build "r1" Sample.alice "c1" (Some "l1"%string)
        true (Some 50) 50 50;
      UserProgress.Build "r2" Sample.bob "c2" (Some "l3"%string)
        true (Some 60) 60 60;
      UserProgress.Build "r3" Sample.bob "c1" None true (Some 70) 70 70 ].

(** An identity without an email address. *)
Definition erin : AuthUser.t := AuthUser.Build "erin" None None.

(** A world whose Progress Records are held, and shown, in the opposite
    order. *)
Definition reversed (w : world) : world :=
  (Store.with_user_progress (fst w) (rev (Store.user_progress (fst w))),
   Build (user (snd w)) (courseId (snd w)) (course (snd w))
     (lessons (snd w)) (rev (progress (snd w))) (loading (snd w))
     (error (snd w))).

End Sample2.

(** The identifiers of a concrete list are distinct. *)
Ltac distinct_ids :=
  repeat (constructor; [cbn; intuition discriminate | ]); constructor.

(* ===================================================================== *)
(** * Bounds on the numbers of the page *)
(* ===================================================================== *)

Section Numbers.
Import JSNumber.
Local Open Scope Z_scope.

Lemma digits2_pos_bounds (p : positive) :
  2 ^ (Z.pos (digits2_pos p) - 1) <= Z.pos p < 2 ^ Z.pos (digits2_pos p).
Proof.
  induction p as [p IH | p IH | ]; cbn [digits2_pos].
  - rewrite Pos2Z.inj_succ, (Pos2Z.inj_xI p).
    replace (Z.succ (Z.pos (digits2_pos p)) - 1)
      with (Z.succ (Z.pos (digits2_pos p) - 1)) by lia.
    rewrite !Z.pow_succ_r by lia.
    generalize dependent (2 ^ (Z.pos (digits2_pos p) - 1)).
    generalize (2 ^ Z.pos (digits2_pos p)). lia.
  - rewrite Pos2Z.inj_succ, (Pos2Z.inj_xO p).
    replace (Z.succ (Z.pos (digits2_pos p)) - 1)
      with (Z.succ (Z.pos (digits2_pos p) - 1)) by lia.
    rewrite !Z.pow_succ_r by lia.
    generalize dependent (2 ^ (Z.pos (digits2_pos p) - 1)).
    generalize (2 ^ Z.pos (digits2_pos p)). lia.
  - cbn. lia.
Qed.

Lemma Zdigits2_le (m j : Z) :
  0 <= m -> 0 <= j -> m < 2 ^ j -> Zdigits2 m <= j.
Proof.
  intros Hm Hj Hlt. destruct m as [ | p | p ]; cbn [Zdigits2]; try lia.
  destruct (digits2_pos_bounds p) as [Hlo _].
  assert (2 ^ (Z.pos (digits2_pos p) - 1) < 2 ^ j) as H by lia.
  apply Z.pow_lt_mono_r_iff in H; lia.
Qed.

Lemma mod_mul_zero (m a b : Z) :
  0 < a -> 0 < b -> m mod (a * b) = 0 -> m mod a = 0 /\ (m / a) mod b = 0.
Proof.
  intros Ha Hb H. rewrite Z.rem_mul_r in H by lia.
  pose proof (Z.mod_pos_bound m a Ha).
  pose proof (Z.mod_pos_bound (m / a) b Hb). nia.
Qed.

Lemma shifted_compose (j k : Z) (a b c : shr_record) :
  0 < j -> 0 < k -> shifted j a b -> shifted k b c -> shifted (j + k) a c.
Proof.
  intros Hj Hk [Hab Eab] [Hbc Ebc].
  assert (0 < 2 ^ j) by (apply Z.pow_pos_nonneg; lia).
  assert (0 < 2 ^ k) by (apply Z.pow_pos_nonneg; lia).
  split.
  - rewrite Hbc, Hab, Z.pow_add_r, Z.div_div by lia. reflexivity.
  - intros Hmod Hr Hs. rewrite Z.pow_add_r in Hmod by lia.
    apply mod_mul_zero in Hmod as [H1 H2]; try lia.
    destruct (Eab H1 Hr Hs) as [Hr' Hs'].
    apply Ebc; try assumption. rewrite Hab. exact H2.
Qed.

Lemma shr_1_shifted (a : shr_record) : 0 <= shr_m a -> shifted 1 a (shr_1 a).
Proof.
  destruct a as [m r s]. cbn [shr_m shr_r shr_s]. intros Hm.
  destruct m as [ | [p | p | ] | p ]; try lia; unfold shifted, shr_1;
    cbn [shr_m shr_r shr_s]; change (2 ^ 1) with 2.
  - split; [reflexivity | intros _ -> ->; auto].
  - split.
    + rewrite (Pos2Z.inj_xI p). apply Z.div_unique with 1; lia.
    + intros H. rewrite (Pos2Z.inj_xI p) in H.
      replace (2 * Z.pos p + 1) with (1 + Z.pos p * 2) in H by lia.
      rewrite Z.mod_add in H by lia. discriminate H.
  - split.
    + rewrite (Pos2Z.inj_xO p). apply Z.div_unique with 0; lia.
    + intros _ -> ->; auto.
  - split; [reflexivity | intros H; discriminate H].
Qed.

Lemma shifted_nonneg (k : Z) (a b : shr_record) :
  0 < k -> 0 <= shr_m a -> shifted k a b -> 0 <= shr_m b.
Proof.
  intros Hk Hm [H _]. rewrite H. apply Z.div_pos; [lia | ].
  apply Z.pow_pos_nonneg; lia.
Qed.

Lemma iter_pos_shr_1 (p : positive) :
  forall a, 0 <= shr_m a ->
            shifted (Z.pos p) a (SpecFloat.iter_pos shr_1 p a).
Proof.
  induction p as [p IH | p IH | ]; intros a Hm; cbn [SpecFloat.iter_pos].
  - pose proof (shr_1_shifted a Hm) as H1.
    pose proof (shifted_nonneg 1 _ _ ltac:(lia) Hm H1) as Hm1.
    pose proof (IH _ Hm1) as H2.
    pose proof (shifted_nonneg (Z.pos p) _ _ ltac:(lia) Hm1 H2) as Hm2.
    pose proof (IH _ Hm2) as H3.
    replace (Z.pos p~1) with (1 + (Z.pos p + Z.pos p))
      by (rewrite (Pos2Z.inj_xI p); lia).
    eapply shifted_compose; [lia | lia | exact H1 | ].
    eapply shifted_compose; [lia | lia | exact H2 | exact H3].
  - pose proof (IH _ Hm) as H2.
    pose proof (shifted_nonneg (Z.pos p) _ _ ltac:(lia) Hm H2) as Hm2.
    pose proof (IH _ Hm2) as H3.
    replace (Z.pos p~0) with (Z.pos p + Z.pos p)
      by (rewrite (Pos2Z.inj_xO p); lia).
    eapply shifted_compose; [lia | lia | exact H2 | exact H3].
  - apply shr_1_shifted; assumption.
Qed.

Lemma loc_of_shr_record_of_loc (m : Z) (l : location) :
  loc_of_shr_record (shr_record_of_loc m l) = l /\
  shr_m (shr_record_of_loc m l) = m.
Proof. destruct l as [ | [ | | ] ]; split; reflexivity. Qed.

Lemma pow2_split (a b : Z) : 0 <= a -> 0 <= b -> 2 ^ (a + b) = 2 ^ a * 2 ^ b.
Proof. intros. apply Z.pow_add_r; assumption. Qed.

Lemma shr_fexp_le (N m e : Z) (l : location) :
  0 < N < 2 ^ 53 -> 0 <= m -> e <= 0 ->
  m <= N * 2 ^ (- e) -> (l <> loc_Exact -> m < N * 2 ^ (- e)) ->
  forall mrs e', shr_fexp prec emax m e l = (mrs, e') ->
  e' <= 0 /\ 0 <= shr_m mrs /\ shr_m mrs <= N * 2 ^ (- e') /\
  (loc_of_shr_record mrs <> loc_Exact -> shr_m mrs < N * 2 ^ (- e')).
Proof.
  intros HN Hm He Hle Hlt mrs e' Heq.
  unfold shr_fexp, shr in Heq.
  destruct (loc_of_shr_record_of_loc m l) as [Hloc Hrec].
  remember (fexp prec emax (Zdigits2 m + e) - e) as k eqn:Hk.
  assert (Zdigits2 m + e <= 53) as Hd.
  { assert (0 < 2 ^ (- e)) by (apply Z.pow_pos_nonneg; lia).
    assert (m < 2 ^ (53 - e)) as Hm'.
    { replace (53 - e) with (53 + - e) by lia.
      rewrite pow2_split by lia. nia. }
    pose proof (Zdigits2_le m (53 - e) Hm ltac:(lia) Hm'). lia. }
  destruct k as [ | p | p ].
  - inversion Heq; subst mrs e'. rewrite Hloc, Hrec. auto.
  - inversion Heq; subst mrs e'. clear Heq.
    assert (e + Z.pos p <= 0) as He'.
    { unfold fexp, emin, prec, emax in Hk. lia. }
    pose proof (iter_pos_shr_1 p (shr_record_of_loc m l)) as Hsh.
    rewrite Hrec in Hsh. specialize (Hsh Hm). destruct Hsh as [Hdiv Hex].
    rewrite Hrec in Hdiv, Hex.
    set (b := SpecFloat.iter_pos shr_1 p (shr_record_of_loc m l)) in *.
    assert (0 < 2 ^ Z.pos p) as Hp by (apply Z.pow_pos_nonneg; lia).
    assert (2 ^ (- e) = 2 ^ (- (e + Z.pos p)) * 2 ^ Z.pos p) as Hsplit.
    { rewrite <- pow2_split by lia. f_equal. lia. }
    set (B := N * 2 ^ (- (e + Z.pos p))) in *.
    assert (N * 2 ^ (- e) = 2 ^ Z.pos p * B) as HB by (unfold B; lia).
    assert (shr_m b <= B) as Hub.
    { rewrite Hdiv. apply Z.div_le_upper_bound; lia. }
    split; [exact He' | ]. split.
    { rewrite Hdiv. apply Z.div_pos; lia. }
    split; [exact Hub | ].
    intros Hne. destruct (Z.eq_dec (shr_m b) B) as [Heqb | ]; [ | lia ].
    exfalso. apply Hne.
    assert (2 ^ Z.pos p * (m / 2 ^ Z.pos p) <= m)
      by (apply Z.mul_div_le; lia).
    assert (m = B * 2 ^ Z.pos p) as Hmeq by lia.
    assert (l = loc_Exact) as ->.
    { destruct l as [ | c ]; [reflexivity | ].
      assert (m < N * 2 ^ (- e)) by (apply Hlt; discriminate). lia. }
    destruct Hex as [Hr Hs]; try reflexivity.
    { rewrite Hmeq. apply Z.mod_mul. lia. }
    destruct b as [bm br bs]. cbn in Hr, Hs. subst br bs. reflexivity.
  - inversion Heq; subst mrs e'. rewrite Hloc, Hrec. auto.
Qed.

Lemma round_nearest_even_bounds (m : Z) (l : location) :
  m <= round_nearest_even m l <= m + 1 /\
  (l = loc_Exact -> round_nearest_even m l = m).
Proof.
  destruct l as [ | [ | | ] ]; cbn [round_nearest_even];
    try destruct (Z.even m); split; try lia; try reflexivity;
    intros H; discriminate H.
Qed.

Lemma binary_round_aux_at_most (N mx ex : Z) (lx : location) :
  0 < N < 2 ^ 53 -> 0 <= mx -> ex <= 0 ->
  mx <= N * 2 ^ (- ex) -> (lx <> loc_Exact -> mx < N * 2 ^ (- ex)) ->
  at_most N (binary_round_aux prec emax false mx ex lx).
Proof.
  intros HN Hm He Hle Hlt. unfold binary_round_aux.
  destruct (shr_fexp prec emax mx ex lx) as [mrs1 e1] eqn:H1.
  destruct (shr_fexp_le N mx ex lx HN Hm He Hle Hlt _ _ H1)
    as (He1 & Hm1 & Hle1 & Hlt1).
  destruct (round_nearest_even_bounds (shr_m mrs1) (loc_of_shr_record mrs1))
    as [Hr Hrx].
  set (m2 := round_nearest_even (shr_m mrs1) (loc_of_shr_record mrs1)) in *.
  assert (m2 <= N * 2 ^ (- e1)) as Hle2.
  { destruct (loc_of_shr_record mrs1) eqn:Hl.
    - rewrite Hrx by reflexivity. exact Hle1.
    - assert (shr_m mrs1 < N * 2 ^ (- e1)) by (apply Hlt1; discriminate).
      lia. }
  destruct (shr_fexp prec emax m2 e1 loc_Exact) as [mrs2 e2] eqn:H2.
  destruct (shr_fexp_le N m2 e1 loc_Exact HN ltac:(lia) He1 Hle2
              ltac:(intros H; contradiction) _ _ H2)
    as (He2 & Hm2 & Hle3 & _).
  destruct (shr_m mrs2) as [ | p | p ] eqn:Hp.
  - left. reflexivity.
  - right. exists p, e2.
    replace (e2 <=? emax - prec) with true
      by (symmetry; apply Z.leb_le; unfold emax, prec; lia).
    auto.
  - lia.
Qed.

Lemma iter_xO_spec (d : positive) (p : positive) :
  Z.pos (Pos.iter xO p d) = Z.pos p * 2 ^ Z.pos d /\
  digits2_pos (Pos.iter xO p d) = (digits2_pos p + d)%positive.
Proof.
  induction d as [ | d [IHv IHd] ] using Pos.peano_ind.
  - cbn [Pos.iter digits2_pos]. split; [ | lia].
    rewrite (Pos2Z.inj_xO p). change (2 ^ 1) with 2. lia.
  - rewrite Pos.iter_succ. cbn [digits2_pos]. split.
    + rewrite (Pos2Z.inj_xO (Pos.iter xO p d)), IHv, Pos2Z.inj_succ,
        Z.pow_succ_r by lia. lia.
    + rewrite IHd. lia.
Qed.

Lemma binary_round_aux_exact (m : positive) (e : Z) :
  fexp prec emax (Z.pos (digits2_pos m) + e) = e -> e <= emax - prec ->
  binary_round_aux prec emax false (Z.pos m) e loc_Exact
  = S754_finite false m e.
Proof.
  intros Hf He. unfold binary_round_aux, shr_fexp.
  cbn [Zdigits2 shr_record_of_loc]. rewrite Hf, Z.sub_diag.
  cbn [shr shr_m loc_of_shr_record round_nearest_even Zdigits2
       shr_record_of_loc].
  rewrite Hf, Z.sub_diag. cbn [shr shr_m].
  apply Z.leb_le in He. rewrite He. reflexivity.
Qed.

(** The number of a positive integer below 2^53 is that integer. *)
Lemma of_Z_pos (c : Z) :
  0 < c < 2 ^ 53 ->
  exists m e, of_Z c = S754_finite false m e /\ - 52 <= e <= 0 /\
              digits2_pos m = 53%positive /\ Z.pos m = c * 2 ^ (- e).
Proof.
  intros [Hc0 Hc]. destruct c as [ | p | p ]; try lia.
  unfold of_Z, binary_normalize, binary_round, shl_align.
  pose proof (Zdigits2_le (Z.pos p) 53 ltac:(lia) ltac:(lia) Hc) as Hd.
  cbn [Zdigits2] in Hd.
  assert (fexp prec emax (Z.pos (digits2_pos p) + 0)
          = Z.pos (digits2_pos p) - 53) as ->
    by (unfold fexp, emin, prec, emax; lia).
  destruct (Z.pos (digits2_pos p) - 53 - 0) as [ | k | k ] eqn:Hk; try lia.
  - exists p, 0. rewrite binary_round_aux_exact.
    + repeat split; lia.
    + unfold fexp, emin, prec, emax; lia.
    + unfold emax, prec; lia.
  - destruct (iter_xO_spec k p) as [Hv Hdig].
    exists (Pos.iter xO p k), (Z.pos (digits2_pos p) - 53).
    rewrite binary_round_aux_exact.
    + repeat split; try lia.
      rewrite Hv. do 2 f_equal. lia.
    + rewrite Hdig. unfold fexp, emin, prec, emax. lia.
    + unfold emax, prec; lia.
Qed.

Lemma new_location_zero (n : Z) : new_location n 0 = loc_Exact.
Proof.
  unfold new_location, new_location_even, new_location_odd.
  destruct (Z.even n); reflexivity.
Qed.

Lemma div_at_most_one (c n : Z) :
  0 < c -> c <= n -> n < 2 ^ 53 -> at_most 1 (div (of_Z c) (of_Z n)).
Proof.
  intros Hc Hcn Hn.
  destruct (of_Z_pos c ltac:(lia)) as (m1 & e1 & -> & He1 & Hd1 & Hm1).
  destruct (of_Z_pos n ltac:(lia)) as (m2 & e2 & -> & He2 & Hd2 & Hm2).
  unfold div, SFdiv, SFdiv_core_binary. cbn [Zdigits2 xorb].
  rewrite Hd1, Hd2.
  assert (Z.min (fexp prec emax (53 + e1 - (53 + e2))) (e1 - e2)
          = e1 - e2 - 53) as ->
    by (unfold fexp, emin, prec, emax; lia).
  replace (e1 - e2 - (e1 - e2 - 53)) with 53 by lia.
  rewrite Z.shiftl_mul_pow2 by lia.
  pose proof (Z_div_mod (Z.pos m1 * 2 ^ 53) (Z.pos m2) ltac:(lia)) as Hqr.
  destruct (Z.div_eucl (Z.pos m1 * 2 ^ 53) (Z.pos m2)) as [q r].
  destruct Hqr as [Hqr Hr].
  set (E := 2 ^ (- (e1 - e2 - 53))).
  assert (0 < E) as HE by (apply Z.pow_pos_nonneg; lia).
  assert (0 < 2 ^ (- e2)) as HP2 by (apply Z.pow_pos_nonneg; lia).
  assert (2 ^ (- e1) * 2 ^ 53 = E * 2 ^ (- e2)) as Hsplit.
  { unfold E. rewrite <- !pow2_split by lia. f_equal. lia. }
  assert (Z.pos m1 * 2 ^ 53 = c * (E * 2 ^ (- e2))) as Hnum
    by (rewrite Hm1, <- Hsplit; ring).
  rewrite Hnum, Hm2 in Hqr.
  assert (0 <= q) as Hq0 by nia.
  apply binary_round_aux_at_most; try lia.
  - fold E. nia.
  - intros Hloc. fold E.
    assert (r <> 0) as Hr0.
    { intros ->. apply Hloc. apply new_location_zero. }
    nia.
Qed.

Lemma of_Z_100 : of_Z 100 = S754_finite false 7036874417766400 (-46).
Proof. reflexivity. Qed.

Lemma mul_100_at_most (x : number) :
  at_most 1 x -> at_most 100 (mul x (of_Z 100)).
Proof.
  intros [-> | (m & e & -> & He & Hm)]; rewrite of_Z_100; unfold mul, SFmul.
  - left. reflexivity.
  - cbn [xorb]. apply binary_round_aux_at_most; try lia.
    + replace (- (e + -46)) with (- e + 46) by lia.
      rewrite pow2_split, Pos2Z.inj_mul by lia.
      change (Z.pos 7036874417766400) with (100 * 2 ^ 46).
      assert (0 < 2 ^ 46) by lia. nia.
    + intros H. contradiction.
Qed.

Lemma Math_round_at_most (y : number) :
  at_most 100 y -> exists k, 0 <= k <= 100 /\ Math_round y = of_Z k.
Proof.
  intros [-> | (m & e & -> & He & Hm)].
  - exists 0. split; [lia | reflexivity].
  - unfold Math_round.
    set (r := match e with
              | Z.neg k => (2 * Z.pos m + 2 ^ Z.pos k) / 2 ^ (Z.pos k + 1)
              | _ => Z.pos m * 2 ^ e
              end).
    assert (0 <= r <= 100) as Hr.
    { unfold r. destruct e as [ | k | k ]; try lia.
      change (- Z.neg k) with (Z.pos k) in Hm.
      rewrite pow2_split by lia. change (2 ^ 1) with 2.
      assert (0 < 2 ^ Z.pos k) by (apply Z.pow_pos_nonneg; lia).
      split.
      - apply Z.div_pos; lia.
      - assert ((2 * Z.pos m + 2 ^ Z.pos k) / (2 ^ Z.pos k * 2) < 101);
          [ | lia ].
        apply Z.div_lt_upper_bound; lia. }
    exists r. split; [exact Hr | ].
    destruct (r =? 0) eqn:Hz; [ | reflexivity ].
    apply Z.eqb_eq in Hz. rewrite Hz. reflexivity.
Qed.

End Numbers.

(* ===================================================================== *)
(** * Lists *)
(* ===================================================================== *)

Section Lists.
Context {A : Type}.

Lemma filter_map_same (f : A -> bool) (h : A -> A) (l : list A) :
  (forall r, f (h r) = f r) ->
  List.filter f (map h l) = map h (List.filter f l).
Proof.
  intros Hf. induction l as [ | a l IH ]; [reflexivity | ].
  cbn [map List.filter]. rewrite Hf. destruct (f a); cbn [map]; congruence.
Qed.

Lemma find_map_same (f : A -> bool) (h : A -> A) (l : list A) :
  (forall r, f (h r) = f r) ->
  List.find f (map h l) = option_map h (List.find f l).
Proof.
  intros Hf. induction l as [ | a l IH ]; [reflexivity | ].
  cbn [map List.find]. rewrite Hf. destruct (f a); [reflexivity | exact IH].
Qed.

Lemma find_app_none (f : A -> bool) (l : list A) (x : A) :
  List.find f l = None -> f x = true -> List.find f (l ++ [x]) = Some x.
Proof.
  induction l as [ | a l IH ]; cbn [app List.find]; intros Hn Hx.
  - rewrite Hx. reflexivity.
  - destruct (f a); [discriminate Hn | apply IH; assumption].
Qed.

Lemma existsb_map_in (g : A -> bool) (h : A -> A) (l : list A) :
  (forall r, In r l -> g (h r) = g r) -> existsb g (map h l) = existsb g l.
Proof.
  induction l as [ | a l IH ]; [reflexivity | ]. intros Hg.
  cbn [map existsb]. rewrite Hg by (left; reflexivity).
  rewrite IH; [reflexivity | ]. intros r Hr. apply Hg. right. exact Hr.
Qed.

Lemma NoDup_map_eq {B : Type} (key : A -> B) (l : list A) (a b : A) :
  List.NoDup (map key l) -> In a l -> In b l -> key a = key b -> a = b.
Proof.
  induction l as [ | x l IH ]; cbn [map]; intros Hnd Ha Hb Hk.
  - destruct Ha.
  - inversion Hnd as [ | ? ? Hnot Hnd' ]; subst.
    destruct Ha as [-> | Ha], Hb as [-> | Hb].
    + reflexivity.
    + exfalso. apply Hnot. rewrite Hk. apply in_map. exact Hb.
    + exfalso. apply Hnot. rewrite <- Hk. apply in_map. exact Ha.
    + apply IH; assumption.
Qed.

Lemma map_replace_unique {B : Type} (key : A -> B) (sel : A -> bool)
    (h : A -> A) (pre post : list A) (p : A) :
  List.NoDup (map key (pre ++ p :: post)) ->
  sel p = true -> (forall r, sel r = true -> key r = key p) ->
  map (fun r => if sel r then h r else r) (pre ++ p :: post)
  = pre ++ h p :: post.
Proof.
  intros Hnd Hp Hsel.
  assert (forall l, (forall r, In r l -> sel r = true -> False) ->
                    map (fun r => if sel r then h r else r) l = l) as Hid.
  { induction l as [ | a l IH ]; [reflexivity | ]. intros Hl. cbn [map].
    destruct (sel a) eqn:Ha.
    - exfalso. apply (Hl a); [left; reflexivity | exact Ha].
    - f_equal. apply IH. intros r Hr. apply (Hl r). right. exact Hr. }
  rewrite map_app. cbn [map]. rewrite Hp.
  rewrite map_app in Hnd. cbn [map] in Hnd.
  pose proof (NoDup_remove_2 _ _ _ Hnd) as Hnot.
  rewrite !Hid; [reflexivity | | ].
  - intros r Hr Hs. apply Hnot. apply in_or_app. right.
    rewrite <- (Hsel r Hs). apply in_map. exact Hr.
  - intros r Hr Hs. apply Hnot. apply in_or_app. left.
    rewrite <- (Hsel r Hs). apply in_map. exact Hr.
Qed.

Lemma filter_at_most_one {B : Type} (key : A -> B) (k : B) (f : A -> bool)
    (l : list A) :
  List.NoDup (map key l) -> (forall r, f r = true -> key r = k) ->
  (length (List.filter f l) <= 1)%nat.
Proof.
  intros Hnd Hf. induction l as [ | a l IH ]; cbn [List.filter length].
  - lia.
  - cbn [map] in Hnd. inversion Hnd as [ | ? ? Hnot Hnd' ]; subst.
    destruct (f a) eqn:Ha; [ | apply IH; exact Hnd' ].
    assert (List.filter f l = []) as ->; [ | cbn; lia ].
    destruct (List.filter f l) as [ | b rest ] eqn:Hfl; [reflexivity | ].
    exfalso.
    assert (In b (List.filter f l)) as Hb by (rewrite Hfl; left; auto).
    apply filter_In in Hb as [Hb Hfb]. apply Hnot.
    rewrite (Hf a Ha), <- (Hf b Hfb). apply in_map. exact Hb.
Qed.

End Lists.

Lemma filter_none {A : Type} (f : A -> bool) (l : list A) :
  (forall x, In x l -> f x = false) -> List.filter f l = [].
Proof.
  induction l as [ | a l IH ]; intros H; [reflexivity | ].
  cbn [List.filter]. rewrite (H a) by (left; reflexivity).
  apply IH. intros x Hx. apply H. right. exact Hx.
Qed.

Lemma NoDup_snoc {A : Type} (l : list A) (x : A) :
  List.NoDup l -> ~ In x l -> List.NoDup (l ++ [x]).
Proof.
  induction l as [ | a l IH ]; cbn [app]; intros Hnd Hx.
  - constructor; [intros [] | constructor].
  - inversion Hnd as [ | ? ? Hnot Hnd' ]; subst. constructor.
    + rewrite in_app_iff. intros [H | [H | []]]; [auto | ].
      apply Hx. left. congruence.
    + apply IH; [exact Hnd' | ]. intros H. apply Hx. right. exact H.
Qed.

Lemma strict_eq_true (a b : option string) : strict_eq a b = true <-> a = b.
Proof.
  destruct a as [x | ], b as [y | ]; cbn [strict_eq];
    rewrite ?String.eqb_eq; split; congruence.
Qed.

Lemma has_id_true (ids : list uuid) (x : uuid) :
  Store.has_id ids x = true <-> In x ids.
Proof.
  unfold Store.has_id. rewrite existsb_exists. split.
  - intros (y & Hy & Heq). apply String.eqb_eq in Heq. subst. exact Hy.
  - intros Hx. exists x. split; [exact Hx | apply String.eqb_refl].
Qed.

Lemma has_id_false (ids : list uuid) (x : uuid) :
  Store.has_id ids x = false <-> ~ In x ids.
Proof.
  rewrite <- has_id_true. destruct (Store.has_id ids x); split; congruence.
Qed.

(* ===================================================================== *)
(** * The policies, evaluated *)
(* ===================================================================== *)

Lemma uid_is_Some (u x : uuid) : RLS.uid_is (Some u) x = true <-> x = u.
Proof. cbn [RLS.uid_is]. rewrite String.eqb_eq. split; congruence. Qed.

Lemma user_progress_select (s : RLS.session) (r : UserProgress.t) :
  RLS.permits_using RLS.user_progress_policies RLS.SELECT s r
  = RLS.uid_is s (UserProgress.user_id r).
Proof.
  destruct s as [u | ]; cbn; [ | reflexivity ].
  rewrite orb_false_r. reflexivity.
Qed.

Lemma user_progress_update (s : RLS.session) (r : UserProgress.t) :
  RLS.permits_using RLS.user_progress_policies RLS.UPDATE s r
  = RLS.uid_is s (UserProgress.user_id r).
Proof.
  destruct s as [u | ]; cbn; [ | reflexivity ].
  rewrite orb_false_r. reflexivity.
Qed.

Lemma user_progress_update_check (s : RLS.session) (r : UserProgress.t) :
  RLS.permits_check RLS.user_progress_policies RLS.UPDATE s r
  = RLS.uid_is s (UserProgress.user_id r).
Proof.
  destruct s as [u | ]; cbn; [ | reflexivity ].
  rewrite orb_false_r. reflexivity.
Qed.

Lemma user_progress_insert_check (s : RLS.session) (r : UserProgress.t) :
  RLS.permits_check RLS.user_progress_policies RLS.INSERT s r
  = RLS.uid_is s (UserProgress.user_id r).
Proof.
  destruct s as [u | ]; cbn; [ | reflexivity ].
  rewrite orb_false_r. reflexivity.
Qed.

Lemma user_progress_delete (s : RLS.session) (r : UserProgress.t) :
  RLS.permits_using RLS.user_progress_policies RLS.DELETE s r = false.
Proof. destruct s; reflexivity. Qed.

Lemma profiles_select (s : RLS.session) (r : Profile.t) :
  RLS.permits_using RLS.profiles_policies RLS.SELECT s r
  = RLS.uid_is s (Profile.id r).
Proof.
  destruct s as [u | ]; cbn; [ | reflexivity ].
  rewrite orb_false_r. reflexivity.
Qed.

Lemma delete_user_progress_nothing (s : RLS.session)
    (rows : list UserProgress.t) (where_ : UserProgress.t -> bool) :
  Store.delete RLS.user_progress_policies s rows where_ = rows.
Proof.
  unfold Store.delete. induction rows as [ | r l IH ]; [reflexivity | ].
  cbn [List.filter]. rewrite user_progress_delete, andb_false_r.
  cbn [andb negb]. f_equal. exact IH.
Qed.

(* ===================================================================== *)
(** * Reading and writing Progress Records *)
(* ===================================================================== *)

Section Progress.
Import CourseDetail.

Lemma fetch_progress_filter (db : Store.t) (u c : uuid) :
  fetch_progress db u c
  = List.filter (eq_user_course u c) (Store.user_progress db).
Proof.
  unfold fetch_progress, Store.select. apply filter_ext. intros r.
  rewrite user_progress_select. unfold eq_user_course. cbn [RLS.uid_is].
  rewrite (String.eqb_sym u).
  destruct (String.eqb (UserProgress.user_id r) u); reflexivity.
Qed.

Lemma in_fetch_progress (db : Store.t) (u c : uuid) (p : UserProgress.t) :
  In p (fetch_progress db u c) <->
  In p (Store.user_progress db) /\
  UserProgress.user_id p = u /\ UserProgress.course_id p = c.
Proof.
  rewrite fetch_progress_filter, filter_In. unfold eq_user_course.
  rewrite andb_true_iff, !String.eqb_eq. reflexivity.
Qed.

Lemma apply_changes_same (c : Store.user_progress_changes)
    (r : UserProgress.t) :
  UserProgress.id (Store.apply_changes c r) = UserProgress.id r /\
  UserProgress.tuple (Store.apply_changes c r) = UserProgress.tuple r.
Proof. split; reflexivity. Qed.

(** An update by identifier is never refused: the rows it reaches are the
    caller's, and stay the caller's. *)
Lemma update_by_id (db : Store.t) (u : uuid)
    (c : Store.user_progress_changes) (p : UserProgress.t) :
  Store.update_user_progress db (Some u) c (eq_id p)
  = Store.Data
      (Store.with_user_progress db
         (map (fun r => if String.eqb u (UserProgress.user_id r) && eq_id p r
                        then Store.apply_changes c r else r)
              (Store.user_progress db))).
Proof.
  unfold Store.update_user_progress.
  replace (forallb _ (Store.user_progress db)) with true.
  - do 2 f_equal. apply map_ext. intros r.
    rewrite user_progress_select, user_progress_update. cbn [RLS.uid_is].
    destruct (String.eqb u (UserProgress.user_id r)); reflexivity.
  - symmetry. apply forallb_forall. intros r _.
    rewrite user_progress_select, user_progress_update,
      user_progress_update_check.
    cbn [RLS.uid_is Store.apply_changes UserProgress.user_id].
    destruct (String.eqb u (UserProgress.user_id r)); [ | reflexivity ].
    cbn. apply orb_true_r.
Qed.

Lemma fetch_after_update (db : Store.t) (u c : uuid)
    (ch : Store.user_progress_changes) (p : UserProgress.t) :
  fetch_progress
    (Store.with_user_progress db
       (map (fun r => if String.eqb u (UserProgress.user_id r) && eq_id p r
                      then Store.apply_changes ch r else r)
            (Store.user_progress db))) u c
  = map (fun r => if eq_id p r then Store.apply_changes ch r else r)
        (fetch_progress db u c).
Proof.
  rewrite !fetch_progress_filter.
  cbn [Store.user_progress Store.with_user_progress].
  rewrite filter_map_same.
  - apply map_ext_in. intros r Hr. apply filter_In in Hr as [_ Hr].
    unfold eq_user_course in Hr. apply andb_true_iff in Hr as [Hr _].
    apply String.eqb_eq in Hr. rewrite Hr, String.eqb_refl. reflexivity.
  - intros r.
    destruct (String.eqb u (UserProgress.user_id r) && eq_id p r);
      reflexivity.
Qed.

Lemma insert_result (db db' : Store.t) (s : RLS.session) (d : Store.defaults)
    (v : Store.user_progress_values) :
  Store.insert_user_progress db s d v = Store.Data db' ->
  db' = Store.with_user_progress db
          (Store.user_progress db ++ [Store.new_user_progress d v]) /\
  ~ In (Store.gen_random_uuid d)
       (map UserProgress.id (Store.user_progress db)).
Proof.
  unfold Store.insert_user_progress.
  destruct (negb _); [discriminate | ].
  destruct (Store.has_id _ _) eqn:Hid; [discriminate | ].
  destruct (negb _); [discriminate | ].
  intros H. inversion H. split; [reflexivity | ].
  apply has_id_false. exact Hid.
Qed.

Lemma insert_accepted (db : Store.t) (u c : uuid) (l : option uuid)
    (d : Store.defaults) (b : bool) (t : option timestamptz) :
  In u (map AuthUser.id (Store.auth_users db)) ->
  In c (map Course.id (Store.courses db)) ->
  match l with
  | Some x => In x (map Lesson.id (Store.lessons db))
  | None => True
  end ->
  ~ In (Store.gen_random_uuid d)
       (map UserProgress.id (Store.user_progress db)) ->
  Store.insert_user_progress db (Some u) d (Store.Values u c l b t)
  = Store.Data
      (Store.with_user_progress db
         (Store.user_progress db
            ++ [Store.new_user_progress d (Store.Values u c l b t)])).
Proof.
  intros Hu Hc Hl Hfresh. unfold Store.insert_user_progress.
  rewrite user_progress_insert_check.
  cbn [Store.new_user_progress UserProgress.user_id UserProgress.id
       Store.v_user_id Store.v_course_id Store.v_lesson_id RLS.uid_is].
  rewrite String.eqb_refl. cbn [negb].
  apply has_id_false in Hfresh. rewrite Hfresh.
  apply has_id_true in Hu. apply has_id_true in Hc. rewrite Hu, Hc.
  destruct l as [x | ].
  - apply has_id_true in Hl. rewrite Hl. reflexivity.
  - reflexivity.
Qed.

Lemma fetch_after_insert (db : Store.t) (u c : uuid) (x : UserProgress.t) :
  UserProgress.user_id x = u -> UserProgress.course_id x = c ->
  fetch_progress
    (Store.with_user_progress db (Store.user_progress db ++ [x])) u c
  = fetch_progress db u c ++ [x].
Proof.
  intros Hu Hc. rewrite !fetch_progress_filter.
  cbn [Store.user_progress Store.with_user_progress].
  rewrite List.filter_app. cbn [List.filter]. unfold eq_user_course at 2.
  rewrite Hu, Hc, !String.eqb_refl. reflexivity.
Qed.

Lemma primary_keys_update (db : Store.t)
    (h : UserProgress.t -> UserProgress.t) :
  (forall r, UserProgress.id (h r) = UserProgress.id r) ->
  Store.primary_keys db ->
  Store.primary_keys
    (Store.with_user_progress db (map h (Store.user_progress db))).
Proof.
  intros Hid [Hc Hp]. split; [exact Hc | ].
  cbn [Store.user_progress Store.with_user_progress].
  rewrite map_map. erewrite map_ext; [exact Hp | exact Hid].
Qed.

Lemma primary_keys_insert (db : Store.t) (x : UserProgress.t) :
  ~ In (UserProgress.id x) (map UserProgress.id (Store.user_progress db)) ->
  Store.primary_keys db ->
  Store.primary_keys
    (Store.with_user_progress db (Store.user_progress db ++ [x])).
Proof.
  intros Hx [Hc Hp]. split; [exact Hc | ].
  cbn [Store.user_progress Store.with_user_progress].
  rewrite map_app. apply NoDup_snoc; assumption.
Qed.

(** With its primary key, a course is found at most once, and the data is
    loaded. *)
Lemma loadCourseData_spec (db : Store.t) (st : State) :
  Store.primary_keys db ->
  user (loadCourseData db st) = user st /\
  courseId (loadCourseData db st) = courseId st /\
  progress (loadCourseData db st)
  = match user st with
    | Some u => fetch_progress db u (courseId st)
    | None => []
    end.
Proof.
  intros [Hc _]. unfold loadCourseData.
  set (found := Store.select RLS.courses_policies (user st)
                  (Store.courses db) _).
  assert (length found <= 1)%nat as Hlen.
  { apply (filter_at_most_one Course.id (courseId st)); [exact Hc | ].
    intros r Hr. apply andb_true_iff in Hr as [_ Hr].
    apply String.eqb_eq. exact Hr. }
  destruct found as [ | r [ | r' rest ] ]; cbn [Store.maybeSingle];
    cbn [user courseId progress]; auto.
  cbn [length] in Hlen. lia.
Qed.

Lemma after_write_consistent (db : Store.t) (st : State)
    (r : Store.response Store.t) :
  consistent (db, st) ->
  (forall db', r = Store.Data db' -> Store.primary_keys db') ->
  consistent (after_write st db r) /\
  user (snd (after_write st db r)) = user st /\
  courseId (snd (after_write st db r)) = courseId st.
Proof.
  intros Hw Hr. destruct r as [db' | err]; cbn [after_write snd].
  - specialize (Hr db' eq_refl).
    destruct (loadCourseData_spec db' st Hr) as (Hu & Hc & Hp).
    split; [split | split]; try assumption.
    unfold in_sync. cbn [fst snd]. rewrite Hu, Hc, Hp.
    destruct (user st); reflexivity.
  - split; [exact Hw | split; reflexivity].
Qed.

End Progress.

(* ===================================================================== *)
(** * The actions of the page, step by step *)
(* ===================================================================== *)

Section Steps.
Import CourseDetail.

Lemma in_sync_progress (db : Store.t) (st : State) (u : uuid) :
  consistent (db, st) -> user st = Some u ->
  progress st = fetch_progress db u (courseId st).
Proof.
  intros [Hs _] Hu. unfold in_sync in Hs. cbn [fst snd] in Hs.
  rewrite Hu in Hs. exact Hs.
Qed.

(** The write of an action that found the record [p]. *)
Lemma update_step (db : Store.t) (st : State) (u : uuid)
    (ch : Store.user_progress_changes) (p : UserProgress.t) :
  consistent (db, st) -> user st = Some u ->
  forall w',
  w' = after_write st db
         (Store.update_user_progress db (user st) ch (eq_id p)) ->
  consistent w' /\ user (snd w') = Some u /\
  courseId (snd w') = courseId st /\
  fst w' = Store.with_user_progress db
             (map (fun r => if String.eqb u (UserProgress.user_id r)
                               && eq_id p r
                            then Store.apply_changes ch r else r)
                  (Store.user_progress db)) /\
  progress (snd w')
  = map (fun r => if eq_id p r then Store.apply_changes ch r else r)
        (progress st).
Proof.
  intros Hw Hu w' ->. rewrite Hu, update_by_id.
  set (db' := Store.with_user_progress db _).
  assert (Store.primary_keys db') as Hpk.
  { apply primary_keys_update; [ | apply Hw ]. intros r.
    destruct (String.eqb u (UserProgress.user_id r) && eq_id p r);
      reflexivity. }
  destruct (after_write_consistent db st (Store.Data db') Hw)
    as (Hc & Hu' & Hc').
  { intros ? H. inversion H. subst. exact Hpk. }
  cbn [after_write fst snd] in *.
  destruct (loadCourseData_spec db' st Hpk) as (_ & _ & Hp).
  rewrite Hu in Hp, Hu'.
  repeat (split; [assumption || reflexivity | ]).
  rewrite Hp. unfold db'. rewrite fetch_after_update.
  rewrite <- (in_sync_progress db st u Hw Hu). reflexivity.
Qed.

(** The write of an action that found no record. *)
Lemma insert_step (db : Store.t) (st : State) (u : uuid)
    (d : Store.defaults) (l : option uuid) (b : bool)
    (t : option timestamptz) :
  consistent (db, st) -> user st = Some u ->
  forall w',
  w' = after_write st db
         (Store.insert_user_progress db (user st) d
            (Store.Values u (courseId st) l b t)) ->
  consistent w' /\ user (snd w') = Some u /\
  courseId (snd w') = courseId st /\
  (w' = (db, st) \/
   fst w' = Store.with_user_progress db
              (Store.user_progress db
                 ++ [Store.new_user_progress d
                       (Store.Values u (courseId st) l b t)]) /\
   progress (snd w')
   = progress st
       ++ [Store.new_user_progress d (Store.Values u (courseId st) l b t)]).
Proof.
  intros Hw Hu w' ->. rewrite Hu.
  set (v := Store.Values u (courseId st) l b t).
  destruct (after_write_consistent db st
              (Store.insert_user_progress db (Some u) d v) Hw)
    as (Hc & Hu' & Hc').
  { intros db' H. apply insert_result in H as [-> Hfresh].
    apply primary_keys_insert; [exact Hfresh | apply Hw]. }
  rewrite Hu in Hu'. repeat (split; [assumption | ]).
  destruct (Store.insert_user_progress db (Some u) d v) as [db' | err] eqn:Hi;
    cbn [after_write]; [right | left; reflexivity].
  apply insert_result in Hi as [-> Hfresh]. cbn [fst snd].
  split; [reflexivity | ].
  assert (Store.primary_keys
            (Store.with_user_progress db
               (Store.user_progress db ++ [Store.new_user_progress d v])))
    as Hpk by (apply primary_keys_insert; [exact Hfresh | apply Hw]).
  destruct (loadCourseData_spec _ st Hpk) as (_ & _ & Hp).
  rewrite Hu in Hp. rewrite Hp, fetch_after_insert by reflexivity.
  rewrite <- (in_sync_progress db st u Hw Hu). reflexivity.
Qed.

Lemma toggle_signed_in (e : env) (l : uuid) (db : Store.t) (st : State)
    (u : uuid) :
  user st = Some u ->
  toggleLessonCompletion e l (db, st)
  = match List.find (for_lesson (Some l)) (progress st) with
    | Some p =>
        after_write st db
          (Store.update_user_progress db (user st)
             (Store.Changes
                (negb (isLessonCompleted st l))
                (if negb (isLessonCompleted st l)
                 then Some (completed_at_date e) else None)
                (updated_at_date e))
             (eq_id p))
    | None =>
        after_write st db
          (Store.insert_user_progress db (user st) (store_defaults e)
             (Store.Values u (courseId st) (Some l) true
                (Some (completed_at_date e))))
    end.
Proof. intros Hu. unfold toggleLessonCompletion. rewrite Hu. reflexivity. Qed.

Lemma mark_signed_in (e : env) (db : Store.t) (st : State) (u : uuid) :
  user st = Some u ->
  markCourseCompleted e (db, st)
  = match List.find (for_lesson None) (progress st) with
    | Some p =>
        after_write st db
          (Store.update_user_progress db (user st)
             (Store.Changes true (Some (completed_at_date e))
                (updated_at_date e))
             (eq_id p))
    | None =>
        after_write st db
          (Store.insert_user_progress db (user st) (store_defaults e)
             (Store.Values u (courseId st) None true
                (Some (completed_at_date e))))
    end.
Proof. intros Hu. unfold markCourseCompleted. rewrite Hu. reflexivity. Qed.

Lemma toggle_consistent (e : env) (l : uuid) (w : world) :
  consistent w ->
  consistent (toggleLessonCompletion e l w) /\
  user (snd (toggleLessonCompletion e l w)) = user (snd w) /\
  courseId (snd (toggleLessonCompletion e l w)) = courseId (snd w).
Proof.
  destruct w as [db st]. intros Hw. cbn [snd].
  destruct (user st) as [u | ] eqn:Hu.
  - rewrite (toggle_signed_in e l db st u Hu).
    destruct (List.find _ _) as [p | ].
    + edestruct update_step as (H1 & H2 & H3 & _); eauto.
    + edestruct insert_step as (H1 & H2 & H3 & _); eauto.
  - unfold toggleLessonCompletion. rewrite Hu. cbn [snd]. auto.
Qed.

Lemma mark_consistent (e : env) (w : world) :
  consistent w ->
  consistent (markCourseCompleted e w) /\
  user (snd (markCourseCompleted e w)) = user (snd w) /\
  courseId (snd (markCourseCompleted e w)) = courseId (snd w).
Proof.
  destruct w as [db st]. intros Hw. cbn [snd].
  destruct (user st) as [u | ] eqn:Hu.
  - rewrite (mark_signed_in e db st u Hu).
    destruct (List.find _ _) as [p | ].
    + edestruct update_step as (H1 & H2 & H3 & _); eauto.
    + edestruct insert_step as (H1 & H2 & H3 & _); eauto.
  - unfold markCourseCompleted. rewrite Hu. cbn [snd]. auto.
Qed.

Lemma act_consistent (ea : env * action) (w : world) :
  consistent w -> consistent (act ea w).
Proof.
  intros Hw. unfold act. destruct (snd ea).
  - apply toggle_consistent. exact Hw.
  - apply mark_consistent. exact Hw.
Qed.

(** A record found by its identifier among the caller's records is the
    record itself. *)
Lemma eq_id_unique (db : Store.t) (st : State) (u : uuid)
    (p r : UserProgress.t) :
  consistent (db, st) -> user st = Some u ->
  In p (progress st) -> In r (progress st) -> eq_id p r = true -> r = p.
Proof.
  intros Hw Hu Hp Hr Heq. rewrite (in_sync_progress db st u Hw Hu) in Hp, Hr.
  apply in_fetch_progress in Hp as [Hp _].
  apply in_fetch_progress in Hr as [Hr _].
  destruct Hw as [_ [_ Hpk]]. cbn [fst] in Hpk.
  apply (NoDup_map_eq UserProgress.id _ _ _ Hpk Hr Hp).
  apply String.eqb_eq. exact Heq.
Qed.

(** Toggling a lesson leaves the course flag as it is. *)
Lemma toggle_course_flag (e : env) (l : uuid) (w : world) :
  consistent w ->
  isCourseCompleted (snd (toggleLessonCompletion e l w))
  = isCourseCompleted (snd w).
Proof.
  destruct w as [db st]. intros Hw. cbn [snd].
  destruct (user st) as [u | ] eqn:Hu.
  2: { unfold toggleLessonCompletion. rewrite Hu. reflexivity. }
  rewrite (toggle_signed_in e l db st u Hu).
  destruct (List.find _ _) as [p | ] eqn:Hfind.
  - edestruct update_step as (_ & _ & _ & _ & Hp); eauto.
    unfold isCourseCompleted. rewrite Hp.
    apply find_some in Hfind as [Hin Hl].
    apply existsb_map_in. intros r Hr.
    destruct (eq_id p r) eqn:Heq; [ | reflexivity ].
    rewrite (eq_id_unique db st u p r Hw Hu Hin Hr Heq).
    unfold for_lesson in *. cbn [Store.apply_changes UserProgress.lesson_id].
    apply strict_eq_true in Hl. rewrite Hl. reflexivity.
  - edestruct insert_step as (_ & _ & _ & [Hsame | [_ Hp]]); eauto.
    + rewrite Hsame. reflexivity.
    + unfold isCourseCompleted. rewrite Hp, existsb_app.
      cbn. apply orb_false_r.
Qed.

(** [markCourseCompleted] never clears the course flag. *)
Lemma mark_course_flag (e : env) (w : world) :
  consistent w -> isCourseCompleted (snd w) = true ->
  isCourseCompleted (snd (markCourseCompleted e w)) = true.
Proof.
  destruct w as [db st]. intros Hw Hflag. cbn [snd] in *.
  destruct (user st) as [u | ] eqn:Hu.
  2: { unfold markCourseCompleted. rewrite Hu. exact Hflag. }
  rewrite (mark_signed_in e db st u Hu).
  destruct (List.find _ _) as [p | ] eqn:Hfind.
  - edestruct update_step as (_ & _ & _ & _ & Hp); eauto.
    unfold isCourseCompleted. rewrite Hp.
    apply find_some in Hfind as [Hin Hl].
    apply existsb_exists.
    exists (Store.apply_changes
              (Store.Changes true (Some (completed_at_date e))
                 (updated_at_date e)) p).
    split.
    + apply in_map_iff. exists p. split; [ | exact Hin ].
      unfold eq_id. rewrite String.eqb_refl. reflexivity.
    + unfold for_lesson in *. cbn. rewrite Hl. reflexivity.
  - edestruct insert_step as (_ & _ & _ & [Hsame | [_ Hp]]); eauto.
    + rewrite Hsame. exact Hflag.
    + unfold isCourseCompleted in *. rewrite Hp, existsb_app, Hflag.
      reflexivity.
Qed.

Lemma run_consistent (eas : list (env * action)) (w : world) :
  consistent w -> consistent (run eas w).
Proof.
  revert w. induction eas as [ | ea eas IH ]; intros w Hw; [exact Hw | ].
  cbn [run fold_left]. apply IH. apply act_consistent. exact Hw.
Qed.

Lemma run_course_flag (eas : list (env * action)) (w : world) :
  consistent w -> isCourseCompleted (snd w) = true ->
  isCourseCompleted (snd (run eas w)) = true.
Proof.
  revert w. induction eas as [ | ea eas IH ]; intros w Hw Hflag;
    [exact Hflag | ].
  cbn [run fold_left]. apply IH; [apply act_consistent; exact Hw | ].
  unfold act. destruct (snd ea).
  - rewrite toggle_course_flag; assumption.
  - apply mark_course_flag; assumption.
Qed.

Lemma fetched_of_caller (db : Store.t) (st : State) (u : uuid)
    (r : UserProgress.t) :
  consistent (db, st) -> user st = Some u -> In r (progress st) ->
  In r (Store.user_progress db) /\
  UserProgress.user_id r = u /\ UserProgress.course_id r = courseId st.
Proof.
  intros Hw Hu Hr. rewrite (in_sync_progress db st u Hw Hu) in Hr.
  apply in_fetch_progress. exact Hr.
Qed.

(** Under uniqueness, two of the caller's records of the course with the
    same lesson reference are one record. *)
Lemma unique_by_lesson (db : Store.t) (st : State) (u : uuid)
    (a b : UserProgress.t) :
  consistent (db, st) -> user st = Some u ->
  at_most_one_per_tuple (progress st) ->
  In a (progress st) -> In b (progress st) ->
  UserProgress.lesson_id a = UserProgress.lesson_id b -> a = b.
Proof.
  intros Hw Hu Huniq Ha Hb Hl.
  destruct (fetched_of_caller db st u a Hw Hu Ha) as (_ & Hua & Hca).
  destruct (fetched_of_caller db st u b Hw Hu Hb) as (_ & Hub & Hcb).
  apply (NoDup_map_eq UserProgress.tuple _ _ _ Huniq Ha Hb).
  unfold UserProgress.tuple. congruence.
Qed.

(** Under uniqueness, the record of a lesson is the one that [find]
    returns, and the derived flag is its [completed] flag. *)
Lemma find_unique_record (db : Store.t) (st : State) (u : uuid)
    (x : option uuid) (p : UserProgress.t) :
  consistent (db, st) -> user st = Some u ->
  at_most_one_per_tuple (progress st) ->
  In p (progress st) -> UserProgress.lesson_id p = x ->
  List.find (for_lesson x) (progress st) = Some p /\
  existsb (fun r => for_lesson x r && UserProgress.completed r) (progress st)
  = UserProgress.completed p.
Proof.
  intros Hw Hu Huniq Hp Hx.
  assert (for_lesson x p = true) as Hfp by (apply strict_eq_true; exact Hx).
  assert (forall r, In r (progress st) -> for_lesson x r = true -> r = p)
    as Honly.
  { intros r Hr Hfr. apply strict_eq_true in Hfr.
    apply (unique_by_lesson db st u); auto. congruence. }
  split.
  - destruct (List.find (for_lesson x) (progress st)) as [q | ] eqn:Hfind.
    + apply find_some in Hfind as [Hq Hfq]. f_equal. apply Honly; assumption.
    + rewrite (find_none _ _ Hfind p Hp) in Hfp. discriminate Hfp.
  - destruct (UserProgress.completed p) eqn:Hc.
    + apply existsb_exists. exists p. rewrite Hfp, Hc. auto.
    + apply not_true_is_false. intros H.
      apply existsb_exists in H as (r & Hr & Hrc).
      apply andb_true_iff in Hrc as [Hfr Hrc].
      rewrite (Honly r Hr Hfr) in Hrc. congruence.
Qed.

(** The rows around a record of the caller, and the table after an update
    by its identifier. *)
Lemma update_rows_split (db : Store.t) (st : State) (u : uuid)
    (ch : Store.user_progress_changes) (p : UserProgress.t) :
  consistent (db, st) -> user st = Some u -> In p (progress st) ->
  exists pre post,
    Store.user_progress db = pre ++ p :: post /\
    map (fun r => if String.eqb u (UserProgress.user_id r) && eq_id p r
                  then Store.apply_changes ch r else r)
        (Store.user_progress db)
    = pre ++ Store.apply_changes ch p :: post.
Proof.
  intros Hw Hu Hp.
  destruct (fetched_of_caller db st u p Hw Hu Hp) as (Hin & Hup & _).
  destruct (in_split _ _ Hin) as (pre & post & Hrows).
  exists pre, post. split; [exact Hrows | ]. rewrite Hrows.
  apply (map_replace_unique UserProgress.id).
  - rewrite <- Hrows. apply Hw.
  - unfold eq_id. rewrite Hup, !String.eqb_refl. reflexivity.
  - intros r Hr. apply andb_true_iff in Hr as [_ Hr].
    apply String.eqb_eq. exact Hr.
Qed.

(** A toggle of a lesson that has its one record. *)
Lemma toggle_found (e : env) (l : uuid) (db : Store.t) (st : State)
    (u : uuid) (p : UserProgress.t) :
  consistent (db, st) -> user st = Some u ->
  at_most_one_per_tuple (progress st) ->
  In p (progress st) -> UserProgress.lesson_id p = Some l ->
  forall ch p' w',
  ch = Store.Changes
         (negb (UserProgress.completed p))
         (if negb (UserProgress.completed p) then Some (completed_at_date e)
          else None)
         (updated_at_date e) ->
  p' = Store.apply_changes ch p ->
  w' = toggleLessonCompletion e l (db, st) ->
  isLessonCompleted st l = UserProgress.completed p /\
  w' = after_write st db
         (Store.update_user_progress db (user st) ch (eq_id p)) /\
  consistent w' /\ user (snd w') = Some u /\
  courseId (snd w') = courseId st /\
  at_most_one_per_tuple (progress (snd w')) /\
  In p' (progress (snd w')).
Proof.
  intros Hw Hu Huniq Hp Hl ch p' w' Hch -> ->.
  destruct (find_unique_record db st u (Some l) p Hw Hu Huniq Hp Hl)
    as [Hfind Hflag].
  fold (isLessonCompleted st l) in Hflag.
  rewrite (toggle_signed_in e l db st u Hu), Hfind, Hflag, <- Hch.
  destruct (update_step db st u ch p Hw Hu _ eq_refl)
    as (Hc & Hu' & Hc' & _ & Hprog).
  repeat (split; [assumption || reflexivity | ]).
  rewrite Hprog. split.
  - unfold at_most_one_per_tuple. rewrite map_map.
    erewrite map_ext; [exact Huniq | ].
    intros r. destruct (eq_id p r); reflexivity.
  - apply in_map_iff. exists p. split; [ | exact Hp ].
    unfold eq_id. rewrite String.eqb_refl. reflexivity.
Qed.

(** A first toggle of a lesson, or a first [markCourseCompleted], that the
    store accepts. *)
Lemma insert_step_accepted (db : Store.t) (st : State) (u : uuid)
    (d : Store.defaults) (l : option uuid) (t : option timestamptz) :
  consistent (db, st) -> user st = Some u ->
  List.find (for_lesson l) (progress st) = None ->
  In u (map AuthUser.id (Store.auth_users db)) ->
  In (courseId st) (map Course.id (Store.courses db)) ->
  match l with
  | Some x => In x (map Lesson.id (Store.lessons db))
  | None => True
  end ->
  ~ In (Store.gen_random_uuid d)
       (map UserProgress.id (Store.user_progress db)) ->
  forall new w',
  new = Store.new_user_progress d (Store.Values u (courseId st) l true t) ->
  w' = after_write st db
         (Store.insert_user_progress db (user st) d
            (Store.Values u (courseId st) l true t)) ->
  consistent w' /\ user (snd w') = Some u /\
  courseId (snd w') = courseId st /\
  fst w' = Store.with_user_progress db (Store.user_progress db ++ [new]) /\
  progress (snd w') = progress st ++ [new] /\
  (at_most_one_per_tuple (progress st) ->
   at_most_one_per_tuple (progress (snd w'))).
Proof.
  intros Hw Hu Hfind Hau Hco Hle Hfresh new w' -> Hw'.
  destruct (insert_step db st u d l true t Hw Hu w' Hw')
    as (Hc & Hu' & Hc' & Hcase).
  rewrite Hu, (insert_accepted db u (courseId st) l d true t)
    in Hw' by assumption.
  cbn [after_write] in Hw'.
  destruct Hcase as [Hsame | [Hfst Hprog]].
  - exfalso. rewrite Hsame in Hw'. inversion Hw' as [Hdb].
    apply (f_equal (fun x => length (Store.user_progress x))) in Hdb.
    cbn [Store.user_progress Store.with_user_progress] in Hdb.
    rewrite length_app in Hdb. cbn [length] in Hdb. lia.
  - repeat (split; [assumption | ]). rewrite Hprog. intros Huniq.
    unfold at_most_one_per_tuple. rewrite map_app. apply NoDup_snoc.
    + exact Huniq.
    + intros Hin. apply in_map_iff in Hin as (r & Htup & Hr).
      pose proof (find_none _ _ Hfind r Hr) as Hnot.
      unfold UserProgress.tuple in Htup. cbn in Htup.
      assert (UserProgress.lesson_id r = l) as Hl by congruence.
      apply strict_eq_true in Hl. unfold for_lesson in Hnot. congruence.
Qed.

(** The record of the course after a call of [markCourseCompleted] that the
    store accepts. *)
Lemma mark_first (e : env) (db : Store.t) (st : State) (u : uuid) :
  consistent (db, st) -> user st = Some u ->
  In u (map AuthUser.id (Store.auth_users db)) ->
  In (courseId st) (map Course.id (Store.courses db)) ->
  ~ In (Store.gen_random_uuid (store_defaults e))
       (map UserProgress.id (Store.user_progress db)) ->
  consistent (markCourseCompleted e (db, st)) /\
  user (snd (markCourseCompleted e (db, st))) = Some u /\
  exists p1,
    List.find (for_lesson None)
              (progress (snd (markCourseCompleted e (db, st)))) = Some p1 /\
    UserProgress.completed p1 = true /\
    UserProgress.completed_at p1 = Some (completed_at_date e).
Proof.
  intros Hw Hu Hau Hco Hfresh.
  destruct (mark_consistent e (db, st) Hw) as (Hc & Hu' & _).
  cbn [snd] in Hu'. rewrite Hu in Hu'.
  split; [exact Hc | ]. split; [exact Hu' | ].
  rewrite (mark_signed_in e db st u Hu).
  destruct (List.find (for_lesson None) (progress st)) as [p | ] eqn:Hfind.
  - destruct (update_step db st u
                (Store.Changes true (Some (completed_at_date e))
                   (updated_at_date e)) p Hw Hu _ eq_refl)
      as (_ & _ & _ & _ & Hprog).
    rewrite Hprog, find_map_same, Hfind.
    + cbn [option_map]. unfold eq_id at 1. rewrite String.eqb_refl.
      eexists. split; [reflexivity | ]. split; reflexivity.
    + intros r. destruct (eq_id p r); reflexivity.
  - destruct (insert_step_accepted db st u (store_defaults e) None
                (Some (completed_at_date e)) Hw Hu Hfind Hau Hco I Hfresh
                _ _ eq_refl eq_refl)
      as (_ & _ & _ & _ & Hprog & _).
    rewrite Hprog, (find_app_none _ _ _ Hfind) by reflexivity.
    eexists. split; [reflexivity | ]. split; reflexivity.
Qed.

Lemma find_course_flag (st : State) (p : UserProgress.t) :
  List.find (for_lesson None) (progress st) = Some p ->
  UserProgress.completed p = true -> isCourseCompleted st = true.
Proof.
  intros Hfind Hc. apply find_some in Hfind as [Hp Hl].
  apply existsb_exists. exists p. rewrite Hl, Hc. auto.
Qed.

End Steps.

(* ===================================================================== *)
(** * The claims *)
(* ===================================================================== *)

Section Claims.
Import CourseDetail JSNumber.
Local Open Scope Z_scope.

Lemma sample_consistent (n k : nat) :
  (k <= 3)%nat -> consistent (Sample.store n k, Sample.page n k).
Proof.
  intros Hk. split.
  - reflexivity.
  - split; cbn.
    + repeat constructor. intros [].
    + destruct k as [ | [ | [ | [ | k ] ] ] ]; try lia; cbn;
        repeat (constructor; [cbn; intuition discriminate | ]); constructor.
Defined.

Lemma calculateProgress_no_lessons (st : State) :
  lessons st = [] -> calculateProgress st = of_Z 0.
Proof. intros H. unfold calculateProgress. rewrite H. reflexivity. Qed.

Lemma number_eqb_eq (x y : number) : number_eqb x y = true -> x = y.
Proof.
  destruct x as [a | a | | a m e], y as [b | b | | b n f]; cbn [number_eqb];
    try discriminate; try reflexivity.
  - intros H. apply Bool.eqb_prop in H. congruence.
  - intros H. apply Bool.eqb_prop in H. congruence.
  - intros H. apply andb_true_iff in H as [H He].
    apply andb_true_iff in H as [Ha Hm].
    apply Bool.eqb_prop in Ha. apply Pos.eqb_eq in Hm. apply Z.eqb_eq in He.
    congruence.
Qed.

(** Up to 39 lessons the page shows the percentage of the specification;
    checked on every pair of counts. *)
Lemma calculateProgress_below_40_lessons (st : State) :
  (length (lessons st) < 40)%nat ->
  calculateProgress st
  = of_Z (spec_completion_percentage
            (length (List.filter
                       (fun lesson => isLessonCompleted st (Lesson.id lesson))
                       (lessons st)))
            (length (lessons st))).
Proof.
  intros Hlen. unfold calculateProgress.
  set (done := List.filter _ (lessons st)).
  assert (length done <= length (lessons st))%nat as Hle
    by apply List.filter_length_le.
  generalize dependent (length done).
  generalize dependent (length (lessons st)).
  clear done st. intros n Hn c Hc.
  assert (forallb
            (fun n =>
               forallb
                 (fun c =>
                    number_eqb
                      (if Nat.eqb n 0 then of_Z 0
                       else Math_round
                              (mul (div (of_nat c) (of_nat n)) (of_Z 100)))
                      (of_Z (spec_completion_percentage c n)))
                 (seq 0 (S n)))
            (seq 0 40) = true) as Htable by (vm_compute; reflexivity).
  rewrite forallb_forall in Htable.
  specialize (Htable n ltac:(apply in_seq; lia)).
  rewrite forallb_forall in Htable.
  apply number_eqb_eq, Htable, in_seq. lia.
Qed.

(** C1: the page computes [Math.round((completed / total) * 100)] in
    floating point, which is not always round(100 * completed / total). With
    23 of 40 lessons completed the quotient is rounded below 0.575, the
    product is 57.49999999999999 and the page shows 57, where the
    percentage of the specification is round(57.5) = 58. *)
Theorem calculateProgress_23_of_40 :
  length (lessons (Sample.page 40 23)) = 40%nat /\
  length (List.filter
            (fun lesson =>
               isLessonCompleted (Sample.page 40 23) (Lesson.id lesson))
            (lessons (Sample.page 40 23))) = 23%nat /\
  calculateProgress (Sample.page 40 23) = of_Z 57 /\
  spec_completion_percentage 23 40 = 58 /\
  of_Z 57 <> of_Z 58.
Proof.
  repeat split; try (vm_compute; reflexivity).
  vm_compute. discriminate.
Qed.

(** C2: a lesson is completed exactly when some fetched Progress Record has
    that lesson reference and [completed = true]; the course is completed
    exactly when some fetched Progress Record has a null lesson reference
    and [completed = true]. *)
Theorem completion_flags_iff (st : State) (lessonId : uuid) :
  (isLessonCompleted st lessonId = true <->
   exists p, In p (progress st) /\
             UserProgress.lesson_id p = Some lessonId /\
             UserProgress.completed p = true) /\
  (isCourseCompleted st = true <->
   exists p, In p (progress st) /\
             UserProgress.lesson_id p = None /\
             UserProgress.completed p = true).
Proof.
  unfold isLessonCompleted, isCourseCompleted, for_lesson.
  split; rewrite existsb_exists; split.
  - intros (p & Hp & H). apply andb_true_iff in H as [Hl Hc].
    apply strict_eq_true in Hl. eauto.
  - intros (p & Hp & Hl & Hc). exists p. split; [exact Hp | ].
    apply andb_true_iff. split; [apply strict_eq_true | ]; assumption.
  - intros (p & Hp & H). apply andb_true_iff in H as [Hl Hc].
    apply strict_eq_true in Hl. eauto.
  - intros (p & Hp & Hl & Hc). exists p. split; [exact Hp | ].
    apply andb_true_iff. split; [apply strict_eq_true | ]; assumption.
Qed.

(** C3: with at most one Progress Record per (account, course, lesson)
    tuple, a toggle of a lesson that has a record changes that record alone:
    its [completed] flag is flipped, [completed_at] is the date of the
    action when the flag becomes true and null otherwise, [updated_at] is
    refreshed. A toggle of a lesson without a record inserts one with
    [completed = true] and [completed_at] the date of the action, whenever
    the store accepts the row (existing account, course and lesson, fresh
    identifier). *)
Theorem toggleLessonCompletion_flips_or_creates
    (e : env) (lessonId : uuid) (db : Store.t) (st : State) (u : uuid) :
  consistent (db, st) -> user st = Some u ->
  at_most_one_per_tuple (progress st) ->
  (forall p,
     In p (progress st) -> UserProgress.lesson_id p = Some lessonId ->
     exists pre post,
       Store.user_progress db = pre ++ p :: post /\
       toggleLessonCompletion e lessonId (db, st)
       = (Store.with_user_progress db
            (pre
               ++ UserProgress.Build
                    (UserProgress.id p) (UserProgress.user_id p)
                    (UserProgress.course_id p) (UserProgress.lesson_id p)
                    (negb (UserProgress.completed p))
                    (if UserProgress.completed p then None
                     else Some (completed_at_date e))
                    (UserProgress.created_at p) (updated_at_date e)
               :: post),
          loadCourseData
            (Store.with_user_progress db
               (pre
                  ++ UserProgress.Build
                       (UserProgress.id p) (UserProgress.user_id p)
                       (UserProgress.course_id p) (UserProgress.lesson_id p)
                       (negb (UserProgress.completed p))
                       (if UserProgress.completed p then None
                        else Some (completed_at_date e))
                       (UserProgress.created_at p) (updated_at_date e)
                  :: post))
            st)) /\
  ((forall p, In p (progress st) ->
              UserProgress.lesson_id p <> Some lessonId) ->
   In u (map AuthUser.id (Store.auth_users db)) ->
   In (courseId st) (map Course.id (Store.courses db)) ->
   In lessonId (map Lesson.id (Store.lessons db)) ->
   ~ In (Store.gen_random_uuid (store_defaults e))
        (map UserProgress.id (Store.user_progress db)) ->
   toggleLessonCompletion e lessonId (db, st)
   = (Store.with_user_progress db
        (Store.user_progress db
           ++ [UserProgress.Build
                 (Store.gen_random_uuid (store_defaults e)) u (courseId st)
                 (Some lessonId) true (Some (completed_at_date e))
                 (Store.now (store_defaults e))
                 (Store.now (store_defaults e))]),
      loadCourseData
        (Store.with_user_progress db
           (Store.user_progress db
              ++ [UserProgress.Build
                    (Store.gen_random_uuid (store_defaults e)) u (courseId st)
                    (Some lessonId) true (Some (completed_at_date e))
                    (Store.now (store_defaults e))
                    (Store.now (store_defaults e))]))
        st)).
Proof.
  intros Hw Hu Huniq. split.
  - intros p Hp Hl.
    destruct (toggle_found e lessonId db st u p Hw Hu Huniq Hp Hl
                _ _ _ eq_refl eq_refl eq_refl) as (_ & Htoggle & _).
    destruct (update_rows_split db st u
                (Store.Changes
                   (negb (UserProgress.completed p))
                   (if negb (UserProgress.completed p)
                    then Some (completed_at_date e) else None)
                   (updated_at_date e)) p Hw Hu Hp)
      as (pre & post & Hrows & Hmap).
    exists pre, post. split; [exact Hrows | ].
    rewrite Htoggle, Hu, update_by_id, Hmap. cbn [after_write].
    unfold Store.apply_changes.
    cbn [Store.c_completed Store.c_completed_at Store.c_updated_at].
    destruct (UserProgress.completed p); reflexivity.
  - intros Hnone Hau Hco Hle Hfresh.
    assert (List.find (for_lesson (Some lessonId)) (progress st) = None)
      as Hfind.
    { destruct (List.find _ _) as [q | ] eqn:Hfind; [ | reflexivity ].
      apply find_some in Hfind as [Hq Hl]. apply strict_eq_true in Hl.
      destruct (Hnone q Hq Hl). }
    rewrite (toggle_signed_in e lessonId db st u Hu), Hfind, Hu.
    rewrite insert_accepted by assumption. reflexivity.
Qed.

Lemma toggleLessonCompletion_flips_or_creates_witness :
  consistent (Sample.store 2 1, Sample.page 2 1) /\
  user (Sample.page 2 1) = Some Sample.alice /\
  at_most_one_per_tuple (progress (Sample.page 2 1)) /\
  exists pre post,
    Store.user_progress
      (fst (toggleLessonCompletion (Sample.at_time 2000 "n") "A"
              (Sample.store 2 1, Sample.page 2 1)))
    = pre
        ++ UserProgress.Build "pA" Sample.alice "C" (Some "A"%string)
             false None 1000 2001
        :: post.
Proof.
  assert (consistent (Sample.store 2 1, Sample.page 2 1)) as Hc
    by (apply sample_consistent; lia).
  assert (at_most_one_per_tuple (progress (Sample.page 2 1))) as Hu
    by (repeat constructor; intros []).
  split; [exact Hc | ]. split; [reflexivity | ]. split; [exact Hu | ].
  destruct (proj1 (toggleLessonCompletion_flips_or_creates
                     (Sample.at_time 2000 "n") "A" (Sample.store 2 1)
                     (Sample.page 2 1) Sample.alice Hc eq_refl Hu)
                  (Sample.completed_record 0)
                  (or_introl eq_refl) eq_refl)
    as (pre & post & _ & Htoggle).
  exists pre, post. rewrite Htoggle. reflexivity.
Defined.

(** C4, as amended: with at most one Progress Record per tuple, toggling a
    lesson twice leaves one record of the lesson, returns the derived
    lesson-completed flag to its original value, and leaves [completed_at]
    null when the lesson was not completed at the start; when it was
    completed at the start, [completed_at] is the date of the second
    toggle. *)
Theorem toggle_twice_restores_flag
    (e1 e2 : env) (lessonId : uuid) (db : Store.t) (st : State) (u : uuid) :
  consistent (db, st) -> user st = Some u ->
  at_most_one_per_tuple (progress st) ->
  In u (map AuthUser.id (Store.auth_users db)) ->
  In (courseId st) (map Course.id (Store.courses db)) ->
  In lessonId (map Lesson.id (Store.lessons db)) ->
  ~ In (Store.gen_random_uuid (store_defaults e1))
       (map UserProgress.id (Store.user_progress db)) ->
  exists p,
    In p (progress (snd (toggleLessonCompletion e2 lessonId
                           (toggleLessonCompletion e1 lessonId (db, st))))) /\
    UserProgress.lesson_id p = Some lessonId /\
    (forall r,
       In r (progress
               (snd (toggleLessonCompletion e2 lessonId
                       (toggleLessonCompletion e1 lessonId (db, st))))) ->
       UserProgress.lesson_id r = Some lessonId -> r = p) /\
    isLessonCompleted
      (snd (toggleLessonCompletion e2 lessonId
              (toggleLessonCompletion e1 lessonId (db, st)))) lessonId
    = isLessonCompleted st lessonId /\
    UserProgress.completed p = isLessonCompleted st lessonId /\
    UserProgress.completed_at p
    = if isLessonCompleted st lessonId then Some (completed_at_date e2)
      else None.
Proof.
  intros Hw Hu Huniq Hau Hco Hle Hfresh.
  (* the first toggle leaves a world with one record [p1] of the lesson,
     whose flag is the negation of the original one *)
  assert (exists p1,
            let w1 := toggleLessonCompletion e1 lessonId (db, st) in
            consistent w1 /\ user (snd w1) = Some u /\
            at_most_one_per_tuple (progress (snd w1)) /\
            In p1 (progress (snd w1)) /\
            UserProgress.lesson_id p1 = Some lessonId /\
            UserProgress.completed p1 = negb (isLessonCompleted st lessonId))
    as (p1 & H1).
  { destruct (List.find (for_lesson (Some lessonId)) (progress st))
      as [p | ] eqn:Hfind.
    - apply find_some in Hfind as [Hp Hl]. apply strict_eq_true in Hl.
      destruct (toggle_found e1 lessonId db st u p Hw Hu Huniq Hp Hl
                  _ _ _ eq_refl eq_refl eq_refl)
        as (Hflag & _ & Hc & Hu' & _ & Huniq' & Hin).
      eexists. cbn zeta. repeat (split; [eassumption | ]).
      rewrite Hflag. reflexivity.
    - destruct (insert_step_accepted db st u (store_defaults e1)
                  (Some lessonId) (Some (completed_at_date e1))
                  Hw Hu Hfind Hau Hco Hle Hfresh _ _ eq_refl eq_refl)
        as (Hc & Hu' & _ & _ & Hprog & Huniq').
      assert (toggleLessonCompletion e1 lessonId (db, st)
              = after_write st db
                  (Store.insert_user_progress db (user st) (store_defaults e1)
                     (Store.Values u (courseId st) (Some lessonId) true
                        (Some (completed_at_date e1))))) as Heq
        by (rewrite (toggle_signed_in e1 lessonId db st u Hu), Hfind;
            reflexivity).
      rewrite <- Heq in Hc, Hu', Hprog, Huniq'.
      exists (Store.new_user_progress (store_defaults e1)
                (Store.Values u (courseId st) (Some lessonId) true
                   (Some (completed_at_date e1)))).
      cbn zeta. split; [exact Hc | ]. split; [exact Hu' | ].
      split; [exact (Huniq' Huniq) | ].
      split; [rewrite Hprog; apply in_elt | ].
      split; [reflexivity | ].
      unfold isLessonCompleted.
      replace (existsb _ (progress st)) with false; [reflexivity | ].
      symmetry. apply not_true_is_false. intros H.
      apply existsb_exists in H as (r & Hr & Hrc).
      apply andb_true_iff in Hrc as [Hrl _].
      rewrite (find_none _ _ Hfind r Hr) in Hrl. discriminate Hrl. }
  cbn zeta in H1. destruct H1 as (Hc1 & Hu1 & Huniq1 & Hin1 & Hl1 & Hflag1).
  destruct (toggleLessonCompletion e1 lessonId (db, st)) as [db1 st1] eqn:Hw1.
  cbn [snd] in *.
  destruct (toggle_found e2 lessonId db1 st1 u p1 Hc1 Hu1 Huniq1 Hin1 Hl1
              _ _ _ eq_refl eq_refl eq_refl)
    as (Hflag & _ & Hc2 & Hu2 & _ & Huniq2 & Hin2).
  destruct (toggleLessonCompletion e2 lessonId (db1, st1))
    as [db2 st2] eqn:Hw2.
  cbn [snd] in *.
  eexists. split; [exact Hin2 | ]. split; [exact Hl1 | ].
  split; [ | split; [ | split ] ].
  - intros r Hr Hrl.
    apply (unique_by_lesson db2 st2 u); auto.
    rewrite Hrl. symmetry. exact Hl1.
  - destruct (find_unique_record db2 st2 u (Some lessonId) _
                Hc2 Hu2 Huniq2 Hin2 Hl1) as [_ Hflag2].
    fold (isLessonCompleted st2 lessonId) in Hflag2. rewrite Hflag2.
    cbn. rewrite Hflag1. apply negb_involutive.
  - cbn. rewrite Hflag1. apply negb_involutive.
  - cbn. rewrite Hflag1, negb_involutive.
    destruct (isLessonCompleted st lessonId); reflexivity.
Qed.

Lemma toggle_twice_restores_flag_witness :
  consistent (Sample.store 2 1, Sample.page 2 1) /\
  user (Sample.page 2 1) = Some Sample.alice /\
  at_most_one_per_tuple (progress (Sample.page 2 1)) /\
  In Sample.alice (map AuthUser.id (Store.auth_users (Sample.store 2 1))) /\
  In (courseId (Sample.page 2 1))
     (map Course.id (Store.courses (Sample.store 2 1))) /\
  In "A"%string (map Lesson.id (Store.lessons (Sample.store 2 1))) /\
  ~ In (Store.gen_random_uuid (store_defaults (Sample.at_time 2000 "n1")))
       (map UserProgress.id (Store.user_progress (Sample.store 2 1))) /\
  isLessonCompleted
    (snd (toggleLessonCompletion (Sample.at_time 3000 "n2") "A"
            (toggleLessonCompletion (Sample.at_time 2000 "n1") "A"
               (Sample.store 2 1, Sample.page 2 1)))) "A"
  = isLessonCompleted (Sample.page 2 1) "A".
Proof.
  assert (consistent (Sample.store 2 1, Sample.page 2 1)) as Hc
    by (apply sample_consistent; lia).
  assert (at_most_one_per_tuple (progress (Sample.page 2 1))) as Hu
    by (repeat constructor; intros []).
  assert (~ In (Store.gen_random_uuid
                  (store_defaults (Sample.at_time 2000 "n1")))
            (map UserProgress.id (Store.user_progress (Sample.store 2 1))))
    as Hfresh by (cbn; intuition discriminate).
  split; [exact Hc | ]. split; [reflexivity | ]. split; [exact Hu | ].
  split; [left; reflexivity | ]. split; [left; reflexivity | ].
  split; [left; reflexivity | ]. split; [exact Hfresh | ].
  destruct (toggle_twice_restores_flag
              (Sample.at_time 2000 "n1") (Sample.at_time 3000 "n2") "A"
              (Sample.store 2 1) (Sample.page 2 1) Sample.alice
              Hc eq_refl Hu (or_introl eq_refl) (or_introl eq_refl)
              (or_introl eq_refl) Hfresh)
    as (p & _ & _ & _ & Hflag & _).
  exact Hflag.
Defined.

(** C4, as stated, fails for a lesson that is completed at the start: the
    second toggle completes it again and stamps it. *)
Lemma toggle_twice_keeps_timestamp :
  consistent (Sample.store 2 1, Sample.page 2 1) /\
  at_most_one_per_tuple (progress (Sample.page 2 1)) /\
  isLessonCompleted (Sample.page 2 1) "A" = true /\
  List.filter (for_lesson (Some "A"%string))
    (progress
       (snd (toggleLessonCompletion (Sample.at_time 3000 "n2") "A"
               (toggleLessonCompletion (Sample.at_time 2000 "n1") "A"
                  (Sample.store 2 1, Sample.page 2 1)))))
  = [UserProgress.Build "pA" Sample.alice "C" (Some "A"%string)
       true (Some 3000) 1000 3001] /\
  Some 3000 <> (None : option timestamptz).
Proof.
  split; [apply sample_consistent; lia | ].
  split; [repeat constructor; intros [] | ].
  split; [reflexivity | ]. split; [reflexivity | discriminate].
Qed.

(** C5: [markCourseCompleted] sets [completed = true] and [completed_at] to
    the date of the action on the caller's record with a null lesson
    reference, or inserts such a record when there is none; a second call
    updates that same record, inserts nothing, keeps the flag and moves
    [completed_at] to a date that is not earlier; and no sequence of
    actions of the page clears the course-completed flag. *)
Theorem markCourseCompleted_idempotent
    (e1 e2 : env) (db : Store.t) (st : State) (u : uuid) :
  consistent (db, st) -> user st = Some u ->
  In u (map AuthUser.id (Store.auth_users db)) ->
  In (courseId st) (map Course.id (Store.courses db)) ->
  ~ In (Store.gen_random_uuid (store_defaults e1))
       (map UserProgress.id (Store.user_progress db)) ->
  (completed_at_date e1 <= completed_at_date e2)%Z ->
  (* the first call updates the record of the course, or inserts it *)
  match List.find (for_lesson None) (progress st) with
  | Some p =>
      exists pre post,
        Store.user_progress db = pre ++ p :: post /\
        Store.user_progress (fst (markCourseCompleted e1 (db, st)))
        = pre
            ++ UserProgress.Build
                 (UserProgress.id p) (UserProgress.user_id p)
                 (UserProgress.course_id p) None true
                 (Some (completed_at_date e1))
                 (UserProgress.created_at p) (updated_at_date e1)
            :: post
  | None =>
      Store.user_progress (fst (markCourseCompleted e1 (db, st)))
      = Store.user_progress db
          ++ [UserProgress.Build
                (Store.gen_random_uuid (store_defaults e1)) u (courseId st)
                None true (Some (completed_at_date e1))
                (Store.now (store_defaults e1))
                (Store.now (store_defaults e1))]
  end /\
  isCourseCompleted (snd (markCourseCompleted e1 (db, st))) = true /\
  (* the second call updates that record and inserts nothing *)
  (exists p1 pre post t1 t2,
     Store.user_progress (fst (markCourseCompleted e1 (db, st)))
     = pre ++ p1 :: post /\
     UserProgress.lesson_id p1 = None /\
     UserProgress.completed_at p1 = Some t1 /\
     Store.user_progress
       (fst (markCourseCompleted e2 (markCourseCompleted e1 (db, st))))
     = pre
         ++ UserProgress.Build
              (UserProgress.id p1) (UserProgress.user_id p1)
              (UserProgress.course_id p1) None true (Some t2)
              (UserProgress.created_at p1) (updated_at_date e2)
         :: post /\
     (t1 <= t2)%Z) /\
  isCourseCompleted
    (snd (markCourseCompleted e2 (markCourseCompleted e1 (db, st)))) = true /\
  (* and no later action clears the flag *)
  (forall eas,
     isCourseCompleted (snd (run eas (markCourseCompleted e1 (db, st))))
     = true).
Proof.
  intros Hw Hu Hau Hco Hfresh Hle.
  destruct (mark_first e1 db st u Hw Hu Hau Hco Hfresh)
    as (Hc1 & Hu1 & p1 & Hfind1 & Hdone1 & Hat1).
  pose proof (find_course_flag _ _ Hfind1 Hdone1) as Hflag1.
  split; [ | split; [exact Hflag1 | split; [ | split ] ] ].
  - rewrite (mark_signed_in e1 db st u Hu).
    destruct (List.find (for_lesson None) (progress st)) as [p | ] eqn:Hfind.
    + apply find_some in Hfind as [Hp Hl]. apply strict_eq_true in Hl.
      destruct (update_rows_split db st u
                  (Store.Changes true (Some (completed_at_date e1))
                     (updated_at_date e1)) p Hw Hu Hp)
        as (pre & post & Hrows & Hmap).
      exists pre, post. split; [exact Hrows | ].
      rewrite Hu, update_by_id, Hmap. cbn [after_write fst].
      cbn [Store.user_progress Store.with_user_progress].
      unfold Store.apply_changes. cbn. rewrite Hl. reflexivity.
    + rewrite Hu, insert_accepted by (assumption || exact I). reflexivity.
  - destruct (markCourseCompleted e1 (db, st)) as [db1 st1] eqn:Hw1.
    cbn [fst snd] in *.
    pose proof Hfind1 as Hfind1'.
    apply find_some in Hfind1' as [Hp1 Hl1]. apply strict_eq_true in Hl1.
    destruct (update_rows_split db1 st1 u
                (Store.Changes true (Some (completed_at_date e2))
                   (updated_at_date e2)) p1 Hc1 Hu1 Hp1)
      as (pre & post & Hrows & Hmap).
    exists p1, pre, post, (completed_at_date e1), (completed_at_date e2).
    split; [exact Hrows | ]. split; [exact Hl1 | ]. split; [exact Hat1 | ].
    split; [ | exact Hle ].
    rewrite (mark_signed_in e2 db1 st1 u Hu1), Hfind1, Hu1, update_by_id,
      Hmap.
    cbn [after_write fst Store.user_progress Store.with_user_progress].
    unfold Store.apply_changes. cbn. rewrite Hl1. reflexivity.
  - apply mark_course_flag; assumption.
  - intros eas. apply run_course_flag; assumption.
Qed.

Lemma markCourseCompleted_idempotent_witness :
  consistent (Sample.store 2 1, Sample.page 2 1) /\
  user (Sample.page 2 1) = Some Sample.alice /\
  In Sample.alice (map AuthUser.id (Store.auth_users (Sample.store 2 1))) /\
  In (courseId (Sample.page 2 1))
     (map Course.id (Store.courses (Sample.store 2 1))) /\
  ~ In (Store.gen_random_uuid (store_defaults (Sample.at_time 2000 "n1")))
       (map UserProgress.id (Store.user_progress (Sample.store 2 1))) /\
  completed_at_date (Sample.at_time 2000 "n1")
  <= completed_at_date (Sample.at_time 3000 "n2") /\
  isCourseCompleted
    (snd (markCourseCompleted (Sample.at_time 3000 "n2")
            (markCourseCompleted (Sample.at_time 2000 "n1")
               (Sample.store 2 1, Sample.page 2 1))))
  = true.
Proof.
  assert (consistent (Sample.store 2 1, Sample.page 2 1)) as Hc
    by (apply sample_consistent; lia).
  assert (~ In (Store.gen_random_uuid
                  (store_defaults (Sample.at_time 2000 "n1")))
            (map UserProgress.id (Store.user_progress (Sample.store 2 1))))
    as Hfresh by (cbn; intuition discriminate).
  assert (completed_at_date (Sample.at_time 2000 "n1")
          <= completed_at_date (Sample.at_time 3000 "n2")) as Hle
    by (cbn; lia).
  split; [exact Hc | ]. split; [reflexivity | ].
  split; [left; reflexivity | ]. split; [left; reflexivity | ].
  split; [exact Hfresh | ]. split; [exact Hle | ].
  exact (proj1 (proj2 (proj2 (proj2
           (markCourseCompleted_idempotent
              (Sample.at_time 2000 "n1") (Sample.at_time 3000 "n2")
              (Sample.store 2 1) (Sample.page 2 1) Sample.alice
              Hc eq_refl (or_introl eq_refl) (or_introl eq_refl)
              Hfresh Hle))))).
Defined.

(** C6: toggling lessons, once or any number of times, leaves the
    course-completed flag as it is: completing every lesson does not set
    it, and once [markCourseCompleted] has set it, toggling lessons back
    does not clear it. *)
Theorem course_flag_independent_of_lessons (w : world) :
  consistent w ->
  (forall e lessonId,
     isCourseCompleted (snd (toggleLessonCompletion e lessonId w))
     = isCourseCompleted (snd w)) /\
  (forall toggles : list (env * uuid),
     isCourseCompleted
       (snd (run (map (fun t => (fst t, ToggleLesson (snd t))) toggles) w))
     = isCourseCompleted (snd w)) /\
  (forall e (toggles : list (env * uuid)),
     isCourseCompleted (snd (markCourseCompleted e w)) = true ->
     isCourseCompleted
       (snd (run (map (fun t => (fst t, ToggleLesson (snd t))) toggles)
               (markCourseCompleted e w)))
     = true).
Proof.
  assert (forall (toggles : list (env * uuid)) w0,
            consistent w0 ->
            isCourseCompleted
              (snd (run (map (fun t => (fst t, ToggleLesson (snd t))) toggles)
                      w0))
            = isCourseCompleted (snd w0)) as Hrun.
  { induction toggles as [ | t toggles IH ]; intros w0 Hw0; [reflexivity | ].
    cbn [map run fold_left]. unfold act at 2. cbn [fst snd].
    fold (run (map (fun t => (fst t, ToggleLesson (snd t))) toggles)
              (toggleLessonCompletion (fst t) (snd t) w0)).
    rewrite IH by (apply toggle_consistent; exact Hw0).
    apply toggle_course_flag. exact Hw0. }
  intros Hw. split; [ | split ].
  - intros e lessonId. apply toggle_course_flag. exact Hw.
  - intros toggles. apply Hrun. exact Hw.
  - intros e toggles Hflag. rewrite Hrun; [exact Hflag | ].
    apply mark_consistent. exact Hw.
Qed.

Lemma course_flag_independent_of_lessons_witness :
  consistent (Sample.store 2 1, Sample.page 2 1) /\
  isCourseCompleted
    (snd (toggleLessonCompletion (Sample.at_time 2000 "n") "B"
            (Sample.store 2 1, Sample.page 2 1)))
  = isCourseCompleted (snd (Sample.store 2 1, Sample.page 2 1)).
Proof.
  assert (consistent (Sample.store 2 1, Sample.page 2 1)) as Hc
    by (apply sample_consistent; lia).
  split; [exact Hc | ].
  exact (proj1 (course_flag_independent_of_lessons _ Hc)
           (Sample.at_time 2000 "n") "B"%string).
Defined.

(** The scenario of the course with two lessons: toggle [A], toggle [B],
    mark the course, toggle [A] back. *)
Lemma scenario_two_lessons :
  map (fun w => (calculateProgress (snd w), isCourseCompleted (snd w)))
    [ run [ (Sample.at_time 10 "n1", ToggleLesson "A") ]
        (Sample.store 2 0, Sample.page 2 0);
      run [ (Sample.at_time 10 "n1", ToggleLesson "A");
            (Sample.at_time 20 "n2", ToggleLesson "B") ]
        (Sample.store 2 0, Sample.page 2 0);
      run [ (Sample.at_time 10 "n1", ToggleLesson "A");
            (Sample.at_time 20 "n2", ToggleLesson "B");
            (Sample.at_time 30 "n3", MarkCourse) ]
        (Sample.store 2 0, Sample.page 2 0);
      run [ (Sample.at_time 10 "n1", ToggleLesson "A");
            (Sample.at_time 20 "n2", ToggleLesson "B");
            (Sample.at_time 30 "n3", MarkCourse);
            (Sample.at_time 40 "n4", ToggleLesson "A") ]
        (Sample.store 2 0, Sample.page 2 0) ]
  = [ (of_Z 50, false); (of_Z 100, false); (of_Z 100, true);
      (of_Z 50, true) ].
Proof. vm_compute. reflexivity. Qed.

(** C7, as amended: the module throws the configuration error, before
    [createClient] is called, exactly when either setting is absent or is
    the empty string; when both are present and not empty the guard passes
    and [createClient] is called with these two values: the module exports
    the client that the call returns, and fails with the exception of the
    call when it throws. This holds whatever the client library does. *)
Theorem load_throws_iff_missing_or_empty {Client : Type}
    (createClient : string -> string -> Supabase.call Client)
    (env : gmap string string) :
  ((env !! "VITE_SUPABASE_URL"%string = None \/
    env !! "VITE_SUPABASE_URL"%string = Some ""%string \/
    env !! "VITE_SUPABASE_ANON_KEY"%string = None \/
    env !! "VITE_SUPABASE_ANON_KEY"%string = Some ""%string) <->
   Supabase.load createClient env
   = Supabase.Throw "Missing Supabase environment variables") /\
  (forall url key,
     env !! "VITE_SUPABASE_URL"%string = Some url ->
     env !! "VITE_SUPABASE_ANON_KEY"%string = Some key ->
     url <> ""%string -> key <> ""%string ->
     Supabase.load createClient env
     = match createClient url key with
       | Supabase.Returns client => Supabase.Export client
       | Supabase.Throws error => Supabase.createClient_throws error
       end).
Proof.
  unfold Supabase.load, Supabase.not_string. cbn zeta. split.
  - destruct (env !! "VITE_SUPABASE_URL"%string) as [url | ];
      [ | split; auto ].
    destruct (env !! "VITE_SUPABASE_ANON_KEY"%string) as [key | ];
      [ | split; auto ].
    destruct (String.eqb url "") eqn:Hu;
      [apply String.eqb_eq in Hu; subst url; split; auto | ].
    destruct (String.eqb key "") eqn:Hk;
      [apply String.eqb_eq in Hk; subst key; split; auto 6 | ].
    apply String.eqb_neq in Hu, Hk. cbn [orb]. split.
    + intros [H | [H | [H | H]]]; congruence.
    + destruct (createClient url key); discriminate.
  - intros url key -> -> Hu Hk.
    apply String.eqb_neq in Hu. apply String.eqb_neq in Hk.
    rewrite Hu, Hk. reflexivity.
Qed.

Lemma load_throws_iff_missing_or_empty_witness :
  Supabase.load Sample.accepting Sample.configured
  = Supabase.Export (Sample.Client "https://store.example.org" "anon-key") /\
  Supabase.load Sample.validating Sample.malformed_location
  = Supabase.createClient_throws "Invalid supabaseUrl".
Proof.
  split.
  - apply (proj2 (load_throws_iff_missing_or_empty Sample.accepting
                    Sample.configured)
             "https://store.example.org"%string "anon-key"%string);
      (reflexivity || discriminate).
  - apply (proj2 (load_throws_iff_missing_or_empty Sample.validating
                    Sample.malformed_location)
             "store.example.org"%string "anon-key"%string);
      (reflexivity || discriminate).
Defined.

(** C7, as stated, fails when a setting is present but empty: both settings
    are present and the module still throws. *)
Lemma load_empty_location :
  is_Some (Sample.empty_location !! "VITE_SUPABASE_URL"%string) /\
  is_Some (Sample.empty_location !! "VITE_SUPABASE_ANON_KEY"%string) /\
  Supabase.load Sample.accepting Sample.empty_location
  = Supabase.Throw "Missing Supabase environment variables".
Proof.
  split; [ | split ].
  - exists ""%string. reflexivity.
  - exists "anon-key"%string. reflexivity.
  - reflexivity.
Qed.

(** C8: a SELECT of one account on Progress Records or on Account Profiles
    returns only rows whose owner is that account, hence none of another
    account; the SELECT policies accept a row exactly when its owner is the
    identity of the session; no policy on Progress Records is for DELETE,
    and a DELETE removes nothing. *)
Theorem accounts_read_only_their_own_rows
    (db : Store.t) (a b : uuid)
    (where_progress : UserProgress.t -> bool)
    (where_profile : Profile.t -> bool) :
  a <> b ->
  (forall r,
     In r (Store.select RLS.user_progress_policies (Some a)
             (Store.user_progress db) where_progress) ->
     UserProgress.user_id r = a /\ UserProgress.user_id r <> b) /\
  (forall r,
     In r (Store.select RLS.profiles_policies (Some a)
             (Store.profiles db) where_profile) ->
     Profile.id r = a /\ Profile.id r <> b) /\
  (forall s r,
     RLS.permits_using RLS.user_progress_policies RLS.SELECT s r = true <->
     s = Some (UserProgress.user_id r)) /\
  (forall s r,
     RLS.permits_using RLS.profiles_policies RLS.SELECT s r = true <->
     s = Some (Profile.id r)) /\
  (forall p, In p RLS.user_progress_policies ->
             RLS.pol_for p <> RLS.DELETE) /\
  (forall s where_,
     Store.delete RLS.user_progress_policies s (Store.user_progress db) where_
     = Store.user_progress db).
Proof.
  intros Hab.
  assert (forall s x, RLS.uid_is s x = true <-> s = Some x) as Huid.
  { intros [u | ] x; cbn [RLS.uid_is].
    - rewrite String.eqb_eq. split; congruence.
    - split; discriminate. }
  assert (forall r,
            In r (Store.select RLS.user_progress_policies (Some a)
                    (Store.user_progress db) where_progress) ->
            UserProgress.user_id r = a) as Hprogress.
  { intros r H. apply filter_In in H as [_ H].
    apply andb_true_iff in H as [H _].
    rewrite user_progress_select in H. apply Huid in H. congruence. }
  assert (forall r,
            In r (Store.select RLS.profiles_policies (Some a)
                    (Store.profiles db) where_profile) ->
            Profile.id r = a) as Hprofile.
  { intros r H. apply filter_In in H as [_ H].
    apply andb_true_iff in H as [H _].
    rewrite profiles_select in H. apply Huid in H. congruence. }
  split; [ | split; [ | split; [ | split; [ | split ] ] ] ].
  - intros r H. rewrite (Hprogress r H). auto.
  - intros r H. rewrite (Hprofile r H). auto.
  - intros s r. rewrite user_progress_select. apply Huid.
  - intros s r. rewrite profiles_select. apply Huid.
  - intros p H Hd. cbn in H.
    destruct H as [<- | [<- | [<- | []]]]; discriminate Hd.
  - intros s where_. apply delete_user_progress_nothing.
Qed.

Lemma accounts_read_only_their_own_rows_witness :
  Sample.alice <> Sample.bob /\
  UserProgress.user_id (Sample.completed_record 0) = Sample.alice /\
  UserProgress.user_id (Sample.completed_record 0) <> Sample.bob.
Proof.
  assert (Sample.alice <> Sample.bob) as Hab by discriminate.
  split; [exact Hab | ].
  apply (proj1 (accounts_read_only_their_own_rows
                  (Sample.store 2 1) Sample.alice Sample.bob
                  (fun _ => true) (fun _ => true) Hab)).
  left. reflexivity.
Defined.

(** C9: creating an identity runs the trigger in the same statement. The
    statement succeeds for a new identifier with an email address, and
    whenever it succeeds the store holds exactly one Account Profile with
    the identifier of the new identity, added by the trigger, with the
    email of the identity and with the display name of the signup
    metadata; the display name is the empty string when there is no
    metadata, when the metadata is no object, and when its [full_name] is
    missing or null. *)
Theorem new_identity_gets_one_profile
    (db : Store.t) (d : Store.defaults) (new : AuthUser.t) :
  Store.profiles_fkey db ->
  (~ In (AuthUser.id new) (map AuthUser.id (Store.auth_users db)) ->
   AuthUser.email new <> None ->
   exists db', Store.on_auth_user_created db d new = Store.Data db') /\
  (forall db',
     Store.on_auth_user_created db d new = Store.Data db' ->
     exists row,
       Store.auth_users db' = Store.auth_users db ++ [new] /\
       Store.profiles db' = Store.profiles db ++ [row] /\
       List.filter (fun p => String.eqb (Profile.id p) (AuthUser.id new))
                   (Store.profiles db') = [row] /\
       Profile.id row = AuthUser.id new /\
       AuthUser.email new = Some (Profile.email row) /\
       (forall members name,
          AuthUser.raw_user_meta_data new = Some (JObject members) ->
          members !! "full_name"%string = Some (JString name) ->
          Profile.full_name row = name) /\
       (AuthUser.raw_user_meta_data new = None ->
        Profile.full_name row = ""%string) /\
       (forall members,
          AuthUser.raw_user_meta_data new = Some (JObject members) ->
          members !! "full_name"%string = None \/
          members !! "full_name"%string = Some JNull ->
          Profile.full_name row = ""%string) /\
       (AuthUser.raw_user_meta_data new = Some JNonObject ->
        Profile.full_name row = ""%string) /\
       (forall members text,
          AuthUser.raw_user_meta_data new = Some (JObject members) ->
          members !! "full_name"%string = Some (JOther text) ->
          Profile.full_name row = text)).
Proof.
  intros Hfk.
  assert (~ In (AuthUser.id new) (map AuthUser.id (Store.auth_users db)) ->
          ~ In (AuthUser.id new) (map Profile.id (Store.profiles db)))
    as Hnone.
  { intros Hfresh Hin. apply in_map_iff in Hin as (p & Hid & Hp).
    apply Hfresh. rewrite <- Hid. apply Hfk. exact Hp. }
  assert (Store.has_id (map AuthUser.id (Store.auth_users db ++ [new]))
            (AuthUser.id new) = true) as Hself.
  { apply has_id_true. rewrite map_app. apply in_or_app.
    right. left. reflexivity. }
  unfold Store.on_auth_user_created, Store.handle_new_user.
  cbn [Profile.id Store.profiles Store.with_auth_users Store.auth_users].
  rewrite Hself. cbn [negb]. split.
  - intros Hfresh Hemail. specialize (Hnone Hfresh).
    apply has_id_false in Hfresh, Hnone. rewrite Hfresh, Hnone.
    destruct (AuthUser.email new) as [email | ]; [ | contradiction ].
    eexists. reflexivity.
  - intros db'.
    destruct (Store.has_id (map AuthUser.id (Store.auth_users db))
                (AuthUser.id new)) eqn:Hfresh; [discriminate | ].
    apply has_id_false in Hfresh. specialize (Hnone Hfresh).
    destruct (AuthUser.email new) as [email | ]; [ | discriminate ].
    pose proof Hnone as Hnone'. apply has_id_false in Hnone'.
    rewrite Hnone'. intros H. inversion H as [Hdb]. clear H Hdb.
    eexists.
    cbn [Store.with_profiles Store.auth_users Store.profiles
         Profile.id Profile.email Profile.full_name].
    split; [reflexivity | ]. split; [reflexivity | ].
    split; [ | split; [reflexivity | split; [reflexivity | ] ] ].
    + rewrite List.filter_app. cbn [List.filter Profile.id].
      rewrite String.eqb_refl, filter_none; [reflexivity | ].
      intros p Hp. apply String.eqb_neq. intros Hid. apply Hnone.
      rewrite <- Hid. apply in_map. exact Hp.
    + split; [ | split; [ | split; [ | split ] ] ].
      * intros members name -> Hname. cbn [json_get_text]. rewrite Hname.
        reflexivity.
      * intros ->. reflexivity.
      * intros members -> [Hname | Hname]; cbn [json_get_text];
          rewrite Hname; reflexivity.
      * intros ->. reflexivity.
      * intros members text -> Hname. cbn [json_get_text]. rewrite Hname.
        reflexivity.
Qed.

Lemma new_identity_gets_one_profile_witness :
  Store.profiles_fkey (Sample.store 0 0) /\
  (exists db' row,
     Store.on_auth_user_created (Sample.store 0 0) (Store.Defaults 7 "")
       Sample.carol = Store.Data db' /\
     List.filter (fun p => String.eqb (Profile.id p) "carol")
                 (Store.profiles db') = [row] /\
     Profile.full_name row = "Carol"%string) /\
  (exists db' row,
     Store.on_auth_user_created (Sample.store 0 0) (Store.Defaults 7 "")
       Sample.frank = Store.Data db' /\
     List.filter (fun p => String.eqb (Profile.id p) "frank")
                 (Store.profiles db') = [row] /\
     Profile.full_name row = ""%string).
Proof.
  assert (Store.profiles_fkey (Sample.store 0 0)) as Hfk.
  { intros p [<- | [<- | []]]; cbn; auto. }
  split; [exact Hfk | ]. split.
  - destruct (new_identity_gets_one_profile (Sample.store 0 0)
                (Store.Defaults 7 "") Sample.carol Hfk) as [Hruns Hrow].
    destruct Hruns as [db' Hdb'].
    + cbn. intuition discriminate.
    + discriminate.
    + destruct (Hrow db' Hdb')
        as (row & _ & _ & Hone & _ & _ & Hname & _).
      exists db', row. split; [exact Hdb' | ]. split; [exact Hone | ].
      apply (Hname {[ "full_name"%string := JString "Carol" ]});
        reflexivity.
  - destruct (new_identity_gets_one_profile (Sample.store 0 0)
                (Store.Defaults 7 "") Sample.frank Hfk) as [Hruns Hrow].
    destruct Hruns as [db' Hdb'].
    + cbn. intuition discriminate.
    + discriminate.
    + destruct (Hrow db' Hdb')
        as (row & _ & _ & Hone & _ & _ & _ & _ & Hmissing & _).
      exists db', row. split; [exact Hdb' | ]. split; [exact Hone | ].
      apply (Hmissing {[ "locale"%string := JString "en" ]});
        [reflexivity | left; reflexivity].
Defined.

(** C10: for every list of lessons (a JavaScript array has fewer than 2^32
    elements) and every list of Progress Records, duplicates included, the
    completion percentage is an integer between 0 and 100: the completed
    lessons are counted by filtering the lessons, so the quotient is at
    most 1, and correct rounding keeps the quotient, its product with 100
    and the result of [Math.round] within the bounds. *)
Theorem calculateProgress_between_0_and_100 (st : State) :
  Z.of_nat (length (lessons st)) < 2 ^ 53 ->
  exists k, 0 <= k <= 100 /\ calculateProgress st = of_Z k.
Proof.
  intros Hlen. unfold calculateProgress.
  destruct (Nat.eqb (length (lessons st)) 0) eqn:Hzero.
  - exists 0. split; [lia | reflexivity].
  - apply Nat.eqb_neq in Hzero.
    set (done := List.filter _ (lessons st)).
    assert (length done <= length (lessons st))%nat as Hle
      by apply List.filter_length_le.
    apply Math_round_at_most, mul_100_at_most. unfold of_nat.
    destruct (Nat.eq_dec (length done) 0%nat) as [Hnone | Hsome].
    + rewrite Hnone. change (of_Z (Z.of_nat 0%nat)) with (S754_zero false).
      destruct (of_Z_pos (Z.of_nat (length (lessons st))) ltac:(lia))
        as (m & e & -> & _).
      left. reflexivity.
    + apply div_at_most_one; lia.
Qed.

Lemma calculateProgress_between_0_and_100_witness :
  Z.of_nat (length (lessons Sample.page_with_duplicates)) < 2 ^ 53 /\
  exists k, 0 <= k <= 100 /\
            calculateProgress Sample.page_with_duplicates = of_Z k.
Proof.
  assert (Z.of_nat (length (lessons Sample.page_with_duplicates)) < 2 ^ 53)
    as Hlen by reflexivity.
  split; [exact Hlen | ].
  exact (calculateProgress_between_0_and_100 _ Hlen).
Defined.

End Claims.

(* ===================================================================== *)
(** * The other requests, the schema and the pages *)
(* ===================================================================== *)

Section Ordering.
Context {Row : Type}.
Variable key : Row -> Z.

Lemma insert_by_permutation (x : Row) (l : list Row) :
  Permutation (Store.insert_by key x l) (x :: l).
Proof.
  induction l as [ | y l IH ]; cbn [Store.insert_by]; [reflexivity | ].
  destruct (key x <=? key y)%Z; [reflexivity | ].
  rewrite IH. apply perm_swap.
Qed.

Lemma order_permutation (l : list Row) : Permutation (Store.order key l) l.
Proof.
  induction l as [ | x l IH ]; [reflexivity | ].
  cbn [Store.order fold_right]. fold (Store.order key l).
  rewrite insert_by_permutation, IH. reflexivity.
Qed.

Lemma insert_by_sorted (x : Row) (l : list Row) :
  StronglySorted (fun a b => (key a <= key b)%Z) l ->
  StronglySorted (fun a b => (key a <= key b)%Z) (Store.insert_by key x l).
Proof.
  induction l as [ | y l IH ]; cbn [Store.insert_by]; intros Hs.
  - constructor; constructor.
  - inversion Hs as [ | ? ? Hl Hy ]; subst.
    destruct (key x <=? key y)%Z eqn:Hxy.
    + apply Z.leb_le in Hxy. constructor; [exact Hs | ].
      constructor; [exact Hxy | ].
      revert Hy. apply List.Forall_impl. intros a Ha. lia.
    + apply Z.leb_gt in Hxy. constructor; [apply IH; exact Hl | ].
      rewrite (insert_by_permutation x l).
      constructor; [lia | exact Hy].
Qed.

Lemma order_sorted (l : list Row) :
  StronglySorted (fun a b => (key a <= key b)%Z) (Store.order key l).
Proof.
  induction l as [ | x l IH ]; [constructor | ].
  cbn [Store.order fold_right]. apply insert_by_sorted. exact IH.
Qed.

End Ordering.

Lemma courses_select (s : RLS.session) (r : Course.t) :
  RLS.permits_using RLS.courses_policies RLS.SELECT s r
  = match s with Some _ => true | None => false end.
Proof. destruct s; reflexivity. Qed.

Lemma lessons_select (s : RLS.session) (r : Lesson.t) :
  RLS.permits_using RLS.lessons_policies RLS.SELECT s r
  = match s with Some _ => true | None => false end.
Proof. destruct s; reflexivity. Qed.

Lemma select_signed_in_courses (u : uuid) (rows : list Course.t)
    (where_ : Course.t -> bool) :
  Store.select RLS.courses_policies (Some u) rows where_
  = List.filter where_ rows.
Proof. apply filter_ext. intros r. rewrite courses_select. reflexivity. Qed.

Lemma select_signed_in_lessons (u : uuid) (rows : list Lesson.t)
    (where_ : Lesson.t -> bool) :
  Store.select RLS.lessons_policies (Some u) rows where_
  = List.filter where_ rows.
Proof. apply filter_ext. intros r. rewrite lessons_select. reflexivity. Qed.

Lemma filter_true {A : Type} (l : list A) : List.filter (fun _ => true) l = l.
Proof.
  induction l as [ | a l IH ]; [reflexivity | ]. cbn [List.filter].
  f_equal. exact IH.
Qed.

Lemma maybeSingle_at_most_one {A : Type} (l : list A) :
  (length l <= 1)%nat -> Store.maybeSingle l = Store.Data (hd_error l).
Proof.
  destruct l as [ | a [ | b l ] ]; cbn [Store.maybeSingle hd_error length];
    intros H; try reflexivity. lia.
Qed.

Lemma hd_error_filter {A : Type} (f : A -> bool) (l : list A) :
  hd_error (List.filter f l) = List.find f l.
Proof.
  induction l as [ | a l IH ]; [reflexivity | ].
  cbn [List.filter List.find]. destruct (f a); [reflexivity | exact IH].
Qed.

Lemma find_by_id (l : list Course.t) (c : Course.t) :
  List.NoDup (map Course.id l) -> In c l ->
  List.find (fun x => String.eqb (Course.id x) (Course.id c)) l = Some c.
Proof.
  intros Hnd Hin.
  destruct (List.find _ l) as [c' | ] eqn:Hfind.
  - apply find_some in Hfind as [Hin' Hid']. apply String.eqb_eq in Hid'.
    f_equal. exact (NoDup_map_eq Course.id _ _ _ Hnd Hin' Hin Hid').
  - pose proof (find_none _ _ Hfind c Hin) as Hno.
    cbn beta in Hno. rewrite String.eqb_refl in Hno. discriminate Hno.
Qed.

Lemma find_by_id_none (l : list Course.t) (id : uuid) :
  List.find (fun x => String.eqb (Course.id x) id) l = None <->
  ~ In id (map Course.id l).
Proof.
  split.
  - intros Hfind Hin. apply in_map_iff in Hin as (c & Hid & Hin).
    pose proof (find_none _ _ Hfind c Hin) as Hno.
    apply String.eqb_neq in Hno. contradiction.
  - intros Hnot. destruct (List.find _ l) as [c | ] eqn:Hfind;
      [ | reflexivity ].
    apply find_some in Hfind as [Hin Hid]. apply String.eqb_eq in Hid.
    exfalso. apply Hnot. rewrite <- Hid. apply in_map. exact Hin.
Qed.

Section Loading.
Import CourseDetail.

(** What a load gives when the courses have their primary key. *)
Lemma loadCourseData_signed_in (db : Store.t) (st : State) (u : uuid) :
  Store.primary_keys db -> user st = Some u ->
  loadCourseData db st
  = Build (Some u) (courseId st)
      (List.find (fun c => String.eqb (Course.id c) (courseId st))
                 (Store.courses db))
      (Store.order Lesson.order_number
         (List.filter (fun l => String.eqb (Lesson.course_id l) (courseId st))
                      (Store.lessons db)))
      (fetch_progress db u (courseId st))
      false (error st).
Proof.
  intros [Hc _] Hu. unfold loadCourseData. rewrite Hu.
  rewrite select_signed_in_courses, select_signed_in_lessons.
  rewrite maybeSingle_at_most_one, hd_error_filter; [reflexivity | ].
  apply (filter_at_most_one Course.id (courseId st)); [exact Hc | ].
  intros r Hr. apply String.eqb_eq. exact Hr.
Qed.

(** X1: with the primary key of [courses] in force, a load by a signed-in
    account stores a course exactly when it is the row of the store whose
    identifier is [courseId]; it ends the loading state and sets no error
    message. *)
Theorem loadCourseData_finds_the_course
    (db : Store.t) (st : State) (u : uuid) :
  Store.primary_keys db -> user st = Some u ->
  (forall c, course (loadCourseData db st) = Some c <->
             In c (Store.courses db) /\ Course.id c = courseId st) /\
  error (loadCourseData db st) = error st /\
  loading (loadCourseData db st) = false.
Proof.
  intros Hpk Hu. rewrite (loadCourseData_signed_in db st u Hpk Hu).
  cbn [course error loading]. destruct Hpk as [Hc _].
  split; [ | split; reflexivity ].
  intros c. split.
  - intros H. apply find_some in H as [Hin Hid].
    apply String.eqb_eq in Hid. auto.
  - intros [Hin <-]. apply find_by_id; assumption.
Qed.

Lemma loadCourseData_finds_the_course_witness :
  Store.primary_keys Sample2.catalogue /\
  course (loadCourseData Sample2.catalogue (App.mount Sample.alice "c2"))
  = Some (Sample2.course_at "c2" "advanced" 20%Z).
Proof.
  assert (Store.primary_keys Sample2.catalogue) as Hpk
    by (split; distinct_ids).
  split; [exact Hpk | ].
  apply (loadCourseData_finds_the_course Sample2.catalogue
           (App.mount Sample.alice "c2") Sample.alice Hpk eq_refl).
  split; [cbn; auto | reflexivity].
Defined.

(** X2: a load by a signed-in account shows [Course not found] exactly
    when no course of the store has the identifier [courseId] (and no error
    message was set before). *)
Theorem course_not_found_iff_absent
    (db : Store.t) (st : State) (u : uuid) :
  Store.primary_keys db -> user st = Some u -> error st = ""%string ->
  (course (loadCourseData db st) = None <->
   ~ In (courseId st) (map Course.id (Store.courses db))) /\
  (CourseDetailView.returns (loadCourseData db st)
   = CourseDetailView.ErrorBox "Course not found" <->
   ~ In (courseId st) (map Course.id (Store.courses db))).
Proof.
  intros Hpk Hu Herr. rewrite (loadCourseData_signed_in db st u Hpk Hu).
  unfold CourseDetailView.returns. cbn [course error loading]. rewrite Herr.
  cbn [String.eqb negb]. rewrite <- find_by_id_none.
  split; [reflexivity | ].
  destruct (List.find _ (Store.courses db)); split;
    try reflexivity; discriminate.
Qed.

Lemma course_not_found_iff_absent_witness :
  Store.primary_keys Sample2.catalogue /\
  CourseDetailView.returns
    (loadCourseData Sample2.catalogue (App.mount Sample.alice "c9"))
  = CourseDetailView.ErrorBox "Course not found".
Proof.
  assert (Store.primary_keys Sample2.catalogue) as Hpk
    by (split; distinct_ids).
  split; [exact Hpk | ].
  apply (course_not_found_iff_absent Sample2.catalogue
           (App.mount Sample.alice "c9") Sample.alice Hpk eq_refl eq_refl).
  cbn. intuition discriminate.
Defined.

(** X3: the lessons that a load by a signed-in account stores are the
    lessons of the course, each once, in ascending [order_number]. *)
Theorem loadCourseData_lessons_in_order
    (db : Store.t) (st : State) (u : uuid) :
  Store.primary_keys db -> user st = Some u ->
  StronglySorted
    (fun a b => (Lesson.order_number a <= Lesson.order_number b)%Z)
    (lessons (loadCourseData db st)) /\
  Permutation
    (lessons (loadCourseData db st))
    (List.filter (fun l => String.eqb (Lesson.course_id l) (courseId st))
                 (Store.lessons db)) /\
  (forall l, In l (lessons (loadCourseData db st)) <->
             In l (Store.lessons db) /\ Lesson.course_id l = courseId st).
Proof.
  intros Hpk Hu. rewrite (loadCourseData_signed_in db st u Hpk Hu).
  cbn [lessons]. split; [apply order_sorted | ].
  split; [apply order_permutation | ].
  intros l. split.
  - intros H. apply (Permutation_in _ (order_permutation _ _)) in H.
    apply filter_In in H as [Hin Hc]. apply String.eqb_eq in Hc. auto.
  - intros [Hin Hc].
    apply (Permutation_in _ (Permutation_sym (order_permutation _ _))).
    apply filter_In. split; [exact Hin | ]. apply String.eqb_eq. exact Hc.
Qed.

Lemma loadCourseData_lessons_in_order_witness :
  Store.primary_keys Sample2.catalogue /\
  lessons (loadCourseData Sample2.catalogue (App.mount Sample.alice "c1"))
  = [ Lesson.Build "l1" "c1" "First" "" 1%Z 5%Z 0%Z;
      Lesson.Build "l2" "c1" "Second" "" 2%Z 5%Z 0%Z ] /\
  StronglySorted
    (fun a b => (Lesson.order_number a <= Lesson.order_number b)%Z)
    (lessons (loadCourseData Sample2.catalogue
                (App.mount Sample.alice "c1"))).
Proof.
  assert (Store.primary_keys Sample2.catalogue) as Hpk
    by (split; distinct_ids).
  split; [exact Hpk | ]. split; [reflexivity | ].
  apply (loadCourseData_lessons_in_order Sample2.catalogue
           (App.mount Sample.alice "c1") Sample.alice Hpk eq_refl).
Defined.

(** X4: without a session the policies show nothing: a load stores no
    course, no lesson and no record and the page says [Course not found];
    the list of courses is empty and [Home] says that there are no
    courses. *)
Theorem signed_out_sees_nothing (db : Store.t) (st : State)
    (home : Home.State) :
  user st = None ->
  loadCourseData db st
  = Build None (courseId st) None [] [] false (error st) /\
  (error st = ""%string ->
   CourseDetailView.returns (loadCourseData db st)
   = CourseDetailView.ErrorBox "Course not found") /\
  Home.courses (Home.loadCourses db None home) = [] /\
  (Home.error home = ""%string ->
   Home.render (Home.loadCourses db None home) = Home.NoCourses).
Proof.
  intros Hu.
  assert (forall (rows : list Course.t) where_,
            Store.select RLS.courses_policies None rows where_ = [])
    as Hcourses.
  { intros rows where_. apply filter_none. intros r _. reflexivity. }
  assert (forall (rows : list Lesson.t) where_,
            Store.select RLS.lessons_policies None rows where_ = [])
    as Hlessons.
  { intros rows where_. apply filter_none. intros r _. reflexivity. }
  assert (loadCourseData db st
          = Build None (courseId st) None [] [] false (error st)) as Hload
    by (unfold loadCourseData; rewrite Hu, Hcourses, Hlessons; reflexivity).
  split; [exact Hload | ]. split; [ | split ].
  - intros Herr. rewrite Hload. unfold CourseDetailView.returns.
    cbn [course error loading]. rewrite Herr. reflexivity.
  - unfold Home.loadCourses. rewrite Hcourses. reflexivity.
  - intros Herr. unfold Home.loadCourses, Home.render. rewrite Hcourses.
    cbn. rewrite Herr. reflexivity.
Qed.

Lemma signed_out_sees_nothing_witness :
  user (Build None "c1" None [] [] true "") = None /\
  loadCourseData Sample2.catalogue (Build None "c1" None [] [] true "")
  = Build None "c1" None [] [] false "".
Proof.
  split; [reflexivity | ].
  apply (signed_out_sees_nothing Sample2.catalogue
           (Build None "c1" None [] [] true "")
           (Home.Build [] true "") eq_refl).
Defined.

End Loading.

Lemma StronglySorted_weaken {A : Type} (R S : A -> A -> Prop) (l : list A) :
  (forall a b, R a b -> S a b) -> StronglySorted R l -> StronglySorted S l.
Proof.
  intros HRS Hs. induction Hs as [ | a l Hs IH Ha ]; constructor.
  - exact IH.
  - revert Ha. apply List.Forall_impl. intros b. apply HRS.
Qed.

(** X5: for a signed-in account [Home] loads every course of the store,
    each once, the newest first, and ends the loading state; it then shows
    the grid of these courses, or [No courses] when the store has none. *)
Theorem loadCourses_newest_first (db : Store.t) (u : uuid) (st : Home.State) :
  Permutation (Home.courses (Home.loadCourses db (Some u) st))
              (Store.courses db) /\
  StronglySorted
    (fun a b => (Course.created_at b <= Course.created_at a)%Z)
    (Home.courses (Home.loadCourses db (Some u) st)) /\
  Home.loading (Home.loadCourses db (Some u) st) = false /\
  (Home.error st = ""%string ->
   Home.render (Home.loadCourses db (Some u) st)
   = match Store.courses db with
     | [] => Home.NoCourses
     | _ :: _ => Home.Grid (Home.courses (Home.loadCourses db (Some u) st))
     end).
Proof.
  unfold Home.loadCourses, Home.order_descending.
  rewrite select_signed_in_courses, filter_true.
  cbn [Home.courses Home.loading Home.error].
  pose proof (order_permutation (fun r => (- Course.created_at r)%Z)
                (Store.courses db)) as Hperm.
  split; [exact Hperm | ]. split; [ | split; [reflexivity | ] ].
  - eapply StronglySorted_weaken; [ | apply order_sorted ].
    cbn. intros a b. lia.
  - intros Herr. unfold Home.render.
    cbn [Home.courses Home.loading Home.error]. rewrite Herr. cbn [negb].
    rewrite (Permutation_length Hperm).
    destruct (Store.courses db); reflexivity.
Qed.

(** X6: a click on a card that [Home] shows makes the application show
    [CourseDetail] for the identifier of that course, and the load of that
    component ends on the page of the very course of the card; [onBack]
    returns to [Home]. *)
Theorem course_card_opens_its_course
    (db : Store.t) (u : uuid) (home : Home.State) (app : App.State)
    (c : Course.t) :
  Store.primary_keys db ->
  App.loading app = false -> App.user app = Some u ->
  In c (Home.courses (Home.loadCourses db (Some u) home)) ->
  Course.id c <> ""%string ->
  App.AppContent (App.onClick c app)
  = App.CourseDetailScreen u (Course.id c) /\
  (exists done percentage rows,
     CourseDetailView.returns
       (CourseDetail.loadCourseData db (App.mount u (Course.id c)))
     = CourseDetailView.Page c done percentage rows) /\
  App.AppContent (App.onBack (App.onClick c app)) = App.HomeScreen u.
Proof.
  intros Hpk Hload Huser Hin Hid.
  unfold Home.loadCourses, Home.order_descending in Hin.
  rewrite select_signed_in_courses, filter_true in Hin.
  cbn [Home.courses] in Hin.
  apply (Permutation_in _ (order_permutation _ _)) in Hin.
  unfold App.AppContent, App.onClick, App.onBack, App.setSelectedCourseId.
  cbn [App.loading App.user App.selectedCourseId]. rewrite Hload, Huser.
  apply String.eqb_neq in Hid. rewrite Hid.
  split; [reflexivity | ]. split; [ | reflexivity ].
  rewrite (loadCourseData_signed_in db (App.mount u (Course.id c)) u Hpk
             eq_refl).
  unfold CourseDetailView.returns, App.mount.
  cbn [CourseDetail.course CourseDetail.error CourseDetail.loading
       CourseDetail.courseId String.eqb negb].
  rewrite (find_by_id _ c (proj1 Hpk) Hin). eauto.
Qed.

Lemma course_card_opens_its_course_witness :
  Store.primary_keys Sample2.catalogue /\
  In (Sample2.course_at "c2" "advanced" 20%Z)
     (Home.courses
        (Home.loadCourses Sample2.catalogue (Some Sample.alice)
           (Home.Build [] true ""))) /\
  App.AppContent
    (App.onClick (Sample2.course_at "c2" "advanced" 20%Z)
       (App.Build (Some Sample.alice) false true None))
  = App.CourseDetailScreen Sample.alice "c2".
Proof.
  assert (Store.primary_keys Sample2.catalogue) as Hpk
    by (split; distinct_ids).
  assert (In (Sample2.course_at "c2" "advanced" 20%Z)
            (Home.courses
               (Home.loadCourses Sample2.catalogue (Some Sample.alice)
                  (Home.Build [] true "")))) as Hin
    by (right; left; reflexivity).
  split; [exact Hpk | ]. split; [exact Hin | ].
  apply (course_card_opens_its_course Sample2.catalogue Sample.alice
           (Home.Build [] true "")
           (App.Build (Some Sample.alice) false true None)
           (Sample2.course_at "c2" "advanced" 20%Z)
           Hpk eq_refl eq_refl Hin).
  discriminate.
Defined.

Section Frame.
Import CourseDetail.

(** What an action keeps of a record: its identifier, its tuple and its
    creation time. *)
Lemma apply_changes_identity (c : Store.user_progress_changes)
    (r : UserProgress.t) :
  (UserProgress.id (Store.apply_changes c r),
   UserProgress.tuple (Store.apply_changes c r),
   UserProgress.created_at (Store.apply_changes c r))
  = (UserProgress.id r, UserProgress.tuple r, UserProgress.created_at r).
Proof. reflexivity. Qed.

Lemma loadCourseData_user (db : Store.t) (st : State) :
  user (loadCourseData db st) = user st /\
  courseId (loadCourseData db st) = courseId st.
Proof.
  unfold loadCourseData. destruct (Store.maybeSingle _); split; reflexivity.
Qed.

Lemma after_write_user (st : State) (db : Store.t)
    (r : Store.response Store.t) :
  user (snd (after_write st db r)) = user st /\
  courseId (snd (after_write st db r)) = courseId st.
Proof.
  destruct r as [db' | err]; cbn [after_write snd];
    [apply loadCourseData_user | split; reflexivity].
Qed.

Lemma act_signed_out (ea : env * action) (w : world) :
  user (snd w) = None -> act ea w = w.
Proof.
  destruct w as [db st]. cbn [snd]. intros Hu. unfold act.
  destruct (snd ea);
    unfold toggleLessonCompletion, markCourseCompleted; rewrite Hu;
    reflexivity.
Qed.

Lemma act_user (ea : env * action) (w : world) :
  user (snd (act ea w)) = user (snd w) /\
  courseId (snd (act ea w)) = courseId (snd w).
Proof.
  destruct (user (snd w)) as [u | ] eqn:Hu.
  - rewrite <- Hu. destruct w as [db st]. cbn [snd] in *. unfold act.
    destruct (snd ea) as [l | ].
    + rewrite (toggle_signed_in _ l db st u Hu).
      destruct (List.find _ _); apply after_write_user.
    + rewrite (mark_signed_in _ db st u Hu).
      destruct (List.find _ _); apply after_write_user.
  - rewrite (act_signed_out ea w Hu). split; [exact Hu | reflexivity].
Qed.

(** The store after a write of the caller [u]: the other tables are the
    same, the rows of other accounts are the same, and the rows keep their
    identity, with at most one new row at the end. *)
Lemma after_write_store (st : State) (db : Store.t) (u : uuid)
    (r : Store.response Store.t) :
  (forall db', r = Store.Data db' ->
     (exists h,
        (forall x, UserProgress.user_id x <> u -> h x = x) /\
        (forall x,
           (UserProgress.id (h x), UserProgress.tuple (h x),
            UserProgress.created_at (h x))
           = (UserProgress.id x, UserProgress.tuple x,
              UserProgress.created_at x)) /\
        db' = Store.with_user_progress db (map h (Store.user_progress db))) \/
     (exists new,
        UserProgress.user_id new = u /\
        db' = Store.with_user_progress db (Store.user_progress db ++ [new]))) ->
  Store.auth_users (fst (after_write st db r)) = Store.auth_users db /\
  Store.profiles (fst (after_write st db r)) = Store.profiles db /\
  Store.courses (fst (after_write st db r)) = Store.courses db /\
  Store.lessons (fst (after_write st db r)) = Store.lessons db /\
  List.filter (fun x => negb (String.eqb (UserProgress.user_id x) u))
              (Store.user_progress (fst (after_write st db r)))
  = List.filter (fun x => negb (String.eqb (UserProgress.user_id x) u))
                (Store.user_progress db) /\
  exists extra,
    map (fun x => (UserProgress.id x, UserProgress.tuple x,
                   UserProgress.created_at x))
        (Store.user_progress (fst (after_write st db r)))
    = map (fun x => (UserProgress.id x, UserProgress.tuple x,
                     UserProgress.created_at x))
          (Store.user_progress db)
        ++ extra /\
    (length extra <= 1)%nat.
Proof.
  intros Hr. destruct r as [db' | err]; cbn [after_write fst].
  2: { repeat (split; [reflexivity | ]). exists []. rewrite app_nil_r.
       split; [reflexivity | cbn; lia]. }
  destruct (Hr db' eq_refl) as [(h & Hother & Hsame & ->) | (new & Hnew & ->)];
    cbn [Store.with_user_progress Store.auth_users Store.profiles
         Store.courses Store.lessons Store.user_progress];
    repeat (split; [reflexivity | ]).
  - split.
    + clear Hr.
      induction (Store.user_progress db) as [ | x l IH ]; [reflexivity | ].
      cbn [map List.filter].
      assert (UserProgress.user_id (h x) = UserProgress.user_id x) as Hu.
      { pose proof (Hsame x) as H. unfold UserProgress.tuple in H.
        congruence. }
      rewrite Hu.
      destruct (String.eqb (UserProgress.user_id x) u) eqn:Hx; cbn [negb].
      * exact IH.
      * apply String.eqb_neq in Hx. rewrite (Hother x Hx), IH. reflexivity.
    + exists []. rewrite app_nil_r, map_map. split; [ | cbn; lia ].
      apply map_ext. exact Hsame.
  - split.
    + rewrite List.filter_app. cbn [List.filter].
      rewrite Hnew, String.eqb_refl. cbn [negb]. apply app_nil_r.
    + eexists. rewrite map_app. split; [reflexivity | cbn; lia].
Qed.

Lemma act_store (ea : env * action) (w : world) (u : uuid) :
  user (snd w) = Some u ->
  Store.auth_users (fst (act ea w)) = Store.auth_users (fst w) /\
  Store.profiles (fst (act ea w)) = Store.profiles (fst w) /\
  Store.courses (fst (act ea w)) = Store.courses (fst w) /\
  Store.lessons (fst (act ea w)) = Store.lessons (fst w) /\
  List.filter (fun x => negb (String.eqb (UserProgress.user_id x) u))
              (Store.user_progress (fst (act ea w)))
  = List.filter (fun x => negb (String.eqb (UserProgress.user_id x) u))
                (Store.user_progress (fst w)) /\
  exists extra,
    map (fun x => (UserProgress.id x, UserProgress.tuple x,
                   UserProgress.created_at x))
        (Store.user_progress (fst (act ea w)))
    = map (fun x => (UserProgress.id x, UserProgress.tuple x,
                     UserProgress.created_at x))
          (Store.user_progress (fst w))
        ++ extra /\
    (length extra <= 1)%nat.
Proof.
  destruct w as [db st]. cbn [fst snd]. intros Hu.
  assert (forall c p db',
            Store.update_user_progress db (user st) c (eq_id p)
            = Store.Data db' ->
            exists h,
              (forall x, UserProgress.user_id x <> u -> h x = x) /\
              (forall x,
                 (UserProgress.id (h x), UserProgress.tuple (h x),
                  UserProgress.created_at (h x))
                 = (UserProgress.id x, UserProgress.tuple x,
                    UserProgress.created_at x)) /\
              db' = Store.with_user_progress db
                      (map h (Store.user_progress db))) as Hupdate.
  { intros c p db' H. rewrite Hu, update_by_id in H. inversion H as [Hdb].
    eexists. split; [ | split; [ | reflexivity ] ].
    - intros x Hx. cbn. apply not_eq_sym, String.eqb_neq in Hx.
      rewrite Hx. reflexivity.
    - intros x. cbn.
      destruct (String.eqb u (UserProgress.user_id x) && eq_id p x);
        reflexivity. }
  assert (forall d l b t db',
            Store.insert_user_progress db (user st) d
              (Store.Values u (courseId st) l b t) = Store.Data db' ->
            exists new,
              UserProgress.user_id new = u /\
              db' = Store.with_user_progress db
                      (Store.user_progress db ++ [new])) as Hinsert.
  { intros d l b t db' H. apply insert_result in H as [-> _].
    eexists. split; [ | reflexivity ]. reflexivity. }
  unfold act.
  destruct (snd ea) as [l | ];
    [rewrite (toggle_signed_in _ l db st u Hu)
    | rewrite (mark_signed_in _ db st u Hu)];
    destruct (List.find _ _) as [p | ];
    apply (after_write_store st db u); intros db' H; eauto.
Qed.

Lemma run_cons (ea : env * action) (eas : list (env * action)) (w : world) :
  run (ea :: eas) w = run eas (act ea w).
Proof. reflexivity. Qed.

Lemma run_user (eas : list (env * action)) (w : world) :
  user (snd (run eas w)) = user (snd w).
Proof.
  revert w. induction eas as [ | ea eas IH ]; intros w; [reflexivity | ].
  rewrite run_cons, IH. apply act_user.
Qed.

(** X7: whatever lessons are toggled and however often the course is
    marked, the accounts, profiles, courses and lessons of the store stay
    as they were and so does every Progress Record of another account;
    without a signed-in account the actions do nothing at all. *)
Theorem actions_touch_only_the_callers_records
    (eas : list (env * action)) (w : world) :
  Store.auth_users (fst (run eas w)) = Store.auth_users (fst w) /\
  Store.profiles (fst (run eas w)) = Store.profiles (fst w) /\
  Store.courses (fst (run eas w)) = Store.courses (fst w) /\
  Store.lessons (fst (run eas w)) = Store.lessons (fst w) /\
  (forall u, user (snd w) = Some u ->
             List.filter
               (fun x => negb (String.eqb (UserProgress.user_id x) u))
               (Store.user_progress (fst (run eas w)))
             = List.filter
                 (fun x => negb (String.eqb (UserProgress.user_id x) u))
                 (Store.user_progress (fst w))) /\
  (user (snd w) = None -> run eas w = w).
Proof.
  revert w. induction eas as [ | ea eas IH ]; intros w.
  - repeat (split; [reflexivity | ]). split; reflexivity.
  - rewrite run_cons.
    destruct (IH (act ea w)) as (Ha & Hp & Hc & Hl & Hrows & Hout).
    destruct (act_user ea w) as [Huser _].
    destruct (user (snd w)) as [u | ] eqn:Hu.
    + destruct (act_store ea w u Hu) as (Ha' & Hp' & Hc' & Hl' & Hrows' & _).
      rewrite Ha, Hp, Hc, Hl.
      repeat (split; [assumption | ]). split; [ | discriminate ].
      intros u' Hu'. inversion Hu'; subst u'.
      rewrite (Hrows u Huser). exact Hrows'.
    + rewrite (act_signed_out ea w Hu) in *.
      repeat (split; [assumption | ]). split; [discriminate | ].
      intros _. apply Hout. exact Hu.
Qed.

Lemma run_keeps_records (eas : list (env * action)) (w : world) :
  exists extra,
    map (fun x => (UserProgress.id x, UserProgress.tuple x,
                   UserProgress.created_at x))
        (Store.user_progress (fst (run eas w)))
    = map (fun x => (UserProgress.id x, UserProgress.tuple x,
                     UserProgress.created_at x))
          (Store.user_progress (fst w))
        ++ extra /\
    (length extra <= length eas)%nat.
Proof.
  revert w. induction eas as [ | ea eas IH ]; intros w.
  - exists []. rewrite app_nil_r. split; [reflexivity | cbn; lia].
  - rewrite run_cons. destruct (IH (act ea w)) as (extra & Heq & Hlen).
    destruct (user (snd w)) as [u | ] eqn:Hu.
    + destruct (act_store ea w u Hu) as (_ & _ & _ & _ & _ & new & Hnew & Hn).
      exists (new ++ extra). rewrite Heq, Hnew, <- app_assoc.
      split; [reflexivity | ]. rewrite length_app. cbn [length]. lia.
    + rewrite (act_signed_out ea w Hu) in Heq |- *.
      exists extra. split; [exact Heq | cbn [length]; lia].
Qed.

(** X8: the actions never delete a Progress Record and never change the
    identifier, the (account, course, lesson) tuple or the creation time of
    one: every record of the store is still there, with these three fields,
    after any list of actions, and the store has at most one more record
    per action. Nothing is said of the order of the records. *)
Theorem actions_never_delete_records
    (eas : list (env * action)) (w : world) :
  (forall r,
     In r (Store.user_progress (fst w)) ->
     exists r',
       In r' (Store.user_progress (fst (run eas w))) /\
       UserProgress.id r' = UserProgress.id r /\
       UserProgress.tuple r' = UserProgress.tuple r /\
       UserProgress.created_at r' = UserProgress.created_at r) /\
  (length (Store.user_progress (fst w))
   <= length (Store.user_progress (fst (run eas w)))
   <= length (Store.user_progress (fst w)) + length eas)%nat /\
  exists extra,
    Permutation
      (map (fun x => (UserProgress.id x, UserProgress.tuple x,
                      UserProgress.created_at x))
           (Store.user_progress (fst (run eas w))))
      (map (fun x => (UserProgress.id x, UserProgress.tuple x,
                      UserProgress.created_at x))
           (Store.user_progress (fst w))
         ++ extra) /\
    (length extra <= length eas)%nat.
Proof.
  destruct (run_keeps_records eas w) as (extra & Heq & Hlen).
  split; [ | split ].
  - intros r Hr.
    assert (In (UserProgress.id r, UserProgress.tuple r,
                UserProgress.created_at r)
              (map (fun x => (UserProgress.id x, UserProgress.tuple x,
                              UserProgress.created_at x))
                   (Store.user_progress (fst (run eas w))))) as Hin.
    { rewrite Heq. apply in_or_app. left.
      apply (in_map (fun x => (UserProgress.id x, UserProgress.tuple x,
                               UserProgress.created_at x))).
      exact Hr. }
    apply in_map_iff in Hin as (r' & Hkey & Hr').
    exists r'. split; [exact Hr' | ].
    pose proof (f_equal (fun k => fst (fst k)) Hkey) as H1.
    pose proof (f_equal (fun k => snd (fst k)) Hkey) as H2.
    pose proof (f_equal snd Hkey) as H3.
    cbn [fst snd] in H1, H2, H3. auto.
  - apply (f_equal (@length _)) in Heq.
    rewrite length_app, !length_map in Heq. lia.
  - exists extra. rewrite Heq. split; [reflexivity | exact Hlen].
Qed.

End Frame.

Section Flags.
Import CourseDetail.

(** An update of the record [p] changes no flag of another lesson
    reference. *)
Lemma update_keeps_other_flags (db : Store.t) (st : State) (u : uuid)
    (ch : Store.user_progress_changes) (p : UserProgress.t)
    (y : option uuid) :
  consistent (db, st) -> user st = Some u -> In p (progress st) ->
  UserProgress.lesson_id p <> y ->
  existsb (fun r => for_lesson y r && UserProgress.completed r)
    (map (fun r => if eq_id p r then Store.apply_changes ch r else r)
         (progress st))
  = existsb (fun r => for_lesson y r && UserProgress.completed r)
            (progress st).
Proof.
  intros Hw Hu Hp Hy. apply existsb_map_in. intros r Hr.
  destruct (eq_id p r) eqn:Heq; [ | reflexivity ].
  rewrite (eq_id_unique db st u p r Hw Hu Hp Hr Heq).
  unfold for_lesson. cbn [Store.apply_changes UserProgress.lesson_id].
  replace (strict_eq (UserProgress.lesson_id p) y) with false;
    [reflexivity | ].
  symmetry. apply not_true_is_false. intros H. apply strict_eq_true in H.
  contradiction.
Qed.

Lemma insert_keeps_other_flags (l : list UserProgress.t)
    (new : UserProgress.t) (y : option uuid) :
  UserProgress.lesson_id new <> y ->
  existsb (fun r => for_lesson y r && UserProgress.completed r) (l ++ [new])
  = existsb (fun r => for_lesson y r && UserProgress.completed r) l.
Proof.
  intros Hy. rewrite existsb_app. cbn [existsb]. unfold for_lesson.
  replace (strict_eq (UserProgress.lesson_id new) y) with false.
  - cbn. rewrite !orb_false_r. reflexivity.
  - symmetry. apply not_true_is_false. intros H. apply strict_eq_true in H.
    contradiction.
Qed.

(** An action on the lesson reference [x] changes no flag of another
    lesson reference [y]. *)
Lemma write_keeps_other_flags (db : Store.t) (st : State) (u : uuid)
    (x y : option uuid) (ch : Store.user_progress_changes)
    (d : Store.defaults) (t : option timestamptz) :
  consistent (db, st) -> user st = Some u -> x <> y ->
  existsb (fun r => for_lesson y r && UserProgress.completed r)
    (progress
       (snd match List.find (for_lesson x) (progress st) with
            | Some p =>
                after_write st db
                  (Store.update_user_progress db (user st) ch (eq_id p))
            | None =>
                after_write st db
                  (Store.insert_user_progress db (user st) d
                     (Store.Values u (courseId st) x true t))
            end))
  = existsb (fun r => for_lesson y r && UserProgress.completed r)
            (progress st).
Proof.
  intros Hw Hu Hxy.
  destruct (List.find (for_lesson x) (progress st)) as [p | ] eqn:Hfind.
  - apply find_some in Hfind as [Hp Hl]. apply strict_eq_true in Hl.
    destruct (update_step db st u ch p Hw Hu _ eq_refl)
      as (_ & _ & _ & _ & Hprog).
    rewrite Hprog.
    apply (update_keeps_other_flags db st u); auto. congruence.
  - destruct (insert_step db st u d x true t Hw Hu _ eq_refl)
      as (_ & _ & _ & [Hsame | [_ Hprog]]).
    + rewrite Hsame. reflexivity.
    + rewrite Hprog. apply insert_keeps_other_flags. exact Hxy.
Qed.

(** X9: toggling a lesson changes the lesson-completed flag of no other
    lesson, and marking the course changes the flag of no lesson. *)
Theorem actions_change_no_other_flag (w : world) :
  consistent w ->
  (forall e l l',
     l' <> l ->
     isLessonCompleted (snd (toggleLessonCompletion e l w)) l'
     = isLessonCompleted (snd w) l') /\
  (forall e l',
     isLessonCompleted (snd (markCourseCompleted e w)) l'
     = isLessonCompleted (snd w) l').
Proof.
  destruct w as [db st]. intros Hw. cbn [snd].
  destruct (user st) as [u | ] eqn:Hu.
  - split.
    + intros e l l' Hl. rewrite (toggle_signed_in e l db st u Hu).
      apply (write_keeps_other_flags db st u (Some l) (Some l')); auto.
      intros H. apply Hl. congruence.
    + intros e l'. rewrite (mark_signed_in e db st u Hu).
      apply (write_keeps_other_flags db st u None (Some l')); auto.
  - split; intros;
      unfold toggleLessonCompletion, markCourseCompleted; rewrite Hu;
      reflexivity.
Qed.

Lemma actions_change_no_other_flag_witness :
  consistent (Sample.store 2 1, Sample.page 2 1) /\
  isLessonCompleted
    (snd (toggleLessonCompletion (Sample.at_time 2000 "n") "B"
            (Sample.store 2 1, Sample.page 2 1))) "A"
  = isLessonCompleted (Sample.page 2 1) "A".
Proof.
  assert (consistent (Sample.store 2 1, Sample.page 2 1)) as Hc
    by (apply sample_consistent; lia).
  split; [exact Hc | ].
  apply (proj1 (actions_change_no_other_flag _ Hc)). discriminate.
Defined.

(** X10: with at most one record per tuple, and a store that accepts the
    insert of a first record, one toggle negates the lesson-completed flag
    of the lesson and leaves at most one record per tuple. *)
Theorem toggleLessonCompletion_flips_the_flag
    (e : env) (lessonId : uuid) (db : Store.t) (st : State) (u : uuid) :
  consistent (db, st) -> user st = Some u ->
  at_most_one_per_tuple (progress st) ->
  In u (map AuthUser.id (Store.auth_users db)) ->
  In (courseId st) (map Course.id (Store.courses db)) ->
  In lessonId (map Lesson.id (Store.lessons db)) ->
  ~ In (Store.gen_random_uuid (store_defaults e))
       (map UserProgress.id (Store.user_progress db)) ->
  isLessonCompleted (snd (toggleLessonCompletion e lessonId (db, st)))
                    lessonId
  = negb (isLessonCompleted st lessonId) /\
  at_most_one_per_tuple
    (progress (snd (toggleLessonCompletion e lessonId (db, st)))).
Proof.
  intros Hw Hu Huniq Hau Hco Hle Hfresh.
  destruct (toggle_consistent e lessonId (db, st) Hw) as (Hc' & Hu' & _).
  cbn [snd] in Hu'. rewrite Hu in Hu'.
  destruct (List.find (for_lesson (Some lessonId)) (progress st))
    as [p | ] eqn:Hfind.
  - apply find_some in Hfind as [Hp Hl]. apply strict_eq_true in Hl.
    destruct (toggle_found e lessonId db st u p Hw Hu Huniq Hp Hl
                _ _ _ eq_refl eq_refl eq_refl)
      as (Hflag & _ & _ & _ & _ & Huniq' & Hin).
    split; [ | exact Huniq' ].
    destruct (toggleLessonCompletion e lessonId (db, st)) as [db1 st1].
    cbn [snd] in *.
    destruct (find_unique_record db1 st1 u (Some lessonId) _
                Hc' Hu' Huniq' Hin Hl) as [_ Hflag'].
    fold (isLessonCompleted st1 lessonId) in Hflag'.
    rewrite Hflag', Hflag. reflexivity.
  - assert (isLessonCompleted st lessonId = false) as Hflag.
    { apply not_true_is_false. intros H.
      apply existsb_exists in H as (r & Hr & Hrc).
      apply andb_true_iff in Hrc as [Hrl _].
      rewrite (find_none _ _ Hfind r Hr) in Hrl. discriminate Hrl. }
    assert (toggleLessonCompletion e lessonId (db, st)
            = after_write st db
                (Store.insert_user_progress db (user st) (store_defaults e)
                   (Store.Values u (courseId st) (Some lessonId) true
                      (Some (completed_at_date e))))) as Heq
      by (rewrite (toggle_signed_in e lessonId db st u Hu), Hfind;
          reflexivity).
    destruct (insert_step_accepted db st u (store_defaults e)
                (Some lessonId) (Some (completed_at_date e))
                Hw Hu Hfind Hau Hco Hle Hfresh _ _ eq_refl eq_refl)
      as (_ & _ & _ & _ & Hprog & Huniq').
    rewrite <- Heq in Hprog, Huniq'. specialize (Huniq' Huniq).
    split; [ | exact Huniq' ].
    rewrite Hflag. cbn [negb]. unfold isLessonCompleted.
    rewrite Hprog, existsb_app. cbn [existsb]. unfold for_lesson at 2.
    cbn. rewrite String.eqb_refl. cbn. apply orb_true_r.
Qed.

Lemma toggleLessonCompletion_flips_the_flag_witness :
  consistent (Sample.store 2 1, Sample.page 2 1) /\
  at_most_one_per_tuple (progress (Sample.page 2 1)) /\
  ~ In (Store.gen_random_uuid (store_defaults (Sample.at_time 2000 "n")))
       (map UserProgress.id (Store.user_progress (Sample.store 2 1))) /\
  isLessonCompleted
    (snd (toggleLessonCompletion (Sample.at_time 2000 "n") "B"
            (Sample.store 2 1, Sample.page 2 1))) "B"
  = negb (isLessonCompleted (Sample.page 2 1) "B").
Proof.
  assert (consistent (Sample.store 2 1, Sample.page 2 1)) as Hc
    by (apply sample_consistent; lia).
  assert (at_most_one_per_tuple (progress (Sample.page 2 1))) as Hu
    by (repeat constructor; intros []).
  assert (~ In (Store.gen_random_uuid
                  (store_defaults (Sample.at_time 2000 "n")))
            (map UserProgress.id (Store.user_progress (Sample.store 2 1))))
    as Hfresh by (cbn; intuition discriminate).
  split; [exact Hc | ]. split; [exact Hu | ]. split; [exact Hfresh | ].
  apply (toggleLessonCompletion_flips_the_flag
           (Sample.at_time 2000 "n") "B" (Sample.store 2 1)
           (Sample.page 2 1) Sample.alice Hc eq_refl Hu
           (or_introl eq_refl) (or_introl eq_refl)
           (or_intror (or_introl eq_refl)) Hfresh).
Defined.

(** Used one after the other, the actions never create a second record for
    a tuple. *)
Lemma act_unique (ea : env * action) (w : world) :
  consistent w -> at_most_one_per_tuple (progress (snd w)) ->
  at_most_one_per_tuple (progress (snd (act ea w))).
Proof.
  destruct w as [db st]. cbn [snd]. intros Hw Huniq.
  destruct (user st) as [u | ] eqn:Hu.
  2: { rewrite act_signed_out by exact Hu. exact Huniq. }
  assert (forall x ch d t,
            at_most_one_per_tuple
              (progress
                 (snd match List.find (for_lesson x) (progress st) with
                      | Some p =>
                          after_write st db
                            (Store.update_user_progress db (user st) ch
                               (eq_id p))
                      | None =>
                          after_write st db
                            (Store.insert_user_progress db (user st) d
                               (Store.Values u (courseId st) x true t))
                      end))) as Hwrite.
  { intros x ch d t.
    destruct (List.find (for_lesson x) (progress st)) as [p | ] eqn:Hfind.
    - destruct (update_step db st u ch p Hw Hu _ eq_refl)
        as (_ & _ & _ & _ & Hprog).
      rewrite Hprog. unfold at_most_one_per_tuple. rewrite map_map.
      erewrite map_ext; [exact Huniq | ].
      intros r. destruct (eq_id p r); reflexivity.
    - destruct (insert_step db st u d x true t Hw Hu _ eq_refl)
        as (_ & _ & _ & [Hsame | [_ Hprog]]).
      + rewrite Hsame. exact Huniq.
      + rewrite Hprog. unfold at_most_one_per_tuple. rewrite map_app.
        apply NoDup_snoc; [exact Huniq | ].
        intros Hin. apply in_map_iff in Hin as (r & Htup & Hr).
        pose proof (find_none _ _ Hfind r Hr) as Hnot.
        unfold UserProgress.tuple in Htup. cbn in Htup.
        assert (UserProgress.lesson_id r = x) as Hl by congruence.
        apply strict_eq_true in Hl. unfold for_lesson in Hnot. congruence. }
  unfold act. destruct (snd ea) as [l | ].
  - rewrite (toggle_signed_in _ l db st u Hu). apply Hwrite.
  - rewrite (mark_signed_in _ db st u Hu). apply Hwrite.
Qed.



(** X12: when the fetched records hold a completed record of a lesson
    besides the record that [find] returns for it, a toggle does not change
    what the page shows for the lesson: it was completed and it still is.
    The toggle reaches the record that [find] returned, and [some] still
    sees the other one. *)
Theorem toggle_keeps_flag_behind_a_duplicate
    (e : env) (lessonId : uuid) (w : world) (u : uuid)
    (p q : UserProgress.t) :
  consistent w -> user (snd w) = Some u ->
  List.find (for_lesson (Some lessonId)) (progress (snd w)) = Some p ->
  In q (progress (snd w)) ->
  UserProgress.lesson_id q = Some lessonId ->
  UserProgress.completed q = true ->
  UserProgress.id q <> UserProgress.id p ->
  isLessonCompleted (snd w) lessonId = true /\
  isLessonCompleted (snd (toggleLessonCompletion e lessonId w)) lessonId
  = true /\
  In q (progress (snd (toggleLessonCompletion e lessonId w))).
Proof.
  intros Hw Hu Hfind Hq Hl Hc Hid.
  assert (forall l, In q l ->
            existsb (fun r => for_lesson (Some lessonId) r
                              && UserProgress.completed r) l = true)
    as Hsome.
  { intros l Hin. apply existsb_exists. exists q.
    split; [exact Hin | ]. unfold for_lesson. rewrite Hl, Hc. cbn.
    rewrite String.eqb_refl. reflexivity. }
  split; [apply Hsome; exact Hq | ].
  destruct w as [db st]. cbn [snd] in *.
  pose proof (toggle_signed_in e lessonId db st u Hu) as Heq.
  rewrite Hfind in Heq.
  set (ch := Store.Changes
               (negb (isLessonCompleted st lessonId))
               (if negb (isLessonCompleted st lessonId)
                then Some (completed_at_date e) else None)
               (updated_at_date e)) in Heq.
  destruct (update_step db st u ch p Hw Hu _ Heq)
    as (_ & _ & _ & _ & Hprog).
  assert (In q (progress (snd (toggleLessonCompletion e lessonId (db, st)))))
    as Hin.
  { rewrite Hprog. apply in_map_iff. exists q. split; [ | exact Hq ].
    unfold eq_id. apply String.eqb_neq in Hid. rewrite Hid. reflexivity. }
  split; [apply Hsome; exact Hin | exact Hin].
Qed.

Lemma toggle_keeps_flag_behind_a_duplicate_witness :
  consistent (Sample2.doubled_store, Sample2.doubled_page) /\
  List.find (for_lesson (Some "A"%string)) (progress Sample2.doubled_page)
  = Some (UserProgress.Build "p1" Sample.alice "C" (Some "A"%string)
            false None 100%Z 100%Z) /\
  isLessonCompleted
    (snd (toggleLessonCompletion (Sample.at_time 2000 "n") "A"
            (Sample2.doubled_store, Sample2.doubled_page))) "A"
  = true.
Proof.
  assert (consistent (Sample2.doubled_store, Sample2.doubled_page)) as Hc
    by (split; [reflexivity | split; distinct_ids]).
  split; [exact Hc | ]. split; [reflexivity | ].
  apply (toggle_keeps_flag_behind_a_duplicate
           (Sample.at_time 2000 "n") "A"
           (Sample2.doubled_store, Sample2.doubled_page) Sample.alice
           (UserProgress.Build "p1" Sample.alice "C" (Some "A"%string)
              false None 100%Z 100%Z)
           (UserProgress.Build "p2" Sample.alice "C" (Some "A"%string)
              true (Some 200%Z) 200%Z 200%Z)
           Hc eq_refl eq_refl (or_intror (or_introl eq_refl))
           eq_refl eq_refl).
  discriminate.
Defined.

End Flags.

Section Endpoints.
Import CourseDetail JSNumber.
Local Open Scope Z_scope.

(** A number divided by itself is 1. *)
Lemma div_same (n : Z) :
  0 < n < 2 ^ 53 ->
  div (of_Z n) (of_Z n) = S754_finite false 4503599627370496 (-52).
Proof.
  intros Hn. destruct (of_Z_pos n Hn) as (m & e & -> & He & Hd & Hm).
  unfold div, SFdiv, SFdiv_core_binary. cbn [Zdigits2 xorb]. rewrite Hd.
  assert (Z.min (fexp prec emax (53 + e - (53 + e))) (e - e) = -53) as ->
    by (unfold fexp, emin, prec, emax; lia).
  replace (e - e - -53) with 53 by lia.
  rewrite Z.shiftl_mul_pow2 by lia.
  pose proof (Z_div_mod (Z.pos m * 2 ^ 53) (Z.pos m) ltac:(lia)) as Hqr.
  destruct (Z.div_eucl (Z.pos m * 2 ^ 53) (Z.pos m)) as [q r].
  destruct Hqr as [Hqr Hr].
  destruct (Z.div_mod_unique (Z.pos m) q (2 ^ 53) r 0) as [-> ->];
    [left; exact Hr | left; lia | lia | ].
  rewrite new_location_zero. reflexivity.
Qed.

Lemma div_zero (n : Z) :
  0 < n < 2 ^ 53 -> div (of_Z 0) (of_Z n) = S754_zero false.
Proof.
  intros Hn. destruct (of_Z_pos n Hn) as (m & e & -> & _). reflexivity.
Qed.

Lemma filter_all {A : Type} (f : A -> bool) (l : list A) :
  (forall x, In x l -> f x = true) -> List.filter f l = l.
Proof.
  induction l as [ | a l IH ]; intros H; [reflexivity | ].
  cbn [List.filter]. rewrite (H a) by (left; reflexivity).
  f_equal. apply IH. intros x Hx. apply H. right. exact Hx.
Qed.

(** X13: the percentage is exactly 100 when the course has lessons and
    every lesson is completed, and exactly 0 when no lesson is completed,
    for every number of lessons that a JavaScript array can hold. *)
Theorem calculateProgress_endpoints (st : State) :
  Z.of_nat (length (lessons st)) < 2 ^ 53 ->
  (lessons st <> [] ->
   (forall l, In l (lessons st) ->
              isLessonCompleted st (Lesson.id l) = true) ->
   calculateProgress st = of_Z 100) /\
  ((forall l, In l (lessons st) ->
              isLessonCompleted st (Lesson.id l) = false) ->
   calculateProgress st = of_Z 0).
Proof.
  intros Hlen. unfold calculateProgress. split.
  - intros Hne Hall. rewrite filter_all by exact Hall.
    destruct (lessons st) as [ | l0 ls ] eqn:Hls; [contradiction | ].
    rewrite <- Hls in *. replace (Nat.eqb (length (lessons st)) 0) with false
      by (rewrite Hls; reflexivity).
    unfold of_nat. rewrite div_same; [reflexivity | ].
    rewrite Hls in *. cbn [length] in *. lia.
  - intros Hnone. rewrite filter_none by exact Hnone.
    destruct (Nat.eqb (length (lessons st)) 0) eqn:Hz; [reflexivity | ].
    apply Nat.eqb_neq in Hz. unfold of_nat. cbn [length].
    change (of_Z (Z.of_nat 0)) with (of_Z 0).
    rewrite div_zero by lia. reflexivity.
Qed.

Lemma calculateProgress_endpoints_witness :
  Z.of_nat (length (lessons (Sample.page 3 3))) < 2 ^ 53 /\
  calculateProgress (Sample.page 3 3) = of_Z 100 /\
  calculateProgress (Sample.page 3 0) = of_Z 0.
Proof.
  assert (Z.of_nat (length (lessons (Sample.page 3 3))) < 2 ^ 53) as Hlen
    by reflexivity.
  split; [exact Hlen | ]. split.
  - apply (proj1 (calculateProgress_endpoints (Sample.page 3 3) Hlen)).
    + discriminate.
    + intros l [<- | [<- | [<- | []]]]; reflexivity.
  - apply (proj2 (calculateProgress_endpoints (Sample.page 3 0) Hlen)).
    intros l [<- | [<- | [<- | []]]]; reflexivity.
Defined.

Lemma after_write_snd (st : State) (db : Store.t)
    (r : Store.response Store.t) :
  snd (after_write st db r) = st \/
  snd (after_write st db r) = loadCourseData (fst (after_write st db r)) st.
Proof. destruct r; [right | left]; reflexivity. Qed.

(** X14: marking the course completed leaves the completion percentage of
    a loaded page as it is. *)
Theorem markCourseCompleted_keeps_the_percentage
    (e : env) (db : Store.t) (st : State) :
  consistent (db, st) ->
  lessons st = lessons (loadCourseData db st) ->
  calculateProgress (snd (markCourseCompleted e (db, st)))
  = calculateProgress st.
Proof.
  intros Hw Hlessons.
  destruct (user st) as [u | ] eqn:Hu.
  2: { unfold markCourseCompleted. rewrite Hu. reflexivity. }
  destruct (mark_consistent e (db, st) Hw) as ([_ Hpk'] & _ & _).
  destruct (act_store (e, MarkCourse) (db, st) u Hu)
    as (_ & _ & Hcourses & Hless & _).
  unfold act in Hcourses, Hless. cbn [fst snd] in Hcourses, Hless.
  assert (forall l,
            isLessonCompleted (snd (markCourseCompleted e (db, st))) l
            = isLessonCompleted st l) as Hflags.
  { intros l. rewrite (mark_signed_in e db st u Hu).
    apply (write_keeps_other_flags db st u None (Some l)); auto. }
  assert (lessons (snd (markCourseCompleted e (db, st))) = lessons st)
    as Hsame.
  { rewrite (mark_signed_in e db st u Hu) in *.
    destruct (List.find _ _);
      match goal with
      | |- lessons (snd (after_write st db ?r)) = _ =>
          destruct (after_write_snd st db r) as [-> | ->];
          [reflexivity | ]
      end;
      rewrite (loadCourseData_signed_in _ st u Hpk' Hu), Hlessons,
        (loadCourseData_signed_in db st u (proj2 Hw) Hu);
      cbn [lessons]; rewrite Hless; reflexivity. }
  unfold calculateProgress. rewrite Hsame.
  erewrite filter_ext; [reflexivity | ]. intros l. apply Hflags.
Qed.

Lemma markCourseCompleted_keeps_the_percentage_witness :
  consistent (Sample.store 2 1, Sample.page 2 1) /\
  lessons (Sample.page 2 1)
  = lessons (loadCourseData (Sample.store 2 1) (Sample.page 2 1)) /\
  calculateProgress
    (snd (markCourseCompleted (Sample.at_time 2000 "n")
            (Sample.store 2 1, Sample.page 2 1)))
  = calculateProgress (Sample.page 2 1).
Proof.
  assert (consistent (Sample.store 2 1, Sample.page 2 1)) as Hc
    by (apply sample_consistent; lia).
  split; [exact Hc | ]. split; [reflexivity | ].
  apply (markCourseCompleted_keeps_the_percentage
           (Sample.at_time 2000 "n") (Sample.store 2 1) (Sample.page 2 1)
           Hc eq_refl).
Defined.

End Endpoints.

Lemma uid_is_true (s : RLS.session) (x : uuid) :
  RLS.uid_is s x = true <-> s = Some x.
Proof.
  destruct s as [u | ]; cbn [RLS.uid_is].
  - rewrite String.eqb_eq. split; congruence.
  - split; discriminate.
Qed.

(** X15: the policies let every signed-in session, and no other, read
    every course and every lesson; they permit no INSERT, UPDATE or DELETE
    on the two tables to any session, and a DELETE of a session removes no
    row. *)
Theorem catalogue_is_read_only
    (s : RLS.session) (cmd : RLS.command) (c : Course.t) (l : Lesson.t) :
  (RLS.permits_using RLS.courses_policies RLS.SELECT s c = true <->
   s <> None) /\
  (RLS.permits_using RLS.lessons_policies RLS.SELECT s l = true <->
   s <> None) /\
  (cmd <> RLS.SELECT ->
   RLS.permits_using RLS.courses_policies cmd s c = false /\
   RLS.permits_check RLS.courses_policies cmd s c = false /\
   RLS.permits_using RLS.lessons_policies cmd s l = false /\
   RLS.permits_check RLS.lessons_policies cmd s l = false) /\
  (forall rows where_,
     Store.delete RLS.courses_policies s rows where_ = rows) /\
  (forall rows where_,
     Store.delete RLS.lessons_policies s rows where_ = rows).
Proof.
  split; [ | split; [ | split; [ | split ] ] ].
  - rewrite courses_select. destruct s; split; congruence.
  - rewrite lessons_select. destruct s; split; congruence.
  - intros Hcmd. destruct cmd, s; try contradiction; repeat split; reflexivity.
  - intros rows where_. unfold Store.delete.
    induction rows as [ | r rows IH ]; [reflexivity | ].
    cbn [List.filter].
    replace (RLS.permits_using RLS.courses_policies RLS.DELETE s r)
      with false by (destruct s; reflexivity).
    rewrite andb_false_r. cbn [andb negb]. f_equal. exact IH.
  - intros rows where_. unfold Store.delete.
    induction rows as [ | r rows IH ]; [reflexivity | ].
    cbn [List.filter].
    replace (RLS.permits_using RLS.lessons_policies RLS.DELETE s r)
      with false by (destruct s; reflexivity).
    rewrite andb_false_r. cbn [andb negb]. f_equal. exact IH.
Qed.

(** X16: the policies permit the INSERT and the UPDATE of a profile to the
    session of its own account alone, the new row of an UPDATE included,
    and the DELETE of a profile to no session. *)
Theorem profile_writes_are_own_only (s : RLS.session) (r : Profile.t) :
  (RLS.permits_check RLS.profiles_policies RLS.INSERT s r = true <->
   s = Some (Profile.id r)) /\
  (RLS.permits_using RLS.profiles_policies RLS.UPDATE s r = true <->
   s = Some (Profile.id r)) /\
  (RLS.permits_check RLS.profiles_policies RLS.UPDATE s r = true <->
   s = Some (Profile.id r)) /\
  RLS.permits_using RLS.profiles_policies RLS.DELETE s r = false /\
  (forall rows where_,
     Store.delete RLS.profiles_policies s rows where_ = rows).
Proof.
  assert (forall cmd,
            cmd = RLS.INSERT \/ cmd = RLS.UPDATE ->
            RLS.permits_check RLS.profiles_policies cmd s r
            = RLS.uid_is s (Profile.id r)) as Hcheck.
  { intros cmd [-> | ->]; destruct s as [u | ]; cbn; try reflexivity;
      rewrite ?orb_false_r; reflexivity. }
  assert (RLS.permits_using RLS.profiles_policies RLS.UPDATE s r
          = RLS.uid_is s (Profile.id r)) as Husing.
  { destruct s as [u | ]; cbn; try reflexivity.
    rewrite ?orb_false_r. reflexivity. }
  split; [ | split; [ | split; [ | split ] ] ].
  - rewrite Hcheck by auto. apply uid_is_true.
  - rewrite Husing. apply uid_is_true.
  - rewrite Hcheck by auto. apply uid_is_true.
  - destruct s; reflexivity.
  - intros rows where_. unfold Store.delete.
    induction rows as [ | x rows IH ]; [reflexivity | ].
    cbn [List.filter].
    replace (RLS.permits_using RLS.profiles_policies RLS.DELETE s x)
      with false by (destruct s; reflexivity).
    rewrite andb_false_r. cbn [andb negb]. f_equal. exact IH.
Qed.

(** An update with any filter. *)
Lemma update_any (db : Store.t) (s : RLS.session)
    (c : Store.user_progress_changes) (where_ : UserProgress.t -> bool) :
  Store.update_user_progress db s c where_
  = Store.Data
      (Store.with_user_progress db
         (map (fun r => if RLS.uid_is s (UserProgress.user_id r) && where_ r
                        then Store.apply_changes c r else r)
              (Store.user_progress db))).
Proof.
  unfold Store.update_user_progress.
  replace (forallb _ (Store.user_progress db)) with true.
  - do 2 f_equal. apply map_ext. intros r.
    rewrite user_progress_select, user_progress_update.
    destruct (RLS.uid_is s (UserProgress.user_id r)); reflexivity.
  - symmetry. apply forallb_forall. intros r _.
    rewrite user_progress_select, user_progress_update,
      user_progress_update_check.
    cbn [Store.apply_changes UserProgress.user_id].
    destruct (RLS.uid_is s (UserProgress.user_id r)); [ | reflexivity ].
    cbn. apply orb_true_r.
Qed.

Lemma insert_checked (db db' : Store.t) (s : RLS.session)
    (d : Store.defaults) (v : Store.user_progress_values) :
  Store.insert_user_progress db s d v = Store.Data db' ->
  s = Some (Store.v_user_id v) /\
  ~ In (Store.gen_random_uuid d)
       (map UserProgress.id (Store.user_progress db)) /\
  In (Store.v_user_id v) (map AuthUser.id (Store.auth_users db)) /\
  In (Store.v_course_id v) (map Course.id (Store.courses db)) /\
  match Store.v_lesson_id v with
  | Some l => In l (map Lesson.id (Store.lessons db))
  | None => True
  end /\
  db' = Store.with_user_progress db
          (Store.user_progress db ++ [Store.new_user_progress d v]).
Proof.
  unfold Store.insert_user_progress.
  rewrite user_progress_insert_check.
  cbn [Store.new_user_progress UserProgress.user_id UserProgress.id].
  destruct (RLS.uid_is s (Store.v_user_id v)) eqn:Hs; [ | discriminate ].
  cbn [negb].
  destruct (Store.has_id _ (Store.gen_random_uuid d)) eqn:Hid;
    [discriminate | ].
  destruct (Store.has_id _ (Store.v_user_id v)) eqn:Hu; [ | discriminate ].
  destruct (Store.has_id _ (Store.v_course_id v)) eqn:Hc; [ | discriminate ].
  cbn [andb].
  destruct (Store.v_lesson_id v) as [l | ].
  - destruct (Store.has_id _ l) eqn:Hl; [ | discriminate ].
    cbn [negb]. intros H. inversion H.
    apply uid_is_true in Hs. apply has_id_false in Hid.
    apply has_id_true in Hu, Hc, Hl. auto 10.
  - cbn [negb]. intros H. inversion H.
    apply uid_is_true in Hs. apply has_id_false in Hid.
    apply has_id_true in Hu, Hc. auto 10.
Qed.


(** X18: a registration whose identifier is taken is refused with
    [unique_violation]; one without an email address is refused with
    [not_null_violation], by the trigger; it succeeds exactly when the
    identifier is new and the email address is given. The profile is
    stamped with [now()], and its display name is empty when the metadata
    is absent, is not an object, or has no or a null [full_name]. *)
Theorem sign_up_outcomes (db : Store.t) (d : Store.defaults)
    (new : AuthUser.t) :
  Store.profiles_fkey db ->
  (In (AuthUser.id new) (map AuthUser.id (Store.auth_users db)) ->
   Store.on_auth_user_created db d new
   = Store.Error Store.unique_violation) /\
  (~ In (AuthUser.id new) (map AuthUser.id (Store.auth_users db)) ->
   AuthUser.email new = None ->
   Store.on_auth_user_created db d new
   = Store.Error Store.not_null_violation) /\
  ((exists db', Store.on_auth_user_created db d new = Store.Data db') <->
   ~ In (AuthUser.id new) (map AuthUser.id (Store.auth_users db)) /\
   AuthUser.email new <> None) /\
  (forall db',
     Store.on_auth_user_created db d new = Store.Data db' ->
     (AuthUser.raw_user_meta_data new = None \/
      AuthUser.raw_user_meta_data new = Some JNonObject \/
      exists members,
        AuthUser.raw_user_meta_data new = Some (JObject members) /\
        (members !! "full_name"%string = None \/
         members !! "full_name"%string = Some JNull)) ->
     exists row,
       Store.profiles db' = Store.profiles db ++ [row] /\
       Profile.full_name row = ""%string /\
       Profile.created_at row = Store.now d /\
       Profile.updated_at row = Store.now d).
Proof.
  intros Hfk.
  assert (~ In (AuthUser.id new) (map AuthUser.id (Store.auth_users db)) ->
          Store.has_id (map Profile.id (Store.profiles db)) (AuthUser.id new)
          = false) as Hnone.
  { intros Hfresh. apply has_id_false. intros Hin.
    apply in_map_iff in Hin as (p & Hid & Hp).
    apply Hfresh. rewrite <- Hid. apply Hfk. exact Hp. }
  assert (Store.has_id (map AuthUser.id (Store.auth_users db ++ [new]))
            (AuthUser.id new) = true) as Hself.
  { apply has_id_true. rewrite map_app. apply in_or_app.
    right. left. reflexivity. }
  unfold Store.on_auth_user_created, Store.handle_new_user.
  cbn [Profile.id Store.profiles Store.with_auth_users Store.auth_users].
  rewrite Hself. cbn [negb].
  split; [ | split; [ | split ] ].
  - intros Hin. apply has_id_true in Hin. rewrite Hin. reflexivity.
  - intros Hfresh Hemail. apply has_id_false in Hfresh.
    rewrite Hfresh, Hemail. reflexivity.
  - split.
    + intros [db' H].
      destruct (Store.has_id (map AuthUser.id (Store.auth_users db))
                  (AuthUser.id new)) eqn:Hid; [discriminate | ].
      apply has_id_false in Hid. split; [exact Hid | ].
      destruct (AuthUser.email new); [discriminate | discriminate].
    + intros [Hfresh Hemail]. rewrite (Hnone Hfresh).
      apply has_id_false in Hfresh. rewrite Hfresh.
      destruct (AuthUser.email new); [ | contradiction ].
      eexists. reflexivity.
  - intros db'.
    destruct (Store.has_id (map AuthUser.id (Store.auth_users db))
                (AuthUser.id new)) eqn:Hid; [discriminate | ].
    apply has_id_false in Hid. rewrite (Hnone Hid).
    destruct (AuthUser.email new) as [email | ]; [ | discriminate ].
    intros H Hmeta. inversion H as [Hdb].
    assert (json_get_text (AuthUser.raw_user_meta_data new) "full_name"
            = None) as Hname.
    { destruct Hmeta as [-> | [-> | (members & -> & [Hm | Hm])]];
        cbn [json_get_text]; try rewrite Hm; reflexivity. }
    rewrite Hname. eexists. cbn. repeat split; reflexivity.
Qed.

Lemma sign_up_outcomes_witness :
  Store.profiles_fkey (Sample.store 0 0) /\
  Store.on_auth_user_created (Sample.store 0 0) (Store.Defaults 7%Z "")
    Sample2.erin
  = Store.Error Store.not_null_violation.
Proof.
  assert (Store.profiles_fkey (Sample.store 0 0)) as Hfk.
  { intros p [<- | [<- | []]]; cbn; auto. }
  split; [exact Hfk | ].
  apply (sign_up_outcomes (Sample.store 0 0) (Store.Defaults 7%Z "")
           Sample2.erin Hfk).
  - cbn. intuition discriminate.
  - reflexivity.
Defined.

Lemma NoDup_map_filter {A B : Type} (key : A -> B) (f : A -> bool)
    (l : list A) :
  List.NoDup (map key l) -> List.NoDup (map key (List.filter f l)).
Proof.
  induction l as [ | a l IH ]; cbn [map List.filter]; intros Hnd;
    [exact Hnd | ].
  inversion Hnd as [ | ? ? Hnot Hnd' ]; subst.
  destruct (f a); [ | apply IH; exact Hnd' ].
  cbn [map]. constructor; [ | apply IH; exact Hnd' ].
  intros Hin. apply Hnot. apply in_map_iff in Hin as (x & Hx & Hin).
  apply filter_In in Hin as [Hin _]. rewrite <- Hx. apply in_map. exact Hin.
Qed.

Lemma in_map_filter {A : Type} (key : A -> uuid) (id : uuid) (k : uuid)
    (l : list A) :
  In k (map key l) -> k <> id ->
  In k (map key (List.filter (fun a => negb (String.eqb (key a) id)) l)).
Proof.
  intros Hin Hk. apply in_map_iff in Hin as (x & Hx & Hin).
  apply in_map_iff. exists x. split; [exact Hx | ].
  apply filter_In. split; [exact Hin | ].
  apply negb_true_iff, String.eqb_neq. congruence.
Qed.

Section Integrity.
Import Schema.

Lemma insert_keeps_integrity (db db' : Store.t) (s : RLS.session)
    (d : Store.defaults) (v : Store.user_progress_values) :
  integrity db -> Store.insert_user_progress db s d v = Store.Data db' ->
  integrity db'.
Proof.
  intros [(Hu & Hp & Hc & Hl & Hr) (Fp & Fl & Fr)] H.
  apply insert_checked in H as (_ & Hfresh & Huser & Hcourse & Hlesson & ->).
  split.
  - repeat (split; [assumption | ]).
    cbn [Store.user_progress Store.with_user_progress]. rewrite map_app.
    apply NoDup_snoc; assumption.
  - split; [exact Fp | ]. split; [exact Fl | ].
    cbn [Store.user_progress Store.with_user_progress Store.auth_users
         Store.courses Store.lessons].
    intros r Hin. apply in_app_iff in Hin as [Hin | [<- | []]];
      [apply Fr; exact Hin | ].
    cbn. auto.
Qed.

Lemma update_keeps_integrity (db db' : Store.t) (s : RLS.session)
    (c : Store.user_progress_changes) (where_ : UserProgress.t -> bool) :
  integrity db -> Store.update_user_progress db s c where_ = Store.Data db' ->
  integrity db'.
Proof.
  intros [(Hu & Hp & Hc & Hl & Hr) (Fp & Fl & Fr)] H.
  rewrite update_any in H. inversion H as [Hdb]. clear H Hdb. split.
  - repeat (split; [assumption | ]).
    cbn [Store.user_progress Store.with_user_progress]. rewrite map_map.
    erewrite map_ext; [exact Hr | ]. intros r.
    destruct (RLS.uid_is s (UserProgress.user_id r) && where_ r);
      reflexivity.
  - split; [exact Fp | ]. split; [exact Fl | ].
    cbn [Store.user_progress Store.with_user_progress Store.auth_users
         Store.courses Store.lessons].
    intros r Hin. apply in_map_iff in Hin as (x & <- & Hin).
    specialize (Fr x Hin).
    destruct (RLS.uid_is s (UserProgress.user_id x) && where_ x);
      exact Fr.
Qed.

Lemma sign_up_keeps_integrity (db db' : Store.t) (d : Store.defaults)
    (new : AuthUser.t) :
  integrity db -> Store.on_auth_user_created db d new = Store.Data db' ->
  integrity db'.
Proof.
  intros [(Hu & Hp & Hc & Hl & Hr) (Fp & Fl & Fr)].
  unfold Store.on_auth_user_created, Store.handle_new_user.
  cbn [Profile.id Store.profiles Store.with_auth_users Store.auth_users].
  destruct (Store.has_id (map AuthUser.id (Store.auth_users db))
              (AuthUser.id new)) eqn:Hid; [discriminate | ].
  destruct (AuthUser.email new) as [email | ]; [ | discriminate ].
  destruct (Store.has_id (map Profile.id (Store.profiles db))
              (AuthUser.id new)) eqn:Hpid; [discriminate | ].
  destruct (negb _); [discriminate | ].
  intros H. inversion H as [Hdb]. clear H Hdb.
  apply has_id_false in Hid, Hpid. split.
  - unfold all_primary_keys. cbn. rewrite !map_app.
    split; [apply NoDup_snoc; assumption | ].
    split; [apply NoDup_snoc; assumption | ]. auto.
  - unfold foreign_keys. cbn. rewrite !map_app. split; [ | split ].
    + intros p Hin. apply in_app_iff in Hin as [Hin | [<- | []]];
        apply in_or_app; [left; apply Fp; exact Hin | right; left; reflexivity].
    + exact Fl.
    + intros r Hin. destruct (Fr r Hin) as (H1 & H2 & H3).
      split; [apply in_or_app; left; exact H1 | auto].
Qed.

Lemma delete_progress_keeps_integrity (db : Store.t) (s : RLS.session)
    (where_ : UserProgress.t -> bool) :
  integrity db ->
  integrity
    (Store.with_user_progress db
       (Store.delete RLS.user_progress_policies s (Store.user_progress db)
          where_)).
Proof.
  rewrite delete_user_progress_nothing. destruct db. exact (fun H => H).
Qed.

Lemma delete_lesson_keeps_integrity (db : Store.t) (id : uuid) :
  integrity db -> integrity (delete_lesson db id).
Proof.
  intros [(Hu & Hp & Hc & Hl & Hr) (Fp & Fl & Fr)]. split.
  - cbn. repeat (split; [assumption | ]).
    split; apply NoDup_map_filter; assumption.
  - cbn. split; [exact Fp | ]. split.
    + intros l Hin. apply filter_In in Hin as [Hin _]. apply Fl. exact Hin.
    + intros r Hin. apply filter_In in Hin as [Hin Hkeep].
      destruct (Fr r Hin) as (H1 & H2 & H3).
      split; [exact H1 | ]. split; [exact H2 | ].
      destruct (UserProgress.lesson_id r) as [l | ]; [ | exact I ].
      apply in_map_filter; [exact H3 | ].
      intros ->. cbn in Hkeep. rewrite String.eqb_refl in Hkeep.
      discriminate Hkeep.
Qed.

Lemma delete_auth_user_keeps_integrity (db : Store.t) (id : uuid) :
  integrity db -> integrity (delete_auth_user db id).
Proof.
  intros [(Hu & Hp & Hc & Hl & Hr) (Fp & Fl & Fr)]. split.
  - cbn. split; [apply NoDup_map_filter; assumption | ].
    split; [apply NoDup_map_filter; assumption | ].
    split; [assumption | ]. split; [assumption | ].
    apply NoDup_map_filter; assumption.
  - cbn. split; [ | split; [exact Fl | ] ].
    + intros p Hin. apply filter_In in Hin as [Hin Hkeep].
      apply in_map_filter; [apply Fp; exact Hin | ].
      apply negb_true_iff, String.eqb_neq in Hkeep. exact Hkeep.
    + intros r Hin. apply filter_In in Hin as [Hin Hkeep].
      destruct (Fr r Hin) as (H1 & H2 & H3).
      split; [ | auto ].
      apply in_map_filter; [exact H1 | ].
      apply negb_true_iff, String.eqb_neq in Hkeep. exact Hkeep.
Qed.

Lemma delete_course_keeps_integrity (db : Store.t) (id : uuid) :
  integrity db -> integrity (delete_course db id).
Proof.
  intros [(Hu & Hp & Hc & Hl & Hr) (Fp & Fl & Fr)]. split.
  - cbn. split; [assumption | ]. split; [assumption | ].
    split; [apply NoDup_map_filter; assumption | ].
    split; apply NoDup_map_filter; assumption.
  - cbn. split; [exact Fp | ]. split.
    + intros l Hin. apply filter_In in Hin as [Hin Hkeep].
      apply in_map_filter; [apply Fl; exact Hin | ].
      apply negb_true_iff, String.eqb_neq in Hkeep. exact Hkeep.
    + intros r Hin. apply filter_In in Hin as [Hin Hkeep].
      apply andb_true_iff in Hkeep as [Hcourse Hlesson].
      destruct (Fr r Hin) as (H1 & H2 & H3).
      split; [exact H1 | ]. split.
      * apply in_map_filter; [exact H2 | ].
        apply negb_true_iff, String.eqb_neq in Hcourse. exact Hcourse.
      * destruct (UserProgress.lesson_id r) as [l | ]; [ | exact I ].
        apply negb_true_iff, has_id_false in Hlesson.
        apply in_map_iff in H3 as (x & Hx & Hxin).
        apply in_map_iff. exists x. split; [exact Hx | ].
        apply filter_In. split; [exact Hxin | ].
        apply negb_true_iff, not_true_is_false. intros Hgone.
        apply Hlesson. rewrite <- Hx. apply in_map.
        apply filter_In. split; assumption.
Qed.

Lemma execute_keeps_integrity (q : statement) (db db' : Store.t) :
  integrity db -> execute q db = Store.Data db' -> integrity db'.
Proof.
  intros Hdb. destruct q; cbn [execute]; intros H.
  - eapply insert_keeps_integrity; eassumption.
  - eapply update_keeps_integrity; eassumption.
  - inversion H. apply delete_progress_keeps_integrity. exact Hdb.
  - eapply sign_up_keeps_integrity; eassumption.
  - inversion H. apply delete_lesson_keeps_integrity. exact Hdb.
  - inversion H. apply delete_course_keeps_integrity. exact Hdb.
  - inversion H. apply delete_auth_user_keeps_integrity. exact Hdb.
Qed.

Lemma catalogue_integrity : integrity Sample2.catalogue.
Proof.
  split.
  - repeat split; distinct_ids.
  - split; [ | split ].
    + intros p [<- | [<- | []]]; cbn; auto.
    + intros l [<- | [<- | [<- | []]]]; cbn; auto.
    + intros r [<- | [<- | [<- | []]]]; cbn; auto 10.
Qed.

(** X19: the primary keys and the references of the schema hold after any
    list of statements on a store in which they hold: inserts and updates
    of Progress Records by any session, registrations with their trigger,
    and deletes of lessons, courses and identities with their cascades. *)
Theorem statements_keep_keys_and_references
    (qs : list statement) (db : Store.t) :
  integrity db -> integrity (execute_all qs db).
Proof.
  revert db. induction qs as [ | q qs IH ]; intros db Hdb; [exact Hdb | ].
  cbn [execute_all fold_left]. apply IH.
  destruct (execute q db) as [db' | err] eqn:Hq; [ | exact Hdb ].
  exact (execute_keeps_integrity q db db' Hdb Hq).
Qed.

Lemma statements_keep_keys_and_references_witness :
  integrity Sample2.catalogue /\
  integrity
    (execute_all
       [ DeleteCourse "c1"; SignUp (Store.Defaults 7%Z "") Sample.carol;
         InsertProgress (Some "carol"%string) (Store.Defaults 8%Z "r4")
           (Store.Values "carol" "c2" (Some "l3"%string) true (Some 8%Z));
         DeleteLesson "l3"; DeleteAuthUser Sample.bob ]
       Sample2.catalogue).
Proof.
  split; [exact catalogue_integrity | ].
  apply (statements_keep_keys_and_references _ _ catalogue_integrity).
Defined.

(** X20: the actions of the page leave a store in which the primary keys
    and the references of the schema hold in such a state. *)
Theorem actions_keep_keys_and_references
    (eas : list (CourseDetail.env * CourseDetail.action))
    (w : CourseDetail.world) :
  integrity (fst w) -> integrity (fst (CourseDetail.run eas w)).
Proof.
  revert w. induction eas as [ | ea eas IH ]; intros w Hw; [exact Hw | ].
  rewrite run_cons. apply IH.
  destruct w as [db st]. cbn [fst] in *. unfold CourseDetail.act.
  assert (forall r,
            (forall db', r = Store.Data db' -> integrity db') ->
            integrity (fst (CourseDetail.after_write st db r))) as Hwrite.
  { intros [db' | err] H; cbn [CourseDetail.after_write fst];
      [apply H; reflexivity | exact Hw]. }
  destruct (snd ea) as [l | ];
    unfold CourseDetail.toggleLessonCompletion,
           CourseDetail.markCourseCompleted;
    destruct (CourseDetail.user st) as [u | ]; try exact Hw;
    destruct (List.find _ _); apply Hwrite; intros db' H;
    first [ eapply update_keeps_integrity; eassumption
          | eapply insert_keeps_integrity; eassumption ].
Qed.

Lemma actions_keep_keys_and_references_witness :
  integrity Sample2.catalogue /\
  integrity
    (fst (CourseDetail.run
            [ (Sample.at_time 2000 "n", CourseDetail.ToggleLesson "l2");
              (Sample.at_time 3000 "m", CourseDetail.MarkCourse) ]
            (Sample2.catalogue,
             CourseDetail.loadCourseData Sample2.catalogue
               (App.mount Sample.alice "c1")))).
Proof.
  split; [exact catalogue_integrity | ].
  apply (actions_keep_keys_and_references _ (Sample2.catalogue, _)
           catalogue_integrity).
Defined.

End Integrity.

Section Badge.
Import CourseCard.

Lemma difficultyColors_lookup (key : string) :
  difficultyColors !! key
  = if String.eqb key "beginner" then Some "bg-green-100 text-green-700"%string
    else if String.eqb key "intermediate"
         then Some "bg-yellow-100 text-yellow-700"%string
    else if String.eqb key "advanced"
         then Some "bg-red-100 text-red-700"%string
    else None.
Proof.
  unfold difficultyColors.
  destruct (String.eqb key "beginner") eqn:H1.
  - apply String.eqb_eq in H1. subst key. reflexivity.
  - apply String.eqb_neq in H1. rewrite lookup_insert_ne by congruence.
    destruct (String.eqb key "intermediate") eqn:H2.
    + apply String.eqb_eq in H2. subst key. reflexivity.
    + apply String.eqb_neq in H2. rewrite lookup_insert_ne by congruence.
      destruct (String.eqb key "advanced") eqn:H3.
      * apply String.eqb_eq in H3. subst key. reflexivity.
      * apply String.eqb_neq in H3. apply lookup_singleton_ne. congruence.
Qed.

(** X21: the badge of a card has the colours of the level of the course
    for the three levels, and the colours of [beginner] for any other
    difficulty (the column is free text) unless the difficulty is the name
    of a member that every object inherits, such as [constructor]: the
    class of the badge is then that member, and none of the colours. *)
Theorem difficultyColor_falls_back_to_beginner (course : Course.t) :
  (~ In (Course.difficulty course) Object_prototype ->
   difficultyColor course
   = own (if String.eqb (Course.difficulty course) "intermediate"
          then "bg-yellow-100 text-yellow-700"
          else if String.eqb (Course.difficulty course) "advanced"
               then "bg-red-100 text-red-700"
               else "bg-green-100 text-green-700")) /\
  (In (Course.difficulty course) Object_prototype ->
   difficultyColor course = inherited (Course.difficulty course)).
Proof.
  unfold difficultyColor, get. rewrite !difficultyColors_lookup.
  change (existsb (String.eqb ?d) Object_prototype)
    with (Store.has_id Object_prototype d).
  split.
  - intros Hnot. apply has_id_false in Hnot. rewrite Hnot.
    destruct (String.eqb (Course.difficulty course) "beginner") eqn:H1.
    + apply String.eqb_eq in H1. rewrite H1. reflexivity.
    + destruct (String.eqb (Course.difficulty course) "intermediate");
        [reflexivity | ].
      destruct (String.eqb (Course.difficulty course) "advanced");
        reflexivity.
  - intros Hin. pose proof Hin as Hid. apply has_id_true in Hid.
    rewrite Hid.
    repeat (destruct Hin as [<- | Hin]; [reflexivity | ]). destruct Hin.
Qed.

End Badge.

Section Permutations.
Context {A : Type}.

Lemma existsb_permutation (f : A -> bool) (l l' : list A) :
  Permutation l l' -> existsb f l = existsb f l'.
Proof.
  induction 1 as [ | x l l' _ IH | x y l | l l' l'' _ IH1 _ IH2 ];
    cbn [existsb].
  - reflexivity.
  - rewrite IH. reflexivity.
  - destruct (f x), (f y); reflexivity.
  - rewrite IH1. exact IH2.
Qed.

Lemma filter_permutation (f : A -> bool) (l l' : list A) :
  Permutation l l' -> Permutation (List.filter f l) (List.filter f l').
Proof.
  induction 1 as [ | x l l' _ IH | x y l | l l' l'' _ IH1 _ IH2 ];
    cbn [List.filter].
  - constructor.
  - destruct (f x); [constructor | ]; exact IH.
  - destruct (f x), (f y); try reflexivity. constructor.
  - rewrite IH1. exact IH2.
Qed.

(** [find] does not depend on the order when at most one element can be
    found. *)
Lemma find_permutation (f : A -> bool) (l l' : list A) :
  (forall a b, In a l -> In b l -> f a = true -> f b = true -> a = b) ->
  Permutation l l' -> List.find f l = List.find f l'.
Proof.
  intros Hone Hperm.
  destruct (List.find f l) as [a | ] eqn:Hl,
           (List.find f l') as [b | ] eqn:Hl'.
  - apply find_some in Hl as [Ha Hfa], Hl' as [Hb Hfb].
    apply (Permutation_in _ (Permutation_sym Hperm)) in Hb.
    f_equal. apply Hone; assumption.
  - apply find_some in Hl as [Ha Hfa].
    apply (Permutation_in _ Hperm) in Ha.
    rewrite (find_none _ _ Hl' a Ha) in Hfa. discriminate Hfa.
  - apply find_some in Hl' as [Hb Hfb].
    apply (Permutation_in _ (Permutation_sym Hperm)) in Hb.
    rewrite (find_none _ _ Hl b Hb) in Hfb. discriminate Hfb.
  - reflexivity.
Qed.

End Permutations.

Section Order.
Import CourseDetail RowOrder.

Lemma same_rows_refl (db : Store.t) : same_rows db db.
Proof. repeat split; reflexivity. Qed.

Lemma same_world_refl (w : world) : same_world w w.
Proof. repeat split; reflexivity. Qed.

Lemma same_world_trans (w1 w2 w3 : world) :
  same_world w1 w2 -> same_world w2 w3 -> same_world w1 w3.
Proof.
  intros [(A1 & P1 & C1 & L1 & T1) (U1 & I1 & K1 & S1 & G1 & E1 & Q1)]
         [(A2 & P2 & C2 & L2 & T2) (U2 & I2 & K2 & S2 & G2 & E2 & Q2)].
  split.
  - repeat split; try congruence. exact (Permutation_trans T1 T2).
  - repeat split; try congruence. exact (Permutation_trans Q1 Q2).
Qed.

Lemma has_id_permutation (ids ids' : list uuid) (x : uuid) :
  Permutation ids ids' -> Store.has_id ids x = Store.has_id ids' x.
Proof. apply existsb_permutation. Qed.

(** A load of two stores with the same rows, from two pages with the same
    data. *)
Lemma loadCourseData_same (db db' : Store.t) (st st' : State) :
  same_rows db db' -> same_page st st' ->
  same_page (loadCourseData db st) (loadCourseData db' st').
Proof.
  intros (_ & _ & Hc & Hl & Hr) (Hu & Hi & Hk & Hs & Hg & He & Hq).
  unfold loadCourseData. rewrite Hu, Hi, Hk, Hs, He, Hc, Hl.
  destruct (Store.maybeSingle _) as [c | err];
    repeat split; try reflexivity.
  - cbn [progress]. destruct (user st) as [u | ]; [ | reflexivity ].
    apply filter_permutation. exact Hr.
  - exact Hq.
Qed.

Lemma after_write_same (st st' : State) (db db' : Store.t)
    (r r' : Store.response Store.t) :
  same_rows db db' -> same_page st st' ->
  match r, r' with
  | Store.Data d, Store.Data d' => same_rows d d'
  | Store.Error _, Store.Error _ => True
  | _, _ => False
  end ->
  same_world (after_write st db r) (after_write st' db' r').
Proof.
  intros Hdb Hst Hr. destruct r as [d | err], r' as [d' | err'];
    try contradiction; cbn [after_write].
  - split; [exact Hr | ]. apply loadCourseData_same; assumption.
  - split; assumption.
Qed.

Lemma update_same (db db' : Store.t) (u : uuid)
    (ch : Store.user_progress_changes) (p : UserProgress.t) :
  same_rows db db' ->
  match Store.update_user_progress db (Some u) ch (eq_id p),
        Store.update_user_progress db' (Some u) ch (eq_id p) with
  | Store.Data d, Store.Data d' => same_rows d d'
  | Store.Error _, Store.Error _ => True
  | _, _ => False
  end.
Proof.
  intros (Ha & Hp & Hc & Hl & Hr). rewrite !update_by_id.
  repeat split; try assumption.
  cbn [Store.user_progress Store.with_user_progress].
  apply Permutation_map. exact Hr.
Qed.

Lemma insert_same (db db' : Store.t) (s : RLS.session)
    (d : Store.defaults) (v : Store.user_progress_values) :
  same_rows db db' ->
  match Store.insert_user_progress db s d v,
        Store.insert_user_progress db' s d v with
  | Store.Data d, Store.Data d' => same_rows d d'
  | Store.Error _, Store.Error _ => True
  | _, _ => False
  end.
Proof.
  intros (Ha & Hp & Hc & Hl & Hr). unfold Store.insert_user_progress.
  rewrite Ha, Hc, Hl.
  rewrite (has_id_permutation _ _ _
             (Permutation_map UserProgress.id (Permutation_sym Hr))).
  destruct (negb _); [exact I | ].
  destruct (Store.has_id _ _); [exact I | ].
  destruct (negb _); [exact I | ].
  repeat split; try assumption.
  cbn [Store.user_progress Store.with_user_progress].
  apply Permutation_app_tail. exact Hr.
Qed.

(** An action on two worlds with the same rows, one of them in sync and
    with at most one record per tuple. *)
Lemma act_same (ea : env * action) (w w' : world) :
  consistent w -> at_most_one_per_tuple (progress (snd w)) ->
  same_world w w' -> same_world (act ea w) (act ea w').
Proof.
  destruct w as [db st], w' as [db' st']. cbn [snd].
  intros Hw Huniq Hsame. pose proof Hsame as [Hdb Hst].
  cbn [fst snd] in Hdb, Hst.
  pose proof Hst as (Hu & Hi & _ & _ & _ & _ & Hq).
  destruct (user st) as [u | ] eqn:Huser.
  2: { rewrite !act_signed_out by assumption. exact Hsame. }
  assert (forall x, List.find (for_lesson x) (progress st)
                    = List.find (for_lesson x) (progress st')) as Hfind.
  { intros x. apply find_permutation; [ | exact Hq ].
    intros a b Ha Hb Hfa Hfb. apply strict_eq_true in Hfa, Hfb.
    apply (NoDup_map_eq UserProgress.tuple _ _ _ Huniq Ha Hb).
    destruct (fetched_of_caller db st u a Hw Huser Ha) as (_ & Hau & Hac).
    destruct (fetched_of_caller db st u b Hw Huser Hb) as (_ & Hbu & Hbc).
    unfold UserProgress.tuple. congruence. }
  assert (forall l, isLessonCompleted st l = isLessonCompleted st' l)
    as Hflag
    by (intros l; apply existsb_permutation; exact Hq).
  unfold act. destruct (snd ea) as [l | ].
  - rewrite (toggle_signed_in _ l db st u Huser),
      (toggle_signed_in _ l db' st' u Hu).
    rewrite <- Hfind, <- Hflag, Hu, Hi, Huser.
    destruct (List.find _ (progress st)) as [p | ];
      apply after_write_same; try assumption.
    + apply update_same. exact Hdb.
    + apply insert_same. exact Hdb.
  - rewrite (mark_signed_in _ db st u Huser),
      (mark_signed_in _ db' st' u Hu).
    rewrite <- Hfind, Hu, Hi, Huser.
    destruct (List.find _ (progress st)) as [p | ];
      apply after_write_same; try assumption.
    + apply update_same. exact Hdb.
    + apply insert_same. exact Hdb.
Qed.

Lemma calculateProgress_same (st st' : State) :
  same_page st st' ->
  (forall l, isLessonCompleted st' l = isLessonCompleted st l) /\
  isCourseCompleted st' = isCourseCompleted st /\
  calculateProgress st' = calculateProgress st.
Proof.
  intros (_ & _ & _ & Hs & _ & _ & Hq).
  assert (forall l, isLessonCompleted st' l = isLessonCompleted st l)
    as Hflag
    by (intros l; symmetry; apply existsb_permutation; exact Hq).
  split; [exact Hflag | ].
  split; [symmetry; apply existsb_permutation; exact Hq | ].
  unfold calculateProgress. rewrite Hs.
  erewrite filter_ext; [reflexivity | ]. intros l. apply Hflag.
Qed.

Lemma runs_to_same (eas : list (env * action)) (wr w' : world) :
  runs_to eas wr w' ->
  forall wm,
    consistent wm -> at_most_one_per_tuple (progress (snd wm)) ->
    same_world wm wr -> same_world (run eas wm) w'.
Proof.
  induction 1 as [ wr w' Hend | ea eas wr w0 w1 w' Hstart Hstep _ IH ];
    intros wm Hc Hu Hsame.
  - exact (same_world_trans _ _ _ Hsame Hend).
  - rewrite run_cons. apply IH.
    + apply act_consistent. exact Hc.
    + apply act_unique; assumption.
    + apply (same_world_trans _ (act ea w0)); [ | exact Hstep ].
      apply act_same; [exact Hc | exact Hu | ].
      exact (same_world_trans _ _ _ Hsame Hstart).
Qed.

(** X22: the order in which the store returns the rows does not matter to
    a page that is in sync and shows at most one record per tuple: let the
    store return its rows in another order before the first action and
    after every action; the run ends with the same records in the store
    and on the page as the run in which the rows keep their places, and
    the page shows the same flags and the same percentage. *)
Theorem actions_do_not_depend_on_row_order
    (eas : list (env * action)) (w w' : world) :
  consistent w -> at_most_one_per_tuple (progress (snd w)) ->
  runs_to eas w w' ->
  same_world (run eas w) w' /\
  (forall l, isLessonCompleted (snd w') l
             = isLessonCompleted (snd (run eas w)) l) /\
  isCourseCompleted (snd w') = isCourseCompleted (snd (run eas w)) /\
  calculateProgress (snd w') = calculateProgress (snd (run eas w)).
Proof.
  intros Hc Hu Hrun.
  pose proof (runs_to_same eas w w' Hrun w Hc Hu (same_world_refl w))
    as Hsame.
  split; [exact Hsame | ].
  apply calculateProgress_same. apply Hsame.
Qed.

Lemma same_world_reversed (w : world) : same_world w (Sample2.reversed w).
Proof.
  destruct w as [db st]. split; repeat split; apply Permutation_rev.
Qed.

Lemma actions_do_not_depend_on_row_order_witness :
  consistent (Sample.store 2 1, Sample.page 2 1) /\
  at_most_one_per_tuple (progress (Sample.page 2 1)) /\
  runs_to
    [ (Sample.at_time 2000 "n", ToggleLesson "B");
      (Sample.at_time 3000 "m", ToggleLesson "A") ]
    (Sample.store 2 1, Sample.page 2 1)
    (Sample2.reversed
       (act (Sample.at_time 3000 "m", ToggleLesson "A")
          (Sample2.reversed
             (act (Sample.at_time 2000 "n", ToggleLesson "B")
                (Sample2.reversed
                   (Sample.store 2 1, Sample.page 2 1)))))) /\
  calculateProgress
    (snd (Sample2.reversed
            (act (Sample.at_time 3000 "m", ToggleLesson "A")
               (Sample2.reversed
                  (act (Sample.at_time 2000 "n", ToggleLesson "B")
                     (Sample2.reversed
                        (Sample.store 2 1, Sample.page 2 1)))))))
  = calculateProgress
      (snd (run [ (Sample.at_time 2000 "n", ToggleLesson "B");
                  (Sample.at_time 3000 "m", ToggleLesson "A") ]
              (Sample.store 2 1, Sample.page 2 1))).
Proof.
  assert (consistent (Sample.store 2 1, Sample.page 2 1)) as Hc
    by (apply sample_consistent; lia).
  assert (at_most_one_per_tuple (progress (Sample.page 2 1))) as Hu
    by (repeat constructor; intros []).
  assert (runs_to
            [ (Sample.at_time 2000 "n", ToggleLesson "B");
              (Sample.at_time 3000 "m", ToggleLesson "A") ]
            (Sample.store 2 1, Sample.page 2 1)
            (Sample2.reversed
               (act (Sample.at_time 3000 "m", ToggleLesson "A")
                  (Sample2.reversed
                     (act (Sample.at_time 2000 "n", ToggleLesson "B")
                        (Sample2.reversed
                           (Sample.store 2 1, Sample.page 2 1)))))))
    as Hrun.
  { eapply runs_cons; [apply same_world_reversed | | ].
    - apply same_world_reversed.
    - eapply runs_cons; [apply same_world_refl | | ].
      + apply same_world_reversed.
      + apply runs_nil. apply same_world_refl. }
  split; [exact Hc | ]. split; [exact Hu | ]. split; [exact Hrun | ].
  apply (actions_do_not_depend_on_row_order _ _ _ Hc Hu Hrun).
Defined.

End Order.
